(** * Corpus stoplists: a shallow embedding of [cltk/stop/stop.py]

    The development follows class [CorpusStoplist]: the text preprocessing
    of [build_stoplist], the probability model ([_get_probabilities],
    [_get_mean_probabilities], [_get_variance_probabilities],
    [_get_entropies]), the ranking helpers ([_combine_vocabulary],
    [_borda_sort]) and the assembly of the final list.

    Modelling conventions.
    - A Python [str] is a [string] whose characters are code points 0..255
      (the Latin-1 repertoire, which contains every character of the
      punctuation table of the source, the guillemets included).  Python
      compares strings code point by code point, which is [String.compare].
    - numpy's float64 values are modelled in exact arithmetic: a [num] is
      either a finite rational or [NonFinite] (the nan and the infinities that
      numpy produces, with a warning and no exception, on a division by
      zero).  Rounding is not modelled there: the rankings are studied on
      [num].  Where the exact value of a score is at stake, the code is read
      over binary64 itself, in module [Float64].
    - A numpy matrix is the list of its rows.  The operations combine
      operands of the shapes [build_stoplist] gives them, a vectorizer
      returning one row per document and one column per term; numpy would
      refuse other shapes, on which the model stops at the shorter operand.
    - sklearn's vectorizers and numpy's [log10] are libraries the module
      calls: they are parameters of the development, and so is the order in
      which Python iterates over a set.  A dictionary keeps its keys in
      insertion order.
    - [self] is threaded explicitly: fitting a vectorizer changes it. *)

From Stdlib Require Import List String Ascii Bool Arith ZArith Lia.
From Stdlib Require Import QArith Qcanon Field.
From Stdlib Require Import Permutation Sorted OrderedTypeEx.
From Stdlib Require Import PrimFloat.
Import ListNotations.

Local Close Scope Q_scope.
Local Open Scope string_scope.
Local Open Scope list_scope.
Local Open Scope nat_scope.

(** ** Python exceptions and strings *)

(** The exceptions that can leave [build_stoplist]: its own [ValueError]
    (sklearn raises the same class), and the errors of attribute access. *)
Inductive exn : Type :=
  | ValueError (msg : string)
  | AttributeError (msg : string)
  | NotFittedError (msg : string).

Module PyStr.

(** [str.lower()] on code points 0..255: the upper-case letters are A-Z
    (65..90) and the accented capitals 192..222 except the multiplication
    sign 215; each lower-case partner is 32 further.  Beyond these code
    points lower-casing can change the number of characters (U+0130 becomes
    two), so nothing is stated on the length of a lower-cased text. *)
Definition is_upper (n : nat) : bool :=
  ((65 <=? n) && (n <=? 90))
  || ((192 <=? n) && (n <=? 222) && negb (n =? 215)).

Definition char_lower (c : ascii) : ascii :=
  let n := nat_of_ascii c in
  if is_upper n then ascii_of_nat (n + 32) else c.

Fixpoint lower (s : string) : string :=
  match s with
  | EmptyString => EmptyString
  | String c s' => String (char_lower c) (lower s')
  end.

Fixpoint mem_char (c : ascii) (table : string) : bool :=
  match table with
  | EmptyString => false
  | String d t => Ascii.eqb c d || mem_char c t
  end.

(** [text.translate(str.maketrans({key: " " for key in table}))] *)
Fixpoint translate_to_space (table : string) (s : string) : string :=
  match s with
  | EmptyString => EmptyString
  | String c s' =>
      String (if mem_char c table then " "%char else c)
             (translate_to_space table s')
  end.

(** [str.isspace()] on code points 0..255. *)
Definition is_space (c : ascii) : bool :=
  let n := nat_of_ascii c in
  ((9 <=? n) && (n <=? 13)) || ((28 <=? n) && (n <=? 32))
  || (n =? 133) || (n =? 160).

(** [len(s.split())]: the number of maximal runs of non-blank characters.
    [in_tok] tells whether the previous character belonged to a token. *)
Fixpoint count_tokens (in_tok : bool) (s : string) : nat :=
  match s with
  | EmptyString => 0
  | String c s' =>
      if is_space c then count_tokens false s'
      else (if in_tok then 0 else 1) + count_tokens true s'
  end.

Definition split_len (s : string) : nat := count_tokens false s.

End PyStr.

(** The two translation tables of [build_stoplist].  The first one is the
    literal of the source; the double quote is code point 34, the backslash
    before the closing bracket is kept by Python, and the guillemets are code
    points 171 and 187. *)
Definition punctuation : string :=
  String (ascii_of_nat 34)
    ("#$%&'()*+,-/:;<=>@[\]^_`{|}~.?!"
       ++ String (ascii_of_nat 171) (String (ascii_of_nat 187) EmptyString)).

Definition digits : string := "0123456789".

(** ** Numbers and arrays (numpy) *)

(** A float64 in exact arithmetic.  [NonFinite] stands for nan and the two
    infinities.  The only operation of the pipeline that leaves that class,
    [1/inf = 0], occurs in [_get_entropies], where it is followed by
    [log10(0) = -inf] and a product with [inf]: the cell is non-finite
    again, as it is here.  Sums, products and quotients are not rounded:
    what holds of unrounded values only is not stated of the code. *)
Inductive num : Type :=
  | Fin (q : Qc)
  | NonFinite.

Module Np.

Definition Qc_of_nat (n : nat) : Qc := Q2Qc (inject_Z (Z.of_nat n)).

Definition Qc_eqb (x y : Qc) : bool := Qeq_bool x y.

Definition Qc_ltb (x y : Qc) : bool :=
  match (x ?= y)%Qc with Lt => true | _ => false end.

Definition of_nat (n : nat) : num := Fin (Qc_of_nat n).

Definition zero : num := Fin 0%Qc.
Definition one : num := Fin 1%Qc.

Definition add (a b : num) : num :=
  match a, b with
  | Fin x, Fin y => Fin (x + y)%Qc
  | _, _ => NonFinite
  end.

Definition sub (a b : num) : num :=
  match a, b with
  | Fin x, Fin y => Fin (x - y)%Qc
  | _, _ => NonFinite
  end.

Definition mul (a b : num) : num :=
  match a, b with
  | Fin x, Fin y => Fin (x * y)%Qc
  | _, _ => NonFinite
  end.

(** True division: a zero divisor gives nan or an infinity (and a
    RuntimeWarning), never an exception. *)
Definition div (a b : num) : num :=
  match a, b with
  | Fin x, Fin y => if Qc_eqb y 0%Qc then NonFinite else Fin (x / y)%Qc
  | _, _ => NonFinite
  end.

(** [x ** 2] *)
Definition square (a : num) : num := mul a a.

(** [x != 0]; nan and the infinities differ from 0. *)
Definition neq0 (a : num) : bool :=
  match a with
  | Fin x => negb (Qc_eqb x 0%Qc)
  | NonFinite => true
  end.

(** [a < b], the comparison [sorted] uses on keys; false as soon as nan is
    involved.  [NonFinite] is compared as nan is: the non-finite scores of
    [build_stoplist] are the nan of [0/0].  Python orders the infinities;
    the statements on order are about finite scores. *)
Definition ltb (a b : num) : bool :=
  match a, b with
  | Fin x, Fin y => Qc_ltb x y
  | _, _ => false
  end.

Definition is_finite (a : num) : bool :=
  match a with Fin _ => true | NonFinite => false end.

Section Arrays.
Context {A B C : Type}.

(** Element-wise combination of two arrays of the same shape. *)
Fixpoint map2 (f : A -> B -> C) (l1 : list A) (l2 : list B) : list C :=
  match l1, l2 with
  | a :: l1', b :: l2' => f a b :: map2 f l1' l2'
  | _, _ => []
  end.
End Arrays.

(** [m.sum(axis=0)] followed by [np.ravel]: the column sums of a matrix with
    at least one row (the vectorizer refuses an empty corpus). *)
Definition sum_axis0 {A : Type} (plus : A -> A -> A) (m : list (list A))
  : list A :=
  match m with
  | [] => []
  | r :: rs => fold_left (map2 plus) rs r
  end.

(** [v / n] for a vector [v] and a Python int [n]. *)
Definition div_scalar (v : list num) (n : nat) : list num :=
  map (fun s => div s (of_nat n)) v.

(** [dtm / n] for the integer matrix [dtm] and a Python int [n]. *)
Definition int_matrix_div_scalar (dtm : list (list nat)) (n : nat)
  : list (list num) :=
  map (fun row => map (fun c => div (of_nat c) (of_nat n)) row) dtm.

(** [dtm / column] where [column] has shape (N, 1): row [d] of [dtm] is
    divided by the only entry of row [d] of [column] (broadcasting). *)
Definition int_matrix_div_column (dtm : list (list nat))
  (column : list (list nat)) : list (list num) :=
  map2 (fun row lrow =>
          map (fun c => div (of_nat c) (of_nat (nth 0 lrow 0))) row)
       dtm column.

End Np.

Section Probabilities.

(** [numpy.log10] on finite positive arguments. *)
Variable np_log10 : Qc -> Qc.

(** [np.log10(x)]: [-inf] at 0, nan below. *)
Definition log10 (a : num) : num :=
  match a with
  | Fin x => if Np.Qc_ltb 0%Qc x then Fin (np_log10 x) else NonFinite
  | NonFinite => NonFinite
  end.

Definition _get_raw_lengths (texts : list string) : list nat :=
  map PyStr.split_len texts.

(** [np.array(raw_lengths).reshape(len, 1)] *)
Definition _get_length_array (raw_lengths : list nat) : list (list nat) :=
  map (fun n => [n]) raw_lengths.

Definition _get_probabilities (dtm : list (list nat))
  (length_array : list (list nat)) : list (list num) :=
  Np.int_matrix_div_column dtm length_array.

Definition _get_mean_probabilities (P : list (list num)) (N : nat)
  : list num :=
  let probability_sum := Np.sum_axis0 Np.add P in
  Np.div_scalar probability_sum N.

Definition _get_variance_probabilities (bP P : list (list num)) (N : nat)
  : list num :=
  let variance :=
    Np.map2 (Np.map2 (fun p b => Np.square (Np.sub p b))) P bP in
  let variance_sum := Np.sum_axis0 Np.add variance in
  Np.div_scalar variance_sum N.

Definition _get_entropies (P : list (list num)) : list num :=
  let logprobs :=
    map (map (fun p =>
                if Np.neq0 p then log10 (Np.div Np.one p) else Np.zero)) P in
  let ent := Np.map2 (Np.map2 Np.mul) P logprobs in
  Np.sum_axis0 Np.add ent.

End Probabilities.

(** ** Binary64

    [_get_entropies] once more, over IEEE 754 binary64 numbers: these are
    the primitive floats, whose sums, products and quotients are rounded as
    numpy rounds them. *)
Module Float64.

(** [x != 0]: nan differs from 0. *)
Definition neq0 (a : float) : bool := negb (PrimFloat.eqb a 0%float).

(** [m.sum(axis=0)] for a matrix of at least one row: numpy starts the sums
    at 0 and adds the rows to them one after the other.  (For a matrix of a
    single column and eight rows or more it adds in another order, by
    pairs; the statements leave that case out.) *)
Definition sum_axis0 (m : list (list float)) : list float :=
  match m with
  | [] => []
  | r :: _ =>
      fold_left (Np.map2 PrimFloat.add) m (map (fun _ => 0%float) r)
  end.

Section Entropies.

(** [numpy.log10] *)
Variable np_log10 : float -> float.

Definition _get_entropies (P : list (list float)) : list float :=
  let logprobs :=
    map (map (fun p =>
                if neq0 p then np_log10 (PrimFloat.div 1%float p)
                else 0%float)) P in
  let ent := Np.map2 (Np.map2 PrimFloat.mul) P logprobs in
  sum_axis0 ent.

(** One cell of the entropy: [P * log10(1/P)], with 0 for the logarithm
    where [P] is 0. *)
Definition entropy_cell (p : float) : float :=
  PrimFloat.mul p
    (if neq0 p then np_log10 (PrimFloat.div 1%float p) else 0%float).

End Entropies.

Definition column (j : nat) (m : list (list float)) : list float :=
  map (fun row => nth j row nan) m.

(** The sum of a sequence of floats as that loop computes it: each element
    is added, in turn, to the sum of those before it, which starts at 0. *)
Definition running_sum (l : list float) : float :=
  fold_left PrimFloat.add l 0%float.

End Float64.

(** ** Python built-ins: [sorted], slices, dictionaries, sets *)

Module Py.

Section Sorted.
Context {A K : Type}.
Variable key : A -> K.
Variable lt : K -> K -> bool.

(** [sorted(l, key=key, reverse=True)] is stable: elements with equal
    keys keep their order.  The element [x], which preceded every element
    of [l], goes before the first element whose key is not above its
    own. *)
Fixpoint insert_desc (x : A) (l : list A) : list A :=
  match l with
  | [] => [x]
  | y :: l' =>
      if lt (key x) (key y) then y :: insert_desc x l' else x :: y :: l'
  end.

Definition sorted_rev (l : list A) : list A :=
  fold_right insert_desc [] l.

(** [sorted(l, key=key)]: [x] goes before the first element whose key is
    below its own. *)
Fixpoint insert_asc (x : A) (l : list A) : list A :=
  match l with
  | [] => [x]
  | y :: l' =>
      if lt (key y) (key x) then y :: insert_asc x l' else x :: y :: l'
  end.

Definition sorted (l : list A) : list A :=
  fold_right insert_asc [] l.
End Sorted.

(** [sorted(stops)] on strings. *)
Definition sorted_str (l : list string) : list string :=
  sorted (fun s => s) String.ltb l.

(** [l[:size]] for a Python int [size]: a negative [size] counts from the
    end. *)
Definition slice_to {A : Type} (size : Z) (l : list A) : list A :=
  if (0 <=? size)%Z then firstn (Z.to_nat size) l
  else firstn (List.length l - Z.to_nat (- size)) l.

(** [enumerate(l)] *)
Definition enumerate {A : Type} (l : list A) : list (nat * A) :=
  combine (seq 0 (List.length l)) l.

(** [x in l] for a list of strings. *)
Definition mem (x : string) (l : list string) : bool :=
  existsb (String.eqb x) l.

(** A dictionary with string keys: the association list of its items in
    insertion order, one item per key. *)
Definition dict (V : Type) : Type := list (string * V).

Section Dict.
Context {V : Type}.

Fixpoint dict_mem (k : string) (d : dict V) : bool :=
  match d with
  | [] => false
  | (k', _) :: d' => String.eqb k k' || dict_mem k d'
  end.

(** [d[k]]; the callers look up keys that are present. *)
Fixpoint dict_get (dflt : V) (k : string) (d : dict V) : V :=
  match d with
  | [] => dflt
  | (k', v) :: d' => if String.eqb k k' then v else dict_get dflt k d'
  end.

(** [d[k] = v]: a present key keeps its place, a new key goes last. *)
Fixpoint dict_set (k : string) (v : V) (d : dict V) : dict V :=
  match d with
  | [] => [(k, v)]
  | (k', v') :: d' =>
      if String.eqb k k' then (k', v) :: d' else (k', v') :: dict_set k v d'
  end.

Definition dict_keys (d : dict V) : list string := map fst d.
End Dict.

(** A [set] of strings is known up to the order in which it is iterated,
    which depends on the hashes of its elements.  [set_iter l] is the
    iteration order of [set(l)]: some arrangement of the distinct elements
    of [l]. *)
Record SetOrder : Type := {
  set_iter : list string -> list string;
  set_iter_perm : forall l, Permutation (set_iter l) (nodup string_dec l)
}.

(** What [build_stoplist] can return: a list, or (entropy basis) a set,
    given by its elements in iteration order. *)
Inductive collection : Type :=
  | PyList (l : list string)
  | PySet (s : list string).

Definition elements (c : collection) : list string :=
  match c with PyList l => l | PySet s => s end.

End Py.

(** ** Ranking *)

Definition _combine_vocabulary (vocab : list string) (measure : list num)
  : list string :=
  let temp := combine vocab measure in
  let temp := Py.sorted_rev snd Np.ltb temp in
  map fst temp.

(** One turn of the inner loop of [_borda_sort]. *)
Definition borda_step (scores : Py.dict nat) (ie : nat * string)
  : Py.dict nat :=
  let '(idx, elem) := ie in
  let scores :=
    if negb (Py.dict_mem elem scores) then Py.dict_set elem 0 scores
    else scores in
  Py.dict_set elem (Py.dict_get 0 elem scores + idx) scores.

(** The dictionary [scores] when the loops of [_borda_sort] are over. *)
Definition borda_scores (lists : list (list string)) : Py.dict nat :=
  fold_left
    (fun scores l => fold_left borda_step (Py.enumerate (rev l)) scores)
    lists [].

Definition _borda_sort (lists : list (list string)) : list string :=
  let scores := borda_scores lists in
  Py.sorted_rev (fun elem => Py.dict_get 0 elem scores) Nat.ltb
    (Py.dict_keys scores).

(** ** The object and its methods *)

(** A vectorizer of sklearn: what matters of its state is the vocabulary
    learnt by the last [fit_transform], if any. *)
Record Vectorizer : Type := { vocabulary_ : option (list string) }.

(** [self]: the attribute [language] exists only when [__init__] received a
    non-empty language. *)
Record CorpusStoplist : Type := {
  language : option string;
  vectorizer : Vectorizer;
  tfidf_vectorizer : Vectorizer
}.

Definition with_vectorizer (self : CorpusStoplist) (v : Vectorizer)
  : CorpusStoplist :=
  {| language := language self;
     vectorizer := v;
     tfidf_vectorizer := tfidf_vectorizer self |}.

Definition with_tfidf_vectorizer (self : CorpusStoplist) (v : Vectorizer)
  : CorpusStoplist :=
  {| language := language self;
     vectorizer := vectorizer self;
     tfidf_vectorizer := v |}.

(** [self] once the two vectorizers have learnt their vocabularies. *)
Definition fitted (self : CorpusStoplist) (vocab tvocab : list string)
  : CorpusStoplist :=
  with_tfidf_vectorizer
    (with_vectorizer self {| vocabulary_ := Some vocab |})
    {| vocabulary_ := Some tvocab |}.

(** [Stoplist.__init__], as [CorpusStoplist.__init__] calls it. *)
Definition __init__ (lang : option string) : CorpusStoplist :=
  {| language :=
       match lang with
       | Some (String c s) => Some (PyStr.lower (String c s))
       | _ => None
       end;
     vectorizer := {| vocabulary_ := None |};
     tfidf_vectorizer := {| vocabulary_ := None |} |}.

(** Computations on [self] that may raise. *)
Definition Method (A : Type) : Type :=
  CorpusStoplist -> (exn + A) * CorpusStoplist.

Definition ret {A : Type} (a : A) : Method A := fun self => (inr a, self).

Definition raise {A : Type} (e : exn) : Method A := fun self => (inl e, self).

(** A computation that leaves [self] alone. *)
Definition lift {A : Type} (r : exn + A) : Method A := fun self => (r, self).

Definition bind {A B : Type} (m : Method A) (k : A -> Method B)
  : Method B :=
  fun self =>
    match m self with
    | (inl e, self') => (inl e, self')
    | (inr a, self') => k a self'
    end.

Notation "x <- m ;; k" := (bind m (fun x => k))
  (at level 61, m at next level, right associativity).
Notation "' p <- m ;; k" := (bind m (fun x => let p := x in k))
  (at level 61, p pattern, m at next level, right associativity).

(** [stops.extend(item for item in include if item not in stops)]: the
    generator is consumed while the list grows, so the test sees the items
    appended so far. *)
Definition extend_not_in (stops include : list string) : list string :=
  fold_left
    (fun stops item => if Py.mem item stops then stops else stops ++ [item])
    include stops.

(** [[item for item in stops if item not in exclude]] *)
Definition remove_excluded (stops exclude : list string) : list string :=
  filter (fun item => negb (Py.mem item exclude)) stops.

Definition unsupported_message (basis : string) : string :=
  "Basis '" ++ basis ++ "' not supported.".

(** The errors Python raises for an attribute that is not there. *)
Definition no_language : exn :=
  AttributeError "'CorpusStoplist' object has no attribute 'language'".

Definition no_extend : exn :=
  AttributeError "'set' object has no attribute 'extend'".

(** The measures of the single bases, as [build_stoplist] computes them. *)
Definition frequency_measure (dtm : list (list nat)) : list num :=
  map Np.of_nat (Np.sum_axis0 Nat.add dtm).

Definition tfidf_measure (tfidf : list (list num)) : list num :=
  Np.sum_axis0 Np.add tfidf.

Definition background_probabilities (dtm : list (list nat))
  (raw_lengths : list nat) : list (list num) :=
  Np.int_matrix_div_scalar dtm (list_sum raw_lengths).

(** The preprocessing at the head of [build_stoplist]. *)
Definition preprocess (lower remove_punctuation remove_numbers : bool)
  (texts : list string) : list string :=
  let texts := if lower then map PyStr.lower texts else texts in
  let texts :=
    if remove_punctuation
    then map (PyStr.translate_to_space punctuation) texts else texts in
  let texts :=
    if remove_numbers
    then map (PyStr.translate_to_space digits) texts else texts in
  texts.

Section Build.

Variable np_log10 : Qc -> Qc.
Variable set_order : Py.SetOrder.

(** [CountVectorizer.fit_transform(texts).toarray()] with the feature
    names, and the same for [TfidfVectorizer]; either may raise. *)
Variable sk_count :
  list string -> exn + (list (list nat) * list string).
Variable sk_tfidf :
  list string -> exn + (list (list Qc) * list string).

Definition get_language : Method string :=
  fun self =>
    match language self with
    | Some l => ret l self
    | None => raise no_language self
    end.

Definition count_fit_transform (texts : list string)
  : Method (list (list nat)) :=
  fun self =>
    match sk_count texts with
    | inl e => raise e self
    | inr (dtm, vocab) =>
        ret dtm (with_vectorizer self {| vocabulary_ := Some vocab |})
    end.

Definition count_get_feature_names : Method (list string) :=
  fun self =>
    match vocabulary_ (vectorizer self) with
    | Some vocab => ret vocab self
    | None => raise (NotFittedError "Vocabulary not fitted or provided") self
    end.

Definition tfidf_fit_transform (texts : list string)
  : Method (list (list num)) :=
  fun self =>
    match sk_tfidf texts with
    | inl e => raise e self
    | inr (tfidf, vocab) =>
        ret (map (map Fin) tfidf)
          (with_tfidf_vectorizer self {| vocabulary_ := Some vocab |})
    end.

Definition tfidf_get_feature_names : Method (list string) :=
  fun self =>
    match vocabulary_ (tfidf_vectorizer self) with
    | Some vocab => ret vocab self
    | None => raise (NotFittedError "Vocabulary not fitted or provided") self
    end.

Definition _make_dtm_vocab (texts : list string)
  : Method (list (list nat) * list string) :=
  dtm <- count_fit_transform texts ;;
  vocab <- count_get_feature_names ;;
  ret (dtm, vocab).

Definition _make_tfidf_vocab (texts : list string)
  : Method (list (list num) * list string) :=
  tfidf <- tfidf_fit_transform texts ;;
  vocab <- tfidf_get_feature_names ;;
  ret (tfidf, vocab).

(** The [if]/[elif] chain on [basis]; it does not touch [self]. *)
Definition select_basis (basis : string) (size : Z)
  (dtm : list (list nat)) (tfidf : list (list num)) (vocab : list string)
  (raw_lengths : list nat) (P : list (list num)) (N : nat)
  : exn + Py.collection :=
  if (basis =? "frequency")%string then
    let freq := frequency_measure dtm in
    let freq_list := Py.slice_to size (_combine_vocabulary vocab freq) in
    inr (Py.PyList freq_list)
  else if (basis =? "tfidf")%string then
    let tfidf := tfidf_measure tfidf in
    let tfidf_list := Py.slice_to size (_combine_vocabulary vocab tfidf) in
    inr (Py.PyList tfidf_list)
  else if (basis =? "mean")%string then
    let MP := _get_mean_probabilities P N in
    let mp_list := Py.slice_to size (_combine_vocabulary vocab MP) in
    inr (Py.PyList mp_list)
  else if (basis =? "variance")%string then
    let bP := background_probabilities dtm raw_lengths in
    let VP := _get_variance_probabilities bP P N in
    let vp_list := Py.slice_to size (_combine_vocabulary vocab VP) in
    inr (Py.PyList vp_list)
  else if (basis =? "entropy")%string then
    let ent := _get_entropies np_log10 P in
    let ent_list := Py.slice_to size (_combine_vocabulary vocab ent) in
    inr (Py.PySet (Py.set_iter set_order ent_list))
  else if (basis =? "zou")%string then
    let MP := _get_mean_probabilities P N in
    let mp_list := _combine_vocabulary vocab MP in
    let bP := background_probabilities dtm raw_lengths in
    let VP := _get_variance_probabilities bP P N in
    let vp_list := _combine_vocabulary vocab VP in
    let ent := _get_entropies np_log10 P in
    let ent_list := _combine_vocabulary vocab ent in
    let lists := [mp_list; vp_list; ent_list] in
    inr (Py.PyList (Py.slice_to size (_borda_sort lists)))
  else
    inl (ValueError (unsupported_message basis)).

(** The tail of [build_stoplist]: exclusion, inclusion, sorting. *)
Definition assemble (stops : Py.collection) (sort_words : bool)
  (include exclude : list string) : exn + Py.collection :=
  let stops :=
    match exclude with
    | [] => stops
    | _ :: _ => Py.PyList (remove_excluded (Py.elements stops) exclude)
    end in
  let extended :=
    match include with
    | [] => inr stops
    | _ :: _ =>
        match stops with
        | Py.PyList l => inr (Py.PyList (extend_not_in l include))
        | Py.PySet _ => inl no_extend
        end
    end in
  match extended with
  | inl e => inl e
  | inr stops =>
      if sort_words then inr (Py.PyList (Py.sorted_str (Py.elements stops)))
      else inr stops
  end.

Definition build_stoplist (texts : list string) (basis : string)
  (size : Z) (sort_words inc_counts lower remove_punctuation
              remove_numbers : bool)
  (include exclude : list string) : Method Py.collection :=
  _ <- get_language ;;
  let texts := preprocess lower remove_punctuation remove_numbers texts in
  '(dtm, vocab) <- _make_dtm_vocab texts ;;
  '(tfidf, _) <- _make_tfidf_vocab texts ;;
  let M := List.length vocab in
  let N := List.length texts in
  let raw_lengths := _get_raw_lengths texts in
  let l := _get_length_array raw_lengths in
  let P := _get_probabilities dtm l in
  stops <- lift (select_basis basis size dtm tfidf vocab raw_lengths P N) ;;
  lift (assemble stops sort_words include exclude).

End Build.

(** ** Vocabulary of the statements *)

Definition supported_bases : list string :=
  ["frequency"; "tfidf"; "mean"; "variance"; "entropy"; "zou"].

(** The positional score of [t] in one ranked list: every rank at which [t]
    stands contributes its distance from the end of the list, which is the
    number of terms after it. *)
Fixpoint positional_score (l : list string) (t : string) : nat :=
  match l with
  | [] => 0
  | x :: l' =>
      (if String.eqb x t then List.length l' else 0) + positional_score l' t
  end.

(** The accumulated score of [t] across the lists. *)
Definition borda_total (lists : list (list string)) (t : string) : nat :=
  list_sum (map (fun l => positional_score l t) lists).

(** The distinct elements of [l], in the order of their first occurrence. *)
Fixpoint first_occurrences (l : list string) : list string :=
  match l with
  | [] => []
  | x :: l' =>
      x :: filter (fun y => negb (String.eqb y x)) (first_occurrences l')
  end.

(** The order in which [_borda_sort] meets the terms: it walks each list
    from its end. *)
Definition first_encountered (lists : list (list string)) : list string :=
  first_occurrences (List.concat (map (@rev string) lists)).

(** [s] stands before [t] in a ranking that descends by [score]. *)
Definition descends_by {V : Type} (le : V -> V -> Prop)
  (score : string -> V) (s t : string) : Prop :=
  le (score t) (score s).

Fixpoint assoc {V : Type} (k : string) (l : list (string * V)) : option V :=
  match l with
  | [] => None
  | (k', v) :: l' => if String.eqb k k' then Some v else assoc k l'
  end.

(** The score that [measure] gives to the term [t] of [vocab]. *)
Definition term_score (vocab : list string) (measure : list num)
  (t : string) : option num :=
  assoc t (combine vocab measure).

(** Order on scores: both are finite numbers, the left one is not above the
    right one. *)
Definition score_le (a b : option num) : Prop :=
  exists x y, a = Some (Fin x) /\ b = Some (Fin y) /\ (x <= y)%Qc.

(** The measure a single basis ranks by. *)
Definition single_basis_measure (basis : string) (dtm : list (list nat))
  (tfidf : list (list num)) (raw_lengths : list nat) (N : nat)
  : option (list num) :=
  let P := _get_probabilities dtm (_get_length_array raw_lengths) in
  if (basis =? "frequency")%string then Some (frequency_measure dtm)
  else if (basis =? "tfidf")%string then Some (tfidf_measure tfidf)
  else if (basis =? "mean")%string then Some (_get_mean_probabilities P N)
  else if (basis =? "variance")%string then
    Some (_get_variance_probabilities
            (background_probabilities dtm raw_lengths) P N)
  else None.

(** One cell of the entropy: [P * log10(1/P)], and 0 where [P] is 0. *)
Definition entropy_cell (np_log10 : Qc -> Qc) (p : num) : num :=
  if Np.neq0 p then Np.mul p (log10 np_log10 (Np.div Np.one p))
  else Np.zero.

Definition column (j : nat) (m : list (list num)) : list num :=
  map (fun row => nth j row NonFinite) m.

Definition num_sum (l : list num) : num := fold_right Np.add Np.zero l.

(** A matrix with [M] columns. *)
Definition rectangular {A : Type} (M : nat) (m : list (list A)) : Prop :=
  Forall (fun row => List.length row = M) m.

(** ** A small corpus *)

Module Demo.

(** Iteration in insertion order is one of the orders a set can have;
    iteration in the reverse order is another. *)
Definition insertion_order : Py.SetOrder :=
  {| Py.set_iter := nodup string_dec;
     Py.set_iter_perm := fun l => Permutation_refl _ |}.

Definition reverse_order : Py.SetOrder :=
  {| Py.set_iter := fun l => rev (nodup string_dec l);
     Py.set_iter_perm := fun l => Permutation_sym (Permutation_rev _) |}.

Definition q (a : Z) (b : positive) : Qc := Q2Qc (a # b).

(** [numpy.log10], rounded to three places, at the arguments that occur
    for the corpora below: 2, 3 and 6. *)
Definition log10_table (x : Qc) : Qc :=
  if Np.Qc_eqb x (q 2 1) then q 301 1000
  else if Np.Qc_eqb x (q 3 1) then q 477 1000
  else if Np.Qc_eqb x (q 6 1) then q 778 1000
  else q 0 1.

Definition empty_vocabulary : exn :=
  ValueError
    "empty vocabulary; perhaps the documents only contain stop words".

(** The corpus ["aa cc aa bb cc cc"; "bb cc bb cc"], of 6 and 4 tokens:
    what the vectorizers return for it (the tf-idf weights rounded to three
    places), and their refusal of a corpus without any word.  The scores of
    the three terms differ under every basis, so that rounding does not
    change a ranking. *)
Definition corpus : list string := ["aa cc aa bb cc cc"; "bb cc bb cc"].

Definition all_blank (texts : list string) : bool :=
  forallb (fun t => Nat.eqb (PyStr.split_len t) 0) texts.

Definition vocab : list string := ["aa"; "bb"; "cc"].

Definition dtm : list (list nat) := [[2; 1; 3]; [0; 2; 2]].

Definition tfidf : list (list Qc) :=
  [[q 664 1000; q 236 1000; q 709 1000]; [q 0 1; q 707 1000; q 707 1000]].

Definition sk_count (texts : list string)
  : exn + (list (list nat) * list string) :=
  if all_blank texts then inl empty_vocabulary else inr (dtm, vocab).

Definition sk_tfidf (texts : list string)
  : exn + (list (list Qc) * list string) :=
  if all_blank texts then inl empty_vocabulary else inr (tfidf, vocab).

(** The corpus ["aa bb"; ""], whose second document has no token. *)
Definition corpus_blank : list string := ["aa bb"; ""].

Definition vocab_blank : list string := ["aa"; "bb"].

Definition dtm_blank : list (list nat) := [[1; 1]; [0; 0]].

Definition tfidf_blank : list (list Qc) :=
  [[q 707 1000; q 707 1000]; [q 0 1; q 0 1]].

Definition sk_count_blank (texts : list string)
  : exn + (list (list nat) * list string) :=
  if all_blank texts then inl empty_vocabulary
  else inr (dtm_blank, vocab_blank).

Definition sk_tfidf_blank (texts : list string)
  : exn + (list (list Qc) * list string) :=
  if all_blank texts then inl empty_vocabulary
  else inr (tfidf_blank, vocab_blank).

Definition self : CorpusStoplist := __init__ (Some "latin").

(** [self] once both vectorizers have learnt the vocabulary [v]. *)
Definition fitted_self (v : list string) : CorpusStoplist :=
  {| language := Some "latin";
     vectorizer := {| vocabulary_ := Some v |};
     tfidf_vectorizer := {| vocabulary_ := Some v |} |}.

Definition build :=
  build_stoplist log10_table insertion_order sk_count sk_tfidf.

Definition build_blank :=
  build_stoplist log10_table insertion_order sk_count_blank sk_tfidf_blank.

(** Six documents in which each of two terms has probability 0.1, as a
    term that occurs once among ten tokens has: [1/0.1] is 10 and its
    [log10] is 1, so that each cell of the entropy is 0.1 again. *)
Definition tenth : float := 0x1.999999999999ap-4%float.

Definition six_documents : list (list float) := repeat [tenth; tenth] 6.

(** [numpy.log10] at the argument that occurs for these documents. *)
Definition log10_at_ten (x : float) : float :=
  if PrimFloat.eqb x 10%float then 1%float else 0%float.

End Demo.

(** ** Single texts: [StringStoplist] *)

Module Tokens.

(** Whether [s] starts inside a token: its first character is not blank. *)
Definition starts_token (s : string) : bool :=
  match s with
  | EmptyString => false
  | String c _ => negb (PyStr.is_space c)
  end.

(** [s.split()]: the maximal runs of non-blank characters, in order. *)
Fixpoint split (s : string) : list string :=
  match s with
  | EmptyString => []
  | String c s' =>
      if PyStr.is_space c then split s'
      else if starts_token s' then
        match split s' with
        | t :: ts => String c t :: ts
        | [] => [String c EmptyString]
        end
      else String c EmptyString :: split s'
  end.

End Tokens.

(** The preprocessing of one text, as both [build_stoplist] methods apply
    it. *)
Definition preprocess_text (lower remove_punctuation remove_numbers : bool)
  (text : string) : string :=
  let text := if lower then PyStr.lower text else text in
  let text :=
    if remove_punctuation
    then PyStr.translate_to_space punctuation text else text in
  let text :=
    if remove_numbers then PyStr.translate_to_space digits text else text in
  text.

Module StringStoplist.

(** What the method returns: the words, or with [inc_counts] the pairs of
    a word and its count. *)
Inductive result : Type :=
  | Words (l : list string)
  | Counts (l : list (string * nat)).

(** [Counter(tokens)]: each token is counted where it first occurred. *)
Definition Counter (tokens : list string) : Py.dict nat :=
  fold_left
    (fun c elem => Py.dict_set elem (Py.dict_get 0 elem c + 1) c)
    tokens [].

(** [c.most_common(n)], which is [heapq.nlargest(n, c.items(), key=count)]:
    the first [n] items of the stable descending sort, none when [n] is not
    positive. *)
Definition most_common (n : Z) (c : Py.dict nat) : list (string * nat) :=
  firstn (Z.to_nat n) (Py.sorted_rev snd Nat.ltb c).

Definition no_keys : exn :=
  AttributeError "'list' object has no attribute 'keys'".

(** [StringStoplist.build_stoplist].  [self.language], which [__init__]
    always sets, is read and not used. *)
Definition build_stoplist (text : string) (size : Z)
  (sort_words inc_counts lower remove_punctuation remove_numbers : bool)
  (include exclude : list string) : exn + result :=
  let text := preprocess_text lower remove_punctuation remove_numbers text in
  let text := Tokens.split text in
  let c := Counter text in
  let stops := most_common size c in
  let stops :=
    if sort_words then Py.sorted fst String.ltb stops else stops in
  let stops :=
    match exclude with
    | [] => stops
    | _ :: _ => filter (fun item => negb (Py.mem (fst item) exclude)) stops
    end in
  match include with
  | _ :: _ => inl no_keys
  | [] => if inc_counts then inr (Counts stops) else inr (Words (map fst stops))
  end.

End StringStoplist.

(** The characters of a string. *)
Definition chars (s : string) : list ascii := list_ascii_of_string s.

(** A text without blank characters only. *)
Definition blank (s : string) : Prop :=
  forall c, In c (chars s) -> PyStr.is_space c = true.

(** A score that, when it is a number, is not negative. *)
Definition not_negative (x : num) : Prop :=
  match x with
  | Fin q => (0 <= q)%Qc
  | NonFinite => True
  end.

Definition nat_column (j : nat) (m : list (list nat)) : list nat :=
  map (fun row => nth j row 0) m.

(** The term [t] of [vocab] has the score [x] in [measure]. *)
Definition scored (vocab : list string) (measure : list num) (x : Qc)
  (t : string) : bool :=
  match term_score vocab measure t with
  | Some (Fin q) => Np.Qc_eqb q x
  | _ => false
  end.

(** [s] stands above [t] in the ranking [l]. *)
Definition ranks_above (l : list string) (s t : string) : Prop :=
  exists i j, i < j /\ nth_error l i = Some s /\ nth_error l j = Some t.

(** How often the word [w] occurs among [tokens]. *)
Definition occurrences (w : string) (tokens : list string) : nat :=
  count_occ string_dec tokens w.

(** The tokens that [StringStoplist.build_stoplist] counts. *)
Definition tokens_of (lower remove_punctuation remove_numbers : bool)
  (text : string) : list string :=
  Tokens.split (preprocess_text lower remove_punctuation remove_numbers text).

Module DemoText.

(** A text of ten tokens once it is put in lower case and rid of its
    punctuation and numbers; its three most frequent words, with their
    counts. *)
Definition text : string := "The cat, the dog and THE bird; a cat 42.".

Definition top3 : list (string * nat) := [("the", 3); ("cat", 2); ("dog", 1)].

End DemoText.

(** * Proofs *)

(** ** Facts on [sorted] *)

Section SortedFacts.
Context {A K : Type}.
Variable key : A -> K.
Variable lt : K -> K -> bool.

Lemma insert_desc_perm (x : A) (l : list A) :
  Permutation (Py.insert_desc key lt x l) (x :: l).
Proof.
  induction l as [|y l IH]; simpl.
  - apply Permutation_refl.
  - destruct (lt (key x) (key y)).
    + rewrite IH. apply perm_swap.
    + apply Permutation_refl.
Qed.

Lemma sorted_rev_perm (l : list A) :
  Permutation (Py.sorted_rev key lt l) l.
Proof.
  induction l as [|x l IH]; simpl.
  - constructor.
  - rewrite insert_desc_perm. now constructor.
Qed.

Lemma sorted_rev_in (l : list A) (a : A) :
  In a (Py.sorted_rev key lt l) <-> In a l.
Proof.
  split; apply Permutation_in;
    [apply sorted_rev_perm | apply Permutation_sym, sorted_rev_perm].
Qed.

Lemma sorted_rev_length (l : list A) :
  List.length (Py.sorted_rev key lt l) = List.length l.
Proof. apply Permutation_length, sorted_rev_perm. Qed.

(** [sorted(l, key=key)] is [sorted(l, key=key, reverse=True)] for the
    converse comparison. *)
Lemma sorted_as_sorted_rev (l : list A) :
  Py.sorted key lt l = Py.sorted_rev key (fun a b => lt b a) l.
Proof.
  induction l as [|x l IH]; simpl; [reflexivity|].
  rewrite IH. generalize (Py.sorted_rev key (fun a b => lt b a) l).
  intro m. induction m as [|y m IHm]; simpl; [reflexivity|].
  now rewrite IHm.
Qed.

(** Sortedness, for elements in a class [good] on which the comparison
    behaves as an order [R]. *)
Section Order.
Variable good : A -> Prop.
Variable R : A -> A -> Prop.
Hypothesis lt_true :
  forall x y, good x -> good y -> lt (key x) (key y) = true -> R y x.
Hypothesis lt_false :
  forall x y, good x -> good y -> lt (key x) (key y) = false -> R x y.
Hypothesis R_trans :
  forall x y z, good x -> good y -> good z -> R x y -> R y z -> R x z.

Lemma insert_desc_sorted (x : A) (l : list A) :
  good x -> Forall good l -> StronglySorted R l ->
  StronglySorted R (Py.insert_desc key lt x l).
Proof.
  intros Hx Hl Hs. induction l as [|y l IH]; simpl.
  - repeat constructor.
  - apply StronglySorted_inv in Hs. destruct Hs as [Hs Hy].
    inversion Hl as [|? ? Hgy Hgl]; subst.
    destruct (lt (key x) (key y)) eqn:E.
    + constructor; [now apply IH|].
      apply Forall_forall. intros z Hz.
      apply (Permutation_in _ (insert_desc_perm x l)) in Hz.
      destruct Hz as [<-|Hz]; [now apply lt_true|].
      now apply (proj1 (Forall_forall _ _) Hy).
    + constructor; [now constructor|].
      constructor; [now apply lt_false|].
      apply Forall_forall. intros z Hz.
      apply R_trans with y; auto.
      * now apply (proj1 (Forall_forall _ _) Hgl).
      * now apply (proj1 (Forall_forall _ _) Hy).
Qed.

Lemma sorted_rev_sorted (l : list A) :
  Forall good l -> StronglySorted R (Py.sorted_rev key lt l).
Proof.
  induction 1 as [|x l Hx Hl IH]; simpl; [constructor|].
  apply insert_desc_sorted; auto.
  apply Forall_forall. intros z Hz.
  apply (proj1 (sorted_rev_in l z)) in Hz.
  now apply (proj1 (Forall_forall _ _) Hl).
Qed.
End Order.

(** Stability: elements that the comparison does not separate keep their
    order. *)
Section Stability.
Variable p : A -> bool.
Hypothesis p_tied :
  forall x y, p x = true -> p y = true -> lt (key x) (key y) = false.

Lemma insert_desc_filter (x : A) (l : list A) :
  filter p (Py.insert_desc key lt x l) = filter p (x :: l).
Proof.
  induction l as [|y l IH]; [reflexivity|].
  cbn [Py.insert_desc]. destruct (lt (key x) (key y)) eqn:E.
  - cbn [filter] in *. rewrite IH.
    destruct (p x) eqn:Px, (p y) eqn:Py; try reflexivity.
    rewrite (p_tied x y Px Py) in E. discriminate.
  - reflexivity.
Qed.

Lemma sorted_rev_filter (l : list A) :
  filter p (Py.sorted_rev key lt l) = filter p l.
Proof.
  induction l as [|x l IH]; [reflexivity|].
  cbn [Py.sorted_rev fold_right]. rewrite insert_desc_filter.
  cbn [filter]. fold (Py.sorted_rev key lt l). now rewrite IH.
Qed.
End Stability.
End SortedFacts.

Lemma StronglySorted_filter {A : Type} (R : A -> A -> Prop) (p : A -> bool)
  (l : list A) :
  StronglySorted R l -> StronglySorted R (filter p l).
Proof.
  induction 1 as [|x l Hs IH Hx]; simpl; [constructor|].
  destruct (p x); [|exact IH].
  constructor; [exact IH|].
  apply Forall_forall. intros z Hz. apply filter_In in Hz.
  now apply (proj1 (Forall_forall _ _) Hx).
Qed.

Lemma In_firstn {A : Type} (n : nat) (l : list A) (x : A) :
  In x (firstn n l) -> In x l.
Proof.
  intros H. rewrite <- (firstn_skipn n l). apply in_or_app. now left.
Qed.

Lemma StronglySorted_firstn {A : Type} (R : A -> A -> Prop) (n : nat)
  (l : list A) :
  StronglySorted R l -> StronglySorted R (firstn n l).
Proof.
  intros Hs. revert n. induction Hs as [|x l Hs IH Hx]; intros [|n]; simpl;
    try constructor; auto.
  apply Forall_forall. intros z Hz. apply In_firstn in Hz.
  now apply (proj1 (Forall_forall _ _) Hx).
Qed.

Lemma StronglySorted_map {A B : Type} (R : A -> A -> Prop)
  (R' : B -> B -> Prop) (f : A -> B) (l : list A) :
  (forall x y, In x l -> In y l -> R x y -> R' (f x) (f y)) ->
  StronglySorted R l -> StronglySorted R' (map f l).
Proof.
  intros Hf Hs. induction Hs as [|x l Hs IH Hx]; simpl; constructor.
  - apply IH. intros a b Ha Hb. apply Hf; now right.
  - apply Forall_forall. intros z Hz. apply in_map_iff in Hz.
    destruct Hz as (a & <- & Ha). apply Hf; [now left | now right|].
    now apply (proj1 (Forall_forall _ _) Hx).
Qed.

(** ** Facts on dictionaries *)

Lemma mem_In (x : string) (l : list string) :
  Py.mem x l = true <-> In x l.
Proof.
  unfold Py.mem. rewrite existsb_exists. split.
  - intros (y & Hy & E). apply String.eqb_eq in E. now subst.
  - intros H. exists x. split; [exact H | apply String.eqb_refl].
Qed.

Lemma mem_not_In (x : string) (l : list string) :
  Py.mem x l = false <-> ~ In x l.
Proof.
  rewrite <- mem_In. destruct (Py.mem x l); split; congruence.
Qed.

Lemma mem_app (x : string) (l l' : list string) :
  Py.mem x (l ++ l') = Py.mem x l || Py.mem x l'.
Proof. unfold Py.mem. apply existsb_app. Qed.

Section DictFacts.
Context {V : Type}.
Implicit Types (d : Py.dict V) (k : string) (v : V).

Lemma dict_mem_keys k d : Py.dict_mem k d = Py.mem k (Py.dict_keys d).
Proof.
  induction d as [|[k' v'] d IH]; simpl; [reflexivity|]. now rewrite IH.
Qed.

Lemma dict_keys_set k v d :
  Py.dict_keys (Py.dict_set k v d) =
  if Py.dict_mem k d then Py.dict_keys d else Py.dict_keys d ++ [k].
Proof.
  unfold Py.dict_keys.
  induction d as [|[k' v'] d IH]; simpl; [reflexivity|].
  destruct (String.eqb k k') eqn:E; simpl; [reflexivity|].
  rewrite IH. now destruct (Py.dict_mem k d).
Qed.

Lemma dict_get_set dflt k k' v d :
  Py.dict_get dflt k' (Py.dict_set k v d) =
  if String.eqb k' k then v else Py.dict_get dflt k' d.
Proof.
  induction d as [|[k0 v0] d IH]; simpl; [reflexivity|].
  destruct (String.eqb k k0) eqn:E; simpl.
  - apply String.eqb_eq in E. subst k0. now destruct (String.eqb k' k).
  - rewrite IH. destruct (String.eqb k' k0) eqn:E0; [|reflexivity].
    apply String.eqb_eq in E0. subst k0.
    now rewrite String.eqb_sym, E.
Qed.

Lemma dict_get_absent dflt k d :
  Py.dict_mem k d = false -> Py.dict_get dflt k d = dflt.
Proof.
  induction d as [|[k0 v0] d IH]; simpl; [reflexivity|].
  destruct (String.eqb k k0); simpl; [discriminate | exact IH].
Qed.
End DictFacts.

(** ** The loops of [_borda_sort] *)

Lemma borda_step_keys (d : Py.dict nat) (i : nat) (e : string) :
  Py.dict_keys (borda_step d (i, e)) = extend_not_in (Py.dict_keys d) [e].
Proof.
  unfold borda_step, extend_not_in. simpl.
  rewrite dict_keys_set, <- dict_mem_keys.
  destruct (Py.dict_mem e d) eqn:E; simpl.
  - now rewrite E.
  - rewrite !dict_mem_keys, dict_keys_set, E, mem_app.
    replace (Py.mem e [e]) with true; [now rewrite orb_true_r|].
    simpl. now rewrite String.eqb_refl.
Qed.

Lemma borda_step_get (d : Py.dict nat) (i : nat) (e t : string) :
  Py.dict_get 0 t (borda_step d (i, e)) =
  Py.dict_get 0 t d + (if String.eqb e t then i else 0).
Proof.
  unfold borda_step. rewrite dict_get_set, (String.eqb_sym t e).
  destruct (String.eqb e t) eqn:E.
  - apply String.eqb_eq in E. subst t.
    destruct (Py.dict_mem e d) eqn:M; simpl; [reflexivity|].
    now rewrite dict_get_set, String.eqb_refl, (dict_get_absent 0 e d M).
  - destruct (Py.dict_mem e d); simpl; [lia|].
    rewrite dict_get_set, (String.eqb_sym t e), E. lia.
Qed.

Lemma enumerate_snoc {A : Type} (l : list A) (x : A) :
  Py.enumerate (l ++ [x]) = Py.enumerate l ++ [(List.length l, x)].
Proof.
  unfold Py.enumerate. rewrite length_app. simpl.
  rewrite Nat.add_1_r, seq_S.
  change (List.length l, x) with (0 + List.length l, x).
  generalize 0 as s. induction l as [|y l IH]; intro s; simpl.
  - now rewrite Nat.add_0_r.
  - rewrite <- Nat.add_succ_comm. now rewrite IH.
Qed.

Lemma extend_not_in_app (acc l l' : list string) :
  extend_not_in acc (l ++ l') = extend_not_in (extend_not_in acc l) l'.
Proof. unfold extend_not_in. apply fold_left_app. Qed.

Lemma inner_loop_keys (l : list string) (d : Py.dict nat) :
  Py.dict_keys (fold_left borda_step (Py.enumerate (rev l)) d) =
  extend_not_in (Py.dict_keys d) (rev l).
Proof.
  induction l as [|x l IH]; [reflexivity|].
  simpl rev. rewrite enumerate_snoc, fold_left_app, extend_not_in_app.
  cbn [fold_left]. now rewrite borda_step_keys, IH.
Qed.

Lemma inner_loop_get (l : list string) (d : Py.dict nat) (t : string) :
  Py.dict_get 0 t (fold_left borda_step (Py.enumerate (rev l)) d) =
  Py.dict_get 0 t d + positional_score l t.
Proof.
  induction l as [|x l IH]; [simpl; lia|].
  simpl rev. rewrite enumerate_snoc, fold_left_app.
  cbn [fold_left]. rewrite borda_step_get, IH, length_rev.
  simpl. lia.
Qed.

Lemma outer_loop_keys (lists : list (list string)) (d : Py.dict nat) :
  Py.dict_keys
    (fold_left
       (fun scores l => fold_left borda_step (Py.enumerate (rev l)) scores)
       lists d) =
  extend_not_in (Py.dict_keys d) (List.concat (map (@rev string) lists)).
Proof.
  revert d. induction lists as [|l lists IH]; intro d; [reflexivity|].
  simpl. now rewrite IH, inner_loop_keys, extend_not_in_app.
Qed.

Lemma outer_loop_get (lists : list (list string)) (d : Py.dict nat)
  (t : string) :
  Py.dict_get 0 t
    (fold_left
       (fun scores l => fold_left borda_step (Py.enumerate (rev l)) scores)
       lists d) =
  Py.dict_get 0 t d + borda_total lists t.
Proof.
  revert d. induction lists as [|l lists IH]; intro d.
  - unfold borda_total. simpl. lia.
  - simpl. rewrite IH, inner_loop_get. unfold borda_total. simpl. lia.
Qed.

(** Appending what is absent, one item at a time, lists first
    occurrences. *)
Lemma filter_neq_absent (p : string -> bool) (x : string) (l : list string) :
  p x = false ->
  filter p (filter (fun y => negb (String.eqb y x)) l) = filter p l.
Proof.
  intros Hx. induction l as [|y l IH]; simpl; [reflexivity|].
  destruct (String.eqb y x) eqn:E; simpl.
  - apply String.eqb_eq in E. subst y. now rewrite Hx.
  - now rewrite IH.
Qed.

Lemma filter_comm {A : Type} (p q : A -> bool) (l : list A) :
  filter p (filter q l) = filter q (filter p l).
Proof.
  induction l as [|y l IH]; simpl; [reflexivity|].
  destruct (p y) eqn:P, (q y) eqn:Q; simpl; rewrite ?P, ?Q, IH; reflexivity.
Qed.

Lemma first_occurrences_filter (p : string -> bool) (l : list string) :
  first_occurrences (filter p l) = filter p (first_occurrences l).
Proof.
  induction l as [|x l IH]; simpl; [reflexivity|].
  destruct (p x) eqn:E; simpl.
  - now rewrite IH, filter_comm.
  - now rewrite IH, filter_neq_absent.
Qed.

Lemma extend_not_in_spec (acc l : list string) :
  extend_not_in acc l =
  acc ++ first_occurrences (filter (fun y => negb (Py.mem y acc)) l).
Proof.
  revert acc. induction l as [|x l IH]; intro acc.
  - simpl. now rewrite app_nil_r.
  - change (extend_not_in acc (x :: l))
      with (extend_not_in (if Py.mem x acc then acc else acc ++ [x]) l).
    simpl filter. destruct (Py.mem x acc) eqn:E; simpl.
    + apply IH.
    + rewrite IH, <- app_assoc. simpl. do 2 f_equal.
      rewrite <- first_occurrences_filter. f_equal.
      clear IH E. induction l as [|y l IH]; simpl; [reflexivity|].
      rewrite mem_app. simpl. rewrite orb_false_r.
      destruct (Py.mem y acc); simpl; [exact IH|].
      destruct (String.eqb y x); simpl; now rewrite IH.
Qed.

Lemma borda_scores_keys (lists : list (list string)) :
  Py.dict_keys (borda_scores lists) = first_encountered lists.
Proof.
  unfold borda_scores, first_encountered.
  rewrite outer_loop_keys, extend_not_in_spec. simpl.
  f_equal. erewrite filter_ext; [apply filter_true|]. reflexivity.
Qed.

Lemma borda_scores_get (lists : list (list string)) (t : string) :
  Py.dict_get 0 t (borda_scores lists) = borda_total lists t.
Proof. unfold borda_scores. now rewrite outer_loop_get. Qed.

Lemma first_occurrences_In (l : list string) (t : string) :
  In t (first_occurrences l) <-> In t l.
Proof.
  induction l as [|x l IH]; simpl; [tauto|].
  rewrite filter_In, IH, negb_true_iff, String.eqb_neq.
  destruct (string_dec x t) as [->|N]; [tauto|].
  split; [tauto|]. intros [H|H]; [tauto|]. right. split; congruence.
Qed.

Lemma first_encountered_In (lists : list (list string)) (t : string) :
  In t (first_encountered lists) <-> exists l, In l lists /\ In t l.
Proof.
  unfold first_encountered. rewrite first_occurrences_In, in_concat.
  split.
  - intros (r & Hr & Ht). apply in_map_iff in Hr.
    destruct Hr as (l & <- & Hl). exists l. split; [exact Hl|].
    now apply in_rev.
  - intros (l & Hl & Ht). exists (rev l). split; [now apply in_map|].
    now apply in_rev in Ht.
Qed.

Example borda_three_lists :
  _borda_sort [["a"; "b"; "c"]; ["b"; "a"; "c"]; ["a"; "c"; "b"]]
  = ["a"; "b"; "c"].
Proof. reflexivity. Qed.

(** A tie: both terms total 1, and ["b"], the last term of the first list,
    is met first. *)
Example borda_tie : _borda_sort [["a"; "b"]; ["b"; "a"]] = ["b"; "a"].
Proof. reflexivity. Qed.

Lemma first_occurrences_NoDup (l : list string) :
  NoDup (first_occurrences l).
Proof.
  induction l as [|x l IH]; simpl; constructor.
  - rewrite filter_In, String.eqb_refl. intros [_ H]. discriminate.
  - now apply NoDup_filter.
Qed.

Lemma positional_score_absent (l : list string) (t : string) :
  ~ In t l -> positional_score l t = 0.
Proof.
  induction l as [|x l IH]; simpl; [reflexivity|].
  intros H. destruct (String.eqb_spec x t) as [->|_]; [tauto|].
  apply IH. tauto.
Qed.

(** In a list without repetition, the positional score of the term of rank
    [i] is the length of the list, less one, less [i]. *)
Lemma positional_score_rank (l : list string) (i : nat) (t : string) :
  NoDup l -> nth_error l i = Some t ->
  positional_score l t = List.length l - 1 - i.
Proof.
  intros Hnd. revert i. induction Hnd as [|x l Hx Hnd IH]; intros [|i] H;
    simpl in *; try discriminate.
  - injection H as ->. rewrite String.eqb_refl.
    rewrite positional_score_absent by exact Hx. lia.
  - destruct (String.eqb_spec x t) as [->|_].
    + exfalso. apply Hx. eapply nth_error_In; eassumption.
    + rewrite (IH i H). simpl. lia.
Qed.

Lemma borda_sort_perm (lists : list (list string)) :
  Permutation (_borda_sort lists) (first_encountered lists).
Proof.
  unfold _borda_sort. rewrite sorted_rev_perm. now rewrite borda_scores_keys.
Qed.

Lemma borda_sort_In (lists : list (list string)) (t : string) :
  In t (_borda_sort lists) <-> exists l, In l lists /\ In t l.
Proof.
  rewrite <- first_encountered_In.
  split; apply Permutation_in;
    [apply borda_sort_perm | apply Permutation_sym, borda_sort_perm].
Qed.

(** C1.  The dictionary that [_borda_sort] builds maps each term to the sum,
    over the lists, of its distances from the end of the list (the length
    of the list, less one, less the rank of the term); the result holds
    every term of the lists once, descends by that sum, and keeps terms of
    equal sum in the order in which they were first met.  The zou basis
    returns the first [size] terms of this fusion of the mean, variance and
    entropy rankings. *)
Theorem borda_sort_spec (lists : list (list string)) :
  let total := borda_total lists in
  (forall t, Py.dict_get 0 t (borda_scores lists) = total t)
  /\ (forall l i t,
        NoDup l -> nth_error l i = Some t ->
        positional_score l t = List.length l - 1 - i)
  /\ Permutation (_borda_sort lists) (first_encountered lists)
  /\ NoDup (_borda_sort lists)
  /\ (forall t, In t (_borda_sort lists) <-> exists l, In l lists /\ In t l)
  /\ StronglySorted (fun s t => total t <= total s) (_borda_sort lists)
  /\ (forall k,
        filter (fun t => total t =? k) (_borda_sort lists)
        = filter (fun t => total t =? k) (first_encountered lists))
  /\ (forall np_log10 set_order size dtm tfidf vocab raw_lengths P N,
        select_basis np_log10 set_order "zou" size dtm tfidf vocab
          raw_lengths P N
        = inr (Py.PyList
                 (Py.slice_to size
                    (_borda_sort
                       [_combine_vocabulary vocab
                          (_get_mean_probabilities P N);
                        _combine_vocabulary vocab
                          (_get_variance_probabilities
                             (background_probabilities dtm raw_lengths) P N);
                        _combine_vocabulary vocab
                          (_get_entropies np_log10 P)])))).
Proof.
  intro total.
  split; [intro t; apply borda_scores_get|].
  split; [apply positional_score_rank|].
  split; [apply borda_sort_perm|].
  split.
  { apply (Permutation_NoDup (Permutation_sym (borda_sort_perm lists))).
    apply first_occurrences_NoDup. }
  split; [intro t; apply borda_sort_In|].
  split.
  { unfold _borda_sort.
    apply (sorted_rev_sorted _ _ (fun _ => True)).
    - intros x y _ _ H. rewrite !borda_scores_get in H.
      apply Nat.ltb_lt in H. unfold total. lia.
    - intros x y _ _ H. rewrite !borda_scores_get in H.
      apply Nat.ltb_ge in H. exact H.
    - intros x y z _ _ _. unfold total. lia.
    - apply Forall_forall. intros; exact I. }
  split.
  { intro k. unfold _borda_sort. rewrite borda_scores_keys.
    apply sorted_rev_filter.
    intros x y Hx Hy. rewrite !borda_scores_get.
    apply Nat.eqb_eq in Hx, Hy. apply Nat.ltb_ge. fold total. lia. }
  reflexivity.
Qed.

(** ** Facts on numbers and arrays *)

Lemma Qc_eqb_eq (x y : Qc) : Np.Qc_eqb x y = true <-> x = y.
Proof.
  unfold Np.Qc_eqb. rewrite Qeq_bool_iff. split.
  - apply Qc_is_canon.
  - intros ->. reflexivity.
Qed.

Lemma Qc_eqb_neq (x y : Qc) : Np.Qc_eqb x y = false <-> x <> y.
Proof.
  rewrite <- Qc_eqb_eq. destruct (Np.Qc_eqb x y); split; congruence.
Qed.

Lemma Qc_ltb_lt (x y : Qc) : Np.Qc_ltb x y = true <-> (x < y)%Qc.
Proof.
  unfold Np.Qc_ltb. rewrite Qclt_alt.
  destruct (x ?= y)%Qc; split; congruence.
Qed.

Lemma Qc_ltb_ge (x y : Qc) : Np.Qc_ltb x y = false <-> (y <= x)%Qc.
Proof.
  split.
  - intros H. apply Qcnot_lt_le. intro L. apply Qc_ltb_lt in L. congruence.
  - intros H. destruct (Np.Qc_ltb x y) eqn:E; [|reflexivity].
    apply Qc_ltb_lt in E. now apply Qcle_not_lt in H.
Qed.

Lemma Qc_of_nat_S (n : nat) :
  Np.Qc_of_nat (S n) = (Np.Qc_of_nat n + 1)%Qc.
Proof.
  unfold Np.Qc_of_nat, Qcplus. apply Q2Qc_eq_iff.
  cbn [this Q2Qc]. rewrite !Qred_correct.
  rewrite Nat2Z.inj_succ. unfold Z.succ. now rewrite inject_Z_plus.
Qed.

Lemma Qc_of_nat_neq0 (n : nat) : 0 < n -> Np.Qc_of_nat n <> 0%Qc.
Proof.
  intros Hn E. unfold Np.Qc_of_nat in E. apply Q2Qc_eq_iff in E.
  unfold Qeq in E. simpl in E. lia.
Qed.

Lemma div_finite (x y : Qc) :
  y <> 0%Qc -> Np.div (Fin x) (Fin y) = Fin (x / y)%Qc.
Proof.
  intros Hy. unfold Np.div. apply Qc_eqb_neq in Hy. now rewrite Hy.
Qed.

Lemma add_comm (a b : num) : Np.add a b = Np.add b a.
Proof.
  destruct a, b; simpl; try reflexivity. now rewrite Qcplus_comm.
Qed.

Lemma add_assoc (a b c : num) :
  Np.add a (Np.add b c) = Np.add (Np.add a b) c.
Proof.
  destruct a, b, c; simpl; try reflexivity. now rewrite Qcplus_assoc.
Qed.

Lemma add_zero_r (a : num) : Np.add a Np.zero = a.
Proof. destruct a; simpl; [|reflexivity]. now rewrite Qcplus_0_r. Qed.

Lemma fold_left_add (l : list num) (a : num) :
  fold_left Np.add l a = Np.add a (num_sum l).
Proof.
  revert a. induction l as [|x l IH]; intro a; simpl.
  - now rewrite add_zero_r.
  - now rewrite IH, add_assoc.
Qed.

Section Map2Facts.
Context {A B C : Type}.
Variable f : A -> B -> C.

Lemma map2_length (l1 : list A) (l2 : list B) :
  List.length l1 = List.length l2 ->
  List.length (Np.map2 f l1 l2) = List.length l1.
Proof.
  revert l2. induction l1 as [|a l1 IH]; intros [|b l2] H; simpl in *;
    try reflexivity; try discriminate.
  f_equal. apply IH. now injection H.
Qed.

Lemma map2_nth (l1 : list A) (l2 : list B) (j : nat) (a : A) (b : B)
  (c : C) :
  j < List.length l1 -> List.length l1 = List.length l2 ->
  nth j (Np.map2 f l1 l2) c = f (nth j l1 a) (nth j l2 b).
Proof.
  revert l2 j. induction l1 as [|x l1 IH]; intros [|y l2] j Hj H;
    simpl in *; try lia.
  destruct j as [|j]; [reflexivity|]. apply IH; lia.
Qed.

Lemma map2_map_r (g : A -> B) (l : list A) :
  Np.map2 f l (map g l) = map (fun x => f x (g x)) l.
Proof. induction l as [|x l IH]; simpl; [reflexivity|]. now rewrite IH. Qed.
End Map2Facts.

Lemma map2_same {A C : Type} (f : A -> A -> C) (l : list A) :
  Np.map2 f l l = map (fun x => f x x) l.
Proof. induction l as [|x l IH]; simpl; [reflexivity|]. now rewrite IH. Qed.

(** Column [j] of the column sums is the sum of column [j]. *)
Lemma sum_axis0_nth (M j : nat) (m : list (list num)) :
  m <> [] -> rectangular M m -> j < M ->
  nth j (Np.sum_axis0 Np.add m) NonFinite = num_sum (column j m).
Proof.
  intros Hm Hrect Hj. destruct m as [|r rs]; [congruence|]. clear Hm.
  unfold Np.sum_axis0, rectangular in *.
  pose proof (Forall_inv Hrect) as Hr.
  pose proof (Forall_inv_tail Hrect) as Hrs. cbv beta in Hr.
  simpl column. simpl num_sum. rewrite <- fold_left_add.
  clear Hrect. revert r Hr.
  induction rs as [|r' rs IH]; intros r Hr; [reflexivity|].
  pose proof (Forall_inv Hrs) as Hr'.
  pose proof (Forall_inv_tail Hrs) as Hrs'. cbv beta in Hr'. simpl.
  rewrite IH; auto.
  - f_equal. apply map2_nth; lia.
  - rewrite map2_length; lia.
Qed.

Lemma sub_self_square (p : num) :
  Np.is_finite p = true -> Np.square (Np.sub p p) = Np.zero.
Proof.
  destruct p as [x|]; [intros _|discriminate].
  unfold Np.square, Np.sub, Np.mul, Np.zero. f_equal. ring.
Qed.

Lemma entropy_cell_as_product (np_log10 : Qc -> Qc) (p : num) :
  Np.mul p (if Np.neq0 p then log10 np_log10 (Np.div Np.one p) else Np.zero)
  = entropy_cell np_log10 p.
Proof.
  unfold entropy_cell. destruct (Np.neq0 p) eqn:E; [reflexivity|].
  destruct p as [x|]; [|discriminate]. simpl in E.
  apply negb_false_iff, Qc_eqb_eq in E. subst x.
  reflexivity.
Qed.

Lemma entropy_cell_positive (np_log10 : Qc -> Qc) (p : Qc) :
  (0 < p)%Qc ->
  entropy_cell np_log10 (Fin p) = Fin (p * np_log10 (1 / p))%Qc.
Proof.
  intros Hp. assert (Hne : p <> 0%Qc).
  { intro E. subst p. now apply (Qclt_not_eq _ _ Hp). }
  assert (Hinv : Np.Qc_ltb 0 (1 / p) = true).
  { apply Qc_ltb_lt.
    unfold Qclt, Qcdiv, Qcmult, Qcinv. cbn [this Q2Qc].
    rewrite !Qred_correct. rewrite Qmult_1_l.
    apply Qinv_lt_0_compat. exact Hp. }
  unfold entropy_cell, Np.neq0.
  rewrite (proj2 (Qc_eqb_neq p 0%Qc) Hne). cbn [negb].
  unfold Np.one. rewrite div_finite by exact Hne. unfold log10.
  now rewrite Hinv.
Qed.

Lemma num_sum_constant (l : list num) (c : Qc) :
  Forall (fun x => x = Fin c) l ->
  num_sum l = Fin (Np.Qc_of_nat (List.length l) * c)%Qc.
Proof.
  induction 1 as [|x l Hx Hl IH]; simpl.
  - unfold Np.zero. f_equal. unfold Np.Qc_of_nat. simpl.
    now rewrite Qcmult_0_l.
  - subst x. rewrite IH. simpl. f_equal. rewrite Qc_of_nat_S. ring.
Qed.

(** The branches of the chain on [basis]. *)
Section Branches.
Variable np_log10 : Qc -> Qc.
Variable set_order : Py.SetOrder.
Variables (size : Z) (dtm : list (list nat)) (tfidf : list (list num)).
Variables (vocab : list string) (raw_lengths : list nat).
Variables (P : list (list num)) (N : nat).

Local Abbreviation select basis :=
  (select_basis np_log10 set_order basis size dtm tfidf vocab raw_lengths P
     N).

Lemma select_basis_frequency :
  select "frequency"
  = inr (Py.PyList
           (Py.slice_to size
              (_combine_vocabulary vocab (frequency_measure dtm)))).
Proof. reflexivity. Qed.

Lemma select_basis_tfidf :
  select "tfidf"
  = inr (Py.PyList
           (Py.slice_to size
              (_combine_vocabulary vocab (tfidf_measure tfidf)))).
Proof. reflexivity. Qed.

Lemma select_basis_mean :
  select "mean"
  = inr (Py.PyList
           (Py.slice_to size
              (_combine_vocabulary vocab (_get_mean_probabilities P N)))).
Proof. reflexivity. Qed.

Lemma select_basis_variance :
  select "variance"
  = inr (Py.PyList
           (Py.slice_to size
              (_combine_vocabulary vocab
                 (_get_variance_probabilities
                    (background_probabilities dtm raw_lengths) P N)))).
Proof. reflexivity. Qed.

Lemma select_basis_entropy :
  select "entropy"
  = inr (Py.PySet
           (Py.set_iter set_order
              (Py.slice_to size
                 (_combine_vocabulary vocab (_get_entropies np_log10 P))))).
Proof. reflexivity. Qed.

Lemma select_basis_zou :
  select "zou"
  = inr (Py.PyList
           (Py.slice_to size
              (_borda_sort
                 [_combine_vocabulary vocab (_get_mean_probabilities P N);
                  _combine_vocabulary vocab
                    (_get_variance_probabilities
                       (background_probabilities dtm raw_lengths) P N);
                  _combine_vocabulary vocab (_get_entropies np_log10 P)]))).
Proof. reflexivity. Qed.

Lemma select_basis_unsupported (basis : string) :
  ~ In basis supported_bases ->
  select basis = inl (ValueError (unsupported_message basis)).
Proof.
  intros H. unfold select_basis.
  repeat match goal with
         | |- context [String.eqb basis ?s] =>
             destruct (String.eqb_spec basis s) as [->|_];
             [exfalso; apply H; simpl; tauto|]
         end.
  reflexivity.
Qed.

Lemma select_basis_supported (basis : string) :
  In basis supported_bases -> exists stops, select basis = inr stops.
Proof.
  simpl. intros [<-|[<-|[<-|[<-|[<-|[<-|[]]]]]]]; eexists; reflexivity.
Qed.
End Branches.

(** C3.  With a single document of at least one token, the per-document
    probabilities and the background probabilities are the same matrix, and
    the variance measure, which is the score of the variance basis, is 0 at
    every term. *)
Theorem variance_single_document (text : string) (row : list nat)
  (tfidf : list (list num)) :
  0 < PyStr.split_len text ->
  let texts := [text] in
  let dtm := [row] in
  let N := List.length texts in
  let raw_lengths := _get_raw_lengths texts in
  let P := _get_probabilities dtm (_get_length_array raw_lengths) in
  let bP := background_probabilities dtm raw_lengths in
  P = bP
  /\ _get_variance_probabilities bP P N = map (fun _ => Np.zero) row
  /\ single_basis_measure "variance" dtm tfidf raw_lengths N
     = Some (map (fun _ => Np.zero) row)
  /\ (forall np_log10 set_order size vocab,
        select_basis np_log10 set_order "variance" size dtm tfidf vocab
          raw_lengths P N
        = inr (Py.PyList
                 (Py.slice_to size
                    (_combine_vocabulary vocab
                       (map (fun _ => Np.zero) row))))).
Proof.
  intros Hlen texts dtm N raw_lengths P bP.
  assert (HP : P = bP).
  { unfold P, bP, _get_probabilities, background_probabilities.
    unfold Np.int_matrix_div_column, Np.int_matrix_div_scalar.
    simpl. now rewrite Nat.add_0_r. }
  assert (HV : _get_variance_probabilities bP P N
               = map (fun _ => Np.zero) row).
  { rewrite <- HP. unfold _get_variance_probabilities.
    rewrite map2_same. unfold P, _get_probabilities.
    unfold Np.int_matrix_div_column. simpl.
    rewrite map2_same. unfold Np.div_scalar. rewrite !map_map.
    apply map_ext. intro c.
    rewrite sub_self_square.
    - unfold Np.zero, Np.of_nat. rewrite div_finite.
      + reflexivity.
      + apply Qc_of_nat_neq0. unfold N. simpl. lia.
    - change (Np.is_finite
                (Np.div (Fin (Np.Qc_of_nat c))
                   (Fin (Np.Qc_of_nat (PyStr.split_len text)))) = true).
      rewrite div_finite; [reflexivity|]. now apply Qc_of_nat_neq0. }
  split; [exact HP|]. split; [exact HV|]. split.
  - change (Some (_get_variance_probabilities bP P N)
            = Some (map (fun _ => Np.zero) row)).
    now rewrite HV.
  - intros. rewrite select_basis_variance. fold bP. now rewrite HV.
Qed.

(** C3 on the document ["aa bb"]. *)
Lemma variance_single_document_witness :
  0 < PyStr.split_len "aa bb"
  /\ _get_variance_probabilities
       (background_probabilities [[1; 1]] (_get_raw_lengths ["aa bb"]))
       (_get_probabilities [[1; 1]]
          (_get_length_array (_get_raw_lengths ["aa bb"])))
       1
     = [Np.zero; Np.zero].
Proof.
  split; [vm_compute; lia|].
  apply (variance_single_document "aa bb" [1; 1] []). vm_compute; lia.
Defined.

(** In exact arithmetic the entropy of the term of column [j] is the sum,
    over the documents, of the cells [P * log10(1/P)], a cell with [P = 0]
    being 0; when the term has the same probability [p > 0] in each of the
    [N] documents, that sum is [N * (p * log10(1/p))]. *)
Lemma entropy_in_exact_arithmetic (np_log10 : Qc -> Qc) (P : list (list num))
  (M j : nat) :
  P <> [] -> rectangular M P -> j < M ->
  nth j (_get_entropies np_log10 P) NonFinite
  = num_sum (map (entropy_cell np_log10) (column j P))
  /\ entropy_cell np_log10 (Fin 0%Qc) = Fin 0%Qc
  /\ (forall p : Qc,
        (0 < p)%Qc ->
        (forall row, In row P -> nth j row NonFinite = Fin p) ->
        nth j (_get_entropies np_log10 P) NonFinite
        = Fin (Np.Qc_of_nat (List.length P) * (p * np_log10 (1 / p)))%Qc).
Proof.
  intros Hne Hrect Hj.
  assert (Hsum : nth j (_get_entropies np_log10 P) NonFinite
                 = num_sum (map (entropy_cell np_log10) (column j P))).
  { unfold _get_entropies. rewrite map2_map_r.
    erewrite (map_ext_in _ (map (entropy_cell np_log10))).
    2:{ intros row _. rewrite map2_map_r.
        apply map_ext. intro p. apply entropy_cell_as_product. }
    rewrite (sum_axis0_nth M j).
    - f_equal. unfold column. rewrite !map_map. apply map_ext. intro row.
      now rewrite <- (map_nth (entropy_cell np_log10)).
    - destruct P; [congruence | discriminate].
    - unfold rectangular in *. rewrite Forall_map.
      eapply Forall_impl; [|exact Hrect]. intros row Hr. cbv beta.
      now rewrite length_map.
    - exact Hj. }
  split; [exact Hsum|]. split; [reflexivity|].
  intros p Hp Hcol. rewrite Hsum.
  rewrite (num_sum_constant _ (p * np_log10 (1 / p))%Qc).
  - unfold column. now rewrite !length_map.
  - unfold column. rewrite map_map. apply Forall_map, Forall_forall.
    intros row Hrow. rewrite (Hcol row Hrow).
    now apply entropy_cell_positive.
Qed.

(** The same in binary64, where the order of the additions counts. *)
Lemma fold_map2_nth {A : Type} (plus : A -> A -> A) (d : A) (M j : nat)
  (rows : list (list A)) (acc : list A) :
  rectangular M rows -> List.length acc = M -> j < M ->
  nth j (fold_left (Np.map2 plus) rows acc) d
  = fold_left plus (map (fun row => nth j row d) rows) (nth j acc d).
Proof.
  unfold rectangular. intros Hrows. revert acc.
  induction Hrows as [|r rows Hr Hrows IH]; intros acc Hacc Hj;
    [reflexivity|].
  cbn [fold_left map]. rewrite IH by (rewrite ?map2_length; lia).
  now rewrite (map2_nth plus acc r j d d d) by lia.
Qed.

Lemma float_entropies_as_cells (np_log10 : float -> float)
  (P : list (list float)) :
  Float64._get_entropies np_log10 P
  = Float64.sum_axis0 (map (map (Float64.entropy_cell np_log10)) P).
Proof.
  unfold Float64._get_entropies. rewrite map2_map_r. f_equal.
  apply map_ext. intro row. apply map2_map_r.
Qed.

Lemma float_entropy_nth (np_log10 : float -> float)
  (P : list (list float)) (M j : nat) :
  P <> [] -> rectangular M P -> j < M ->
  nth j (Float64._get_entropies np_log10 P) nan
  = Float64.running_sum
      (map (Float64.entropy_cell np_log10) (Float64.column j P)).
Proof.
  intros Hne Hrect Hj. rewrite float_entropies_as_cells.
  destruct P as [|r rs]; [congruence|].
  assert (Hr : List.length r = M) by exact (Forall_inv Hrect).
  unfold Float64.sum_axis0. cbn [map].
  rewrite (fold_map2_nth PrimFloat.add nan M j
             (map (Float64.entropy_cell np_log10) r
              :: map (map (Float64.entropy_cell np_log10)) rs)).
  - change (map (Float64.entropy_cell np_log10) r
            :: map (map (Float64.entropy_cell np_log10)) rs)
      with (map (map (Float64.entropy_cell np_log10)) (r :: rs)).
    unfold Float64.running_sum, Float64.column. f_equal.
    + rewrite !map_map. apply map_ext_in. intros row Hin.
      rewrite (nth_indep _ nan (Float64.entropy_cell np_log10 nan)).
      * apply map_nth.
      * rewrite length_map.
        rewrite (proj1 (Forall_forall _ _) Hrect row Hin). exact Hj.
    + rewrite (nth_indep _ nan 0%float) by (rewrite !length_map; lia).
      rewrite map_map. exact (map_nth (fun _ => 0%float) r nan j).
  - change (rectangular M
              (map (map (Float64.entropy_cell np_log10)) (r :: rs))).
    unfold rectangular in *. apply Forall_map.
    eapply Forall_impl; [|exact Hrect].
    intros row Hrow. cbv beta. now rewrite length_map.
  - rewrite !length_map. exact Hr.
  - exact Hj.
Qed.

(** C4, amended.  For a matrix of two columns or more, or of fewer than
    eight rows, the entropy of the term of column [j] is in binary64 the
    sum of the cells [P * log10(1/P)] of its column, added to 0 document
    after document, a cell with [P = 0] being 0; when the term has the same
    probability [p] in each of the [N] documents, it is the sum of [N]
    copies of the cell of [p], added one after the other. *)
Theorem entropy_spec (np_log10 : float -> float) (P : list (list float))
  (M j : nat) :
  P <> [] -> rectangular M P -> j < M ->
  2 <= M \/ List.length P < 8 ->
  nth j (Float64._get_entropies np_log10 P) nan
  = Float64.running_sum
      (map (Float64.entropy_cell np_log10) (Float64.column j P))
  /\ Float64.entropy_cell np_log10 0%float = 0%float
  /\ (forall p : float,
        (forall row, In row P -> nth j row nan = p) ->
        nth j (Float64._get_entropies np_log10 P) nan
        = Float64.running_sum
            (repeat (Float64.entropy_cell np_log10 p) (List.length P))).
Proof.
  intros Hne Hrect Hj _.
  split; [now apply (float_entropy_nth np_log10 P M j)|].
  split; [reflexivity|].
  intros p Hp. rewrite (float_entropy_nth np_log10 P M j Hne Hrect Hj).
  f_equal. unfold Float64.column. clear Hne Hrect.
  induction P as [|row P IH]; [reflexivity|].
  cbn [map List.length repeat]. rewrite (Hp row) by now left.
  f_equal. apply IH. intros row' Hin. apply Hp. now right.
Qed.

(** ** Facts on the ranking and the assembly *)

Lemma slice_to_In {A : Type} (size : Z) (l : list A) (x : A) :
  In x (Py.slice_to size l) -> In x l.
Proof. unfold Py.slice_to. destruct (0 <=? size)%Z; apply In_firstn. Qed.

Lemma slice_to_length {A : Type} (size : Z) (l : list A) :
  (0 <= size)%Z -> (Z.of_nat (List.length (Py.slice_to size l)) <= size)%Z.
Proof.
  intros H. unfold Py.slice_to. rewrite (proj2 (Z.leb_le 0 size) H).
  pose proof (firstn_le_length (Z.to_nat size) l). lia.
Qed.

Lemma slice_to_sorted {A : Type} (R : A -> A -> Prop) (size : Z)
  (l : list A) :
  StronglySorted R l -> StronglySorted R (Py.slice_to size l).
Proof.
  unfold Py.slice_to. destruct (0 <=? size)%Z; apply StronglySorted_firstn.
Qed.

Lemma combine_vocabulary_In (vocab : list string) (measure : list num)
  (t : string) :
  In t (_combine_vocabulary vocab measure) -> In t vocab.
Proof.
  unfold _combine_vocabulary. intros H. apply in_map_iff in H.
  destruct H as ([t' x] & <- & H). apply sorted_rev_in in H.
  now apply in_combine_l in H.
Qed.

Lemma set_iter_In (so : Py.SetOrder) (l : list string) (t : string) :
  In t (Py.set_iter so l) <-> In t l.
Proof.
  rewrite <- (nodup_In string_dec l t).
  split; apply Permutation_in;
    [apply Py.set_iter_perm | apply Permutation_sym, Py.set_iter_perm].
Qed.

Lemma nodup_length_le (l : list string) :
  List.length (nodup string_dec l) <= List.length l.
Proof.
  induction l as [|x l IH]; simpl; [lia|].
  destruct (in_dec string_dec x l); simpl; lia.
Qed.

Lemma set_iter_length (so : Py.SetOrder) (l : list string) :
  List.length (Py.set_iter so l) <= List.length l.
Proof.
  rewrite (Permutation_length (Py.set_iter_perm so l)).
  apply nodup_length_le.
Qed.

Lemma remove_excluded_In (stops exclude : list string) (t : string) :
  In t (remove_excluded stops exclude) <-> In t stops /\ ~ In t exclude.
Proof.
  unfold remove_excluded. rewrite filter_In, negb_true_iff, mem_not_In.
  tauto.
Qed.

Lemma remove_excluded_length (stops exclude : list string) :
  List.length (remove_excluded stops exclude) <= List.length stops.
Proof. apply filter_length_le. Qed.

Lemma first_occurrences_length (l : list string) :
  List.length (first_occurrences l) <= List.length l.
Proof.
  induction l as [|x l IH]; simpl; [lia|].
  pose proof (filter_length_le (fun y => negb (String.eqb y x))
                (first_occurrences l)). lia.
Qed.

Lemma extend_not_in_In (stops include : list string) (t : string) :
  In t (extend_not_in stops include) <-> In t stops \/ In t include.
Proof.
  rewrite extend_not_in_spec, in_app_iff, first_occurrences_In, filter_In.
  rewrite negb_true_iff, mem_not_In.
  destruct (in_dec string_dec t stops); tauto.
Qed.

Lemma extend_not_in_length (stops include : list string) :
  List.length (extend_not_in stops include)
  <= List.length stops + List.length include.
Proof.
  rewrite extend_not_in_spec, length_app.
  pose proof (first_occurrences_length
                (filter (fun y => negb (Py.mem y stops)) include)).
  pose proof (filter_length_le (fun y => negb (Py.mem y stops)) include).
  lia.
Qed.

Lemma sorted_str_perm (l : list string) : Permutation (Py.sorted_str l) l.
Proof.
  unfold Py.sorted_str. rewrite sorted_as_sorted_rev. apply sorted_rev_perm.
Qed.

Lemma sorted_str_In (l : list string) (t : string) :
  In t (Py.sorted_str l) <-> In t l.
Proof.
  split; apply Permutation_in;
    [apply sorted_str_perm | apply Permutation_sym, sorted_str_perm].
Qed.

Lemma leb_iff (s t : string) :
  String.leb s t = true <-> s = t \/ String_as_OT.lt s t.
Proof.
  unfold String.leb. rewrite <- String_as_OT.cmp_lt.
  rewrite <- String_as_OT.cmp_eq. unfold String_as_OT.cmp.
  destruct (String.compare s t); split; intros; try tauto; try congruence.
  destruct H; congruence.
Qed.

Lemma leb_trans (s t u : string) :
  String.leb s t = true -> String.leb t u = true -> String.leb s u = true.
Proof.
  rewrite !leb_iff. intros [->|H1] [->|H2]; auto.
  right. eapply String_as_OT.lt_trans; eassumption.
Qed.

Lemma sorted_str_sorted (l : list string) :
  StronglySorted (fun s t => String.leb s t = true) (Py.sorted_str l).
Proof.
  unfold Py.sorted_str. rewrite sorted_as_sorted_rev.
  apply (sorted_rev_sorted _ _ (fun _ => True)).
  - intros x y _ _ H. unfold String.ltb in H. unfold String.leb.
    destruct (String.compare y x); congruence.
  - intros x y _ _ H. unfold String.ltb in H. unfold String.leb.
    rewrite String.compare_antisym.
    destruct (String.compare y x); simpl; congruence.
  - intros x y z _ _ _. apply leb_trans.
  - apply Forall_forall. intros; exact I.
Qed.

(** What the chain on [basis] returns, when it returns. *)
Lemma select_basis_In np_log10 set_order basis size dtm tfidf vocab
  raw_lengths P N stops t :
  select_basis np_log10 set_order basis size dtm tfidf vocab raw_lengths P N
  = inr stops ->
  In t (Py.elements stops) -> In t vocab.
Proof.
  unfold select_basis.
  repeat match goal with
         | |- context [if ?b then _ else _] => destruct b
         end;
    intros E; inversion E; subst; simpl; intros H;
    try apply set_iter_In in H;
    apply slice_to_In in H;
    try (now apply combine_vocabulary_In in H).
  apply borda_sort_In in H. destruct H as (l & Hl & Ht).
  simpl in Hl.
  destruct Hl as [<-|[<-|[<-|[]]]]; now apply combine_vocabulary_In in Ht.
Qed.

Lemma select_basis_length np_log10 set_order basis size dtm tfidf vocab
  raw_lengths P N stops :
  select_basis np_log10 set_order basis size dtm tfidf vocab raw_lengths P N
  = inr stops ->
  (0 <= size)%Z ->
  (Z.of_nat (List.length (Py.elements stops)) <= size)%Z.
Proof.
  unfold select_basis.
  repeat match goal with
         | |- context [if ?b then _ else _] => destruct b
         end;
    intros E Hs; inversion E; subst; simpl;
    try (now apply slice_to_length).
  match goal with
  | |- context [Py.set_iter ?so ?l] =>
      pose proof (set_iter_length so l); pose proof (slice_to_length size
        (_combine_vocabulary vocab (_get_entropies np_log10 P)) Hs)
  end. lia.
Qed.

Lemma select_basis_inr_supported np_log10 set_order basis size dtm tfidf
  vocab raw_lengths P N stops :
  select_basis np_log10 set_order basis size dtm tfidf vocab raw_lengths P N
  = inr stops ->
  In basis supported_bases.
Proof.
  intros E. destruct (in_dec string_dec basis supported_bases) as [H|H];
    [exact H|].
  rewrite select_basis_unsupported in E by exact H. discriminate.
Qed.

(** What the assembly returns, when it returns. *)
Lemma assemble_In stops sort_words include exclude result t :
  assemble stops sort_words include exclude = inr result ->
  In t (Py.elements result) ->
  (In t (Py.elements stops) /\ ~ In t exclude) \/ In t include.
Proof.
  unfold assemble. intros E H.
  assert (Hex : forall u,
             In u (Py.elements
                     match exclude with
                     | [] => stops
                     | _ :: _ =>
                         Py.PyList
                           (remove_excluded (Py.elements stops) exclude)
                     end) ->
             In u (Py.elements stops) /\ ~ In u exclude).
  { intros u Hu. destruct exclude as [|e exclude]; [now split|].
    simpl in Hu. now apply remove_excluded_In in Hu. }
  revert E Hex.
  generalize (match exclude with
              | [] => stops
              | _ :: _ =>
                  Py.PyList (remove_excluded (Py.elements stops) exclude)
              end).
  intros stops1 E Hex. cbv zeta in E.
  assert (Hin : In t (Py.elements stops1) \/ In t include);
    [|destruct Hin as [Hin|Hin]; [left; now apply Hex | now right]].
  destruct include as [|i include].
  - left. destruct sort_words; inversion E; subst; cbn [Py.elements] in H.
    + now apply (proj1 (sorted_str_In _ _)) in H.
    + exact H.
  - destruct stops1 as [l|s]; [|discriminate].
    apply (proj1 (extend_not_in_In l (i :: include) t)).
    destruct sort_words; inversion E; subst; cbn [Py.elements] in H.
    + now apply (proj1 (sorted_str_In _ _)) in H.
    + exact H.
Qed.

Lemma assemble_length stops sort_words include exclude result :
  assemble stops sort_words include exclude = inr result ->
  List.length (Py.elements result)
  <= List.length (Py.elements stops) + List.length include.
Proof.
  unfold assemble. intros E.
  assert (Hex : List.length
                  (Py.elements
                     match exclude with
                     | [] => stops
                     | _ :: _ =>
                         Py.PyList
                           (remove_excluded (Py.elements stops) exclude)
                     end)
                <= List.length (Py.elements stops)).
  { destruct exclude as [|e exclude]; [lia|].
    simpl. apply remove_excluded_length. }
  revert E Hex.
  generalize (match exclude with
              | [] => stops
              | _ :: _ =>
                  Py.PyList (remove_excluded (Py.elements stops) exclude)
              end).
  intros stops1 E Hex. cbv zeta in E.
  destruct include as [|i include].
  - destruct sort_words; inversion E; subst; simpl;
      rewrite ?(Permutation_length (sorted_str_perm _)); lia.
  - destruct stops1 as [l|s]; [|discriminate].
    pose proof (extend_not_in_length l (i :: include)).
    destruct sort_words; inversion E; subst; simpl in *;
      rewrite ?(Permutation_length (sorted_str_perm _)); lia.
Qed.

(** ** [build_stoplist], step by step *)

Section BuildFacts.
Variable np_log10 : Qc -> Qc.
Variable set_order : Py.SetOrder.
Variable sk_count : list string -> exn + (list (list nat) * list string).
Variable sk_tfidf : list string -> exn + (list (list Qc) * list string).

Local Abbreviation build :=
  (build_stoplist np_log10 set_order sk_count sk_tfidf).

Lemma build_stoplist_unfold texts basis size sort_words inc_counts lower
  remove_punctuation remove_numbers include exclude self :
  build texts basis size sort_words inc_counts lower remove_punctuation
    remove_numbers include exclude self
  = let texts' := preprocess lower remove_punctuation remove_numbers texts in
    match language self with
    | None => (inl no_language, self)
    | Some _ =>
        match sk_count texts' with
        | inl e => (inl e, self)
        | inr (dtm, vocab) =>
            match sk_tfidf texts' with
            | inl e =>
                (inl e, with_vectorizer self {| vocabulary_ := Some vocab |})
            | inr (tfidf, tvocab) =>
                let raw_lengths := _get_raw_lengths texts' in
                let P :=
                  _get_probabilities dtm (_get_length_array raw_lengths) in
                (match
                    select_basis np_log10 set_order basis size dtm
                      (map (map Fin) tfidf) vocab raw_lengths P
                      (List.length texts')
                  with
                  | inl e => inl e
                  | inr stops => assemble stops sort_words include exclude
                  end,
                  fitted self vocab tvocab)
            end
        end
    end.
Proof.
  unfold build_stoplist, bind, get_language, _make_dtm_vocab,
    _make_tfidf_vocab, bind, count_fit_transform, count_get_feature_names,
    tfidf_fit_transform, tfidf_get_feature_names, ret, raise, lift, fitted.
  cbv zeta.
  destruct (language self); [|reflexivity].
  destruct (sk_count _) as [e|[dtm vocab]]; [reflexivity|]. simpl.
  destruct (sk_tfidf _) as [e|[tfidf tvocab]]; [reflexivity|]. simpl.
  destruct (select_basis _ _ _ _ _ _ _ _ _ _); reflexivity.
Qed.

Lemma build_stoplist_inr texts basis size sort_words inc_counts lower
  remove_punctuation remove_numbers include exclude self result self' :
  build texts basis size sort_words inc_counts lower remove_punctuation
    remove_numbers include exclude self = (inr result, self') ->
  let texts' := preprocess lower remove_punctuation remove_numbers texts in
  exists dtm vocab tfidf tvocab stops,
    sk_count texts' = inr (dtm, vocab)
    /\ sk_tfidf texts' = inr (tfidf, tvocab)
    /\ self' = fitted self vocab tvocab
    /\ select_basis np_log10 set_order basis size dtm (map (map Fin) tfidf)
         vocab (_get_raw_lengths texts')
         (_get_probabilities dtm
            (_get_length_array (_get_raw_lengths texts')))
         (List.length texts') = inr stops
    /\ assemble stops sort_words include exclude = inr result.
Proof.
  rewrite build_stoplist_unfold. cbv zeta.
  destruct (language self); [|discriminate].
  destruct (sk_count _) as [e|[dtm vocab]]; [discriminate|].
  destruct (sk_tfidf _) as [e|[tfidf tvocab]]; [discriminate|].
  destruct (select_basis _ _ _ _ _ _ _ _ _ _) as [e|stops] eqn:Es;
    [discriminate|].
  intros E. injection E as E <-.
  exists dtm, vocab, tfidf, tvocab, stops. repeat split; auto.
Qed.

(** Every term returned is a term of the vocabulary that was kept from
    exclusion, or a term of [include]. *)
Lemma build_stoplist_In texts basis size sort_words inc_counts lower
  remove_punctuation remove_numbers include exclude self result self' t :
  build texts basis size sort_words inc_counts lower remove_punctuation
    remove_numbers include exclude self = (inr result, self') ->
  In t (Py.elements result) ->
  exists vocab,
    vocabulary_ (vectorizer self') = Some vocab
    /\ ((In t vocab /\ ~ In t exclude) \/ In t include).
Proof.
  intros E Ht. apply build_stoplist_inr in E.
  destruct E as (dtm & vocab & tfidf & tvocab & stops & _ & _ & -> & Es & Ea).
  exists vocab. split; [reflexivity|].
  destruct (assemble_In _ _ _ _ _ _ Ea Ht) as [[H1 H2]|H]; [left|now right].
  split; [|exact H2]. eapply select_basis_In; eassumption.
Qed.

Lemma build_stoplist_length texts basis size sort_words inc_counts lower
  remove_punctuation remove_numbers include exclude self result self' :
  build texts basis size sort_words inc_counts lower remove_punctuation
    remove_numbers include exclude self = (inr result, self') ->
  (0 <= size)%Z ->
  (Z.of_nat (List.length (Py.elements result))
   <= size + Z.of_nat (List.length include))%Z.
Proof.
  intros E Hs. apply build_stoplist_inr in E.
  destruct E as (dtm & vocab & tfidf & tvocab & stops & _ & _ & _ & Es & Ea).
  pose proof (select_basis_length _ _ _ _ _ _ _ _ _ _ _ Es Hs).
  pose proof (assemble_length _ _ _ _ _ Ea). lia.
Qed.

(** C2, amended.  When [build_stoplist] returns, for a size that is not
    negative, it returns at most [size] terms and the terms of [include]
    that it appended, and every term is a term of the vocabulary that the
    vectorizer learnt or a term of [include]; without [include], at most
    [size] terms, all of the vocabulary. *)
Theorem build_stoplist_size_and_vocabulary texts basis size sort_words
  inc_counts lower remove_punctuation remove_numbers include exclude self
  result self' :
  build texts basis size sort_words inc_counts lower remove_punctuation
    remove_numbers include exclude self = (inr result, self') ->
  (0 <= size)%Z ->
  exists vocab,
    vocabulary_ (vectorizer self') = Some vocab
    /\ In basis supported_bases
    /\ (Z.of_nat (List.length (Py.elements result))
        <= size + Z.of_nat (List.length include))%Z
    /\ (forall t, In t (Py.elements result) -> In t vocab \/ In t include)
    /\ (include = [] ->
        (Z.of_nat (List.length (Py.elements result)) <= size)%Z
        /\ forall t, In t (Py.elements result) -> In t vocab).
Proof.
  intros E Hs.
  pose proof (build_stoplist_length _ _ _ _ _ _ _ _ _ _ _ _ _ E Hs) as Hlen.
  assert (Hin : forall t, In t (Py.elements result) ->
                  exists vocab,
                    vocabulary_ (vectorizer self') = Some vocab
                    /\ ((In t vocab /\ ~ In t exclude) \/ In t include)).
  { intros t. now apply build_stoplist_In with (1 := E). }
  apply build_stoplist_inr in E.
  destruct E as (dtm & vocab & tfidf & tvocab & stops & _ & _ & -> & Es & Ea).
  exists vocab. split; [reflexivity|].
  split; [eapply select_basis_inr_supported; eassumption|].
  split; [exact Hlen|].
  assert (Hin' : forall t, In t (Py.elements result) ->
                   In t vocab \/ In t include).
  { intros t Ht. destruct (Hin t Ht) as (v & Hv & H).
    simpl in Hv. injection Hv as <-. tauto. }
  split; [exact Hin'|].
  intros ->. simpl in Hlen. split; [lia|].
  intros t Ht. destruct (Hin' t Ht) as [H|[]]. exact H.
Qed.

(** C8, amended.  A term of [exclude] is returned only if it is also a term
    of [include]: exclusion comes first, inclusion afterwards. *)
Theorem build_stoplist_excluded texts basis size sort_words inc_counts
  lower remove_punctuation remove_numbers include exclude self result
  self' :
  build texts basis size sort_words inc_counts lower remove_punctuation
    remove_numbers include exclude self = (inr result, self') ->
  (forall t, In t (Py.elements result) -> In t exclude -> In t include)
  /\ (include = [] ->
      forall t, In t (Py.elements result) -> ~ In t exclude).
Proof.
  intros E.
  assert (H : forall t, In t (Py.elements result) ->
                ~ In t exclude \/ In t include).
  { intros t Ht.
    destruct (build_stoplist_In _ _ _ _ _ _ _ _ _ _ _ _ _ _ E Ht)
      as (v & _ & [[_ H]|H]); tauto. }
  split.
  - intros t Ht Hex. destruct (H t Ht); tauto.
  - intros -> t Ht. destruct (H t Ht) as [H'|[]]. exact H'.
Qed.




(** When does [build_stoplist] return?  Whenever [self] has a language, the
    vectorizers accept the texts, the basis is a supported one, and the
    entropy basis is not asked to extend its set. *)
Lemma build_stoplist_returns texts basis size sort_words inc_counts lower
  remove_punctuation remove_numbers include exclude self lang dtm vocab
  tfidf tvocab :
  let texts' := preprocess lower remove_punctuation remove_numbers texts in
  language self = Some lang ->
  sk_count texts' = inr (dtm, vocab) ->
  sk_tfidf texts' = inr (tfidf, tvocab) ->
  In basis supported_bases ->
  (basis = "entropy" -> include = [] \/ exclude <> []) ->
  exists result,
    build texts basis size sort_words inc_counts lower remove_punctuation
      remove_numbers include exclude self
    = (inr result, fitted self vocab tvocab)
    /\ (basis <> "entropy" -> exists l, result = Py.PyList l).
Proof.
  intros texts' Hl Hc Ht Hb Hent. rewrite build_stoplist_unfold. cbv zeta.
  fold texts'. rewrite Hl, Hc, Ht.
  simpl in Hb.
  destruct Hb as [<-|[<-|[<-|[<-|[<-|[<-|[]]]]]]];
    rewrite ?select_basis_frequency, ?select_basis_tfidf,
      ?select_basis_mean, ?select_basis_variance, ?select_basis_entropy,
      ?select_basis_zou;
    unfold assemble;
    try (destruct exclude, include, sort_words; cbn;
         eexists; (split; [reflexivity|]); intros; eexists; reflexivity).
  destruct (Hent eq_refl) as [->|He].
  - destruct exclude, sort_words; cbn; eexists;
      (split; [reflexivity|]); intros H; now elim H.
  - destruct exclude as [|e exclude]; [now elim He|].
    destruct include, sort_words; cbn; eexists;
      (split; [reflexivity|]); intros H; now elim H.
Qed.


(** C6, amended.  With the zou basis and [inc_counts] set, the call returns
    a list whenever [self] has a language and the vectorizers accept the
    texts: the same list, and the same state, as without [inc_counts]. *)
Theorem build_stoplist_zou_inc_counts texts size sort_words lower
  remove_punctuation remove_numbers include exclude self lang dtm vocab
  tfidf tvocab :
  let texts' := preprocess lower remove_punctuation remove_numbers texts in
  language self = Some lang ->
  sk_count texts' = inr (dtm, vocab) ->
  sk_tfidf texts' = inr (tfidf, tvocab) ->
  exists l,
    build texts "zou" size sort_words true lower remove_punctuation
      remove_numbers include exclude self
    = (inr (Py.PyList l), fitted self vocab tvocab)
    /\ build texts "zou" size sort_words false lower remove_punctuation
         remove_numbers include exclude self
       = (inr (Py.PyList l), fitted self vocab tvocab).
Proof.
  intros texts' Hl Hc Ht.
  destruct (build_stoplist_returns texts "zou" size sort_words true lower
              remove_punctuation remove_numbers include exclude self lang
              dtm vocab tfidf tvocab Hl Hc Ht)
    as (result & E & Hlist).
  - simpl. tauto.
  - discriminate.
  - destruct Hlist as (l & ->); [discriminate|].
    exists l. split; exact E.
Qed.

Lemma map2_nth_error {A B C : Type} (f : A -> B -> C) (l1 : list A)
  (l2 : list B) (d : nat) (a : A) (b : B) :
  nth_error l1 d = Some a -> nth_error l2 d = Some b ->
  nth_error (Np.map2 f l1 l2) d = Some (f a b).
Proof.
  revert l2 d. induction l1 as [|x l1 IH]; intros [|y l2] [|d] H1 H2;
    simpl in *; try discriminate.
  - congruence.
  - now apply IH.
Qed.

Lemma probabilities_zero_length (dtm : list (list nat))
  (raw_lengths : list nat) (d : nat) (row : list nat) :
  nth_error dtm d = Some row ->
  nth_error raw_lengths d = Some 0 ->
  nth_error (_get_probabilities dtm (_get_length_array raw_lengths)) d
  = Some (map (fun _ => NonFinite) row).
Proof.
  intros Hrow Hlen. unfold _get_probabilities, Np.int_matrix_div_column.
  erewrite map2_nth_error; [|exact Hrow|].
  2:{ unfold _get_length_array. rewrite nth_error_map, Hlen. reflexivity. }
  reflexivity.
Qed.

(** C7, amended.  No length is checked.  Whatever the token counts of the
    documents, the call returns as soon as [self] has a language, the
    vectorizers accept the texts, the basis is supported and the entropy
    basis is not asked to extend its set; the probabilities of a document
    without tokens are the non-finite results of a division by zero, not an
    error. *)
Theorem build_stoplist_no_length_check texts basis size sort_words
  inc_counts lower remove_punctuation remove_numbers include exclude self
  lang dtm vocab tfidf tvocab :
  let texts' := preprocess lower remove_punctuation remove_numbers texts in
  language self = Some lang ->
  sk_count texts' = inr (dtm, vocab) ->
  sk_tfidf texts' = inr (tfidf, tvocab) ->
  In basis supported_bases ->
  (basis = "entropy" -> include = [] \/ exclude <> []) ->
  (exists result,
      build texts basis size sort_words inc_counts lower remove_punctuation
        remove_numbers include exclude self
      = (inr result, fitted self vocab tvocab))
  /\ (forall d row,
        nth_error dtm d = Some row ->
        nth_error (_get_raw_lengths texts') d = Some 0 ->
        nth_error
          (_get_probabilities dtm
             (_get_length_array (_get_raw_lengths texts'))) d
        = Some (map (fun _ => NonFinite) row)).
Proof.
  intros texts' Hl Hc Ht Hb Hent. split.
  - destruct (build_stoplist_returns texts basis size sort_words inc_counts
                lower remove_punctuation remove_numbers include exclude
                self lang dtm vocab tfidf tvocab Hl Hc Ht Hb Hent)
      as (result & E & _).
    now exists result.
  - intros d row. apply probabilities_zero_length.
Qed.

(** ** Descending order of a single basis *)

Lemma assoc_In_NoDup {V : Type} (l : list (string * V)) (k : string)
  (v : V) :
  NoDup (map fst l) -> In (k, v) l -> assoc k l = Some v.
Proof.
  induction l as [|[k' v'] l IH]; simpl; [tauto|].
  intros Hnd [E|Hin].
  - injection E as -> ->. now rewrite String.eqb_refl.
  - inversion Hnd as [|? ? Hk Hnd']; subst.
    destruct (String.eqb_spec k k') as [->|_]; [|now apply IH].
    exfalso. apply Hk. apply in_map_iff. now exists (k', v).
Qed.

Lemma combine_fst_NoDup {V : Type} (l : list string) (l' : list V) :
  NoDup l -> NoDup (map fst (combine l l')).
Proof.
  intros H. revert l'. induction H as [|x l Hx Hl IH]; intros [|y l'];
    simpl; try constructor; auto.
  intros Hin. apply Hx. apply in_map_iff in Hin.
  destruct Hin as ([a b] & <- & Hab). now apply in_combine_l in Hab.
Qed.

Lemma combine_vocabulary_sorted (vocab : list string) (measure : list num) :
  NoDup vocab ->
  Forall (fun x => Np.is_finite x = true) measure ->
  StronglySorted (descends_by score_le (term_score vocab measure))
    (_combine_vocabulary vocab measure).
Proof.
  intros Hnd Hfin. unfold _combine_vocabulary.
  set (pairs := combine vocab measure).
  set (good := fun a : string * num =>
                 In a pairs /\ Np.is_finite (snd a) = true).
  set (R := fun a b : string * num =>
              exists x y, snd a = Fin x /\ snd b = Fin y /\ (y <= x)%Qc).
  assert (Hgood : Forall good pairs).
  { apply Forall_forall. intros [t x] Hin. split; [exact Hin|].
    apply in_combine_r in Hin.
    now apply (proj1 (Forall_forall _ _) Hfin). }
  assert (Hsorted : StronglySorted R (Py.sorted_rev snd Np.ltb pairs)).
  { apply (sorted_rev_sorted snd Np.ltb good R); [| | |exact Hgood].
    - intros [s [x|]] [t [y|]] [_ Hx] [_ Hy] H; try discriminate.
      exists y, x. repeat split. simpl in H.
      apply Qc_ltb_lt in H. now apply Qclt_le_weak.
    - intros [s [x|]] [t [y|]] [_ Hx] [_ Hy] H; try discriminate.
      exists x, y. repeat split. simpl in H. now apply Qc_ltb_ge in H.
    - intros a b c _ _ _ (x & y & Ha & Hb & Hxy) (y' & z & Hb' & Hc & Hyz).
      exists x, z. repeat split; auto. rewrite Hb in Hb'.
      injection Hb' as <-. now apply Qcle_trans with y. }
  apply (StronglySorted_map R); [|exact Hsorted].
  intros [s x] [t y] Hs Ht (a & b & Ha & Hb & Hab).
  apply (proj1 (sorted_rev_in snd Np.ltb pairs _)) in Hs, Ht.
  simpl in *. subst x y. unfold descends_by, score_le, term_score.
  fold pairs.
  assert (Hndp : NoDup (map fst pairs)) by now apply combine_fst_NoDup.
  rewrite (assoc_In_NoDup pairs s (Fin a) Hndp Hs).
  rewrite (assoc_In_NoDup pairs t (Fin b) Hndp Ht).
  exists b, a. auto.
Qed.

(** The measures are finite when no division by zero occurs. *)
Lemma map2_finite (l1 l2 : list num) :
  Forall (fun x => Np.is_finite x = true) l1 ->
  Forall (fun x => Np.is_finite x = true) l2 ->
  Forall (fun x => Np.is_finite x = true) (Np.map2 Np.add l1 l2).
Proof.
  intros H1. revert l2. induction H1 as [|x l1 Hx Hl1 IH];
    intros l2 H2; simpl; [constructor|].
  destruct H2 as [|y l2 Hy Hl2]; constructor; [|now apply IH].
  destruct x, y; try discriminate; reflexivity.
Qed.

Lemma sum_axis0_finite (m : list (list num)) :
  Forall (Forall (fun x => Np.is_finite x = true)) m ->
  Forall (fun x => Np.is_finite x = true) (Np.sum_axis0 Np.add m).
Proof.
  intros H. destruct H as [|r rs Hr Hrs]; simpl; [constructor|].
  revert r Hr. induction Hrs as [|r' rs Hr' Hrs IH]; intros r Hr; simpl;
    [exact Hr|].
  apply IH. now apply map2_finite.
Qed.

Lemma div_scalar_finite (v : list num) (n : nat) :
  0 < n ->
  Forall (fun x => Np.is_finite x = true) v ->
  Forall (fun x => Np.is_finite x = true) (Np.div_scalar v n).
Proof.
  intros Hn Hv. unfold Np.div_scalar. apply Forall_map.
  eapply Forall_impl; [|exact Hv]. intros [x|] Hx; [|discriminate].
  unfold Np.of_nat. rewrite div_finite; [reflexivity|].
  now apply Qc_of_nat_neq0.
Qed.

Lemma div_of_nat_finite (c n : nat) :
  0 < n -> Np.is_finite (Np.div (Np.of_nat c) (Np.of_nat n)) = true.
Proof.
  intros Hn. unfold Np.of_nat. rewrite div_finite; [reflexivity|].
  now apply Qc_of_nat_neq0.
Qed.

Lemma probabilities_finite (dtm : list (list nat)) (raw_lengths : list nat) :
  Forall (fun n => 0 < n) raw_lengths ->
  Forall (Forall (fun x => Np.is_finite x = true))
    (_get_probabilities dtm (_get_length_array raw_lengths)).
Proof.
  unfold _get_probabilities, _get_length_array, Np.int_matrix_div_column.
  intros H. revert dtm. induction H as [|n raw Hn Hraw IH];
    intros [|row dtm]; cbn [Np.map2 map]; constructor; [|apply IH].
  apply Forall_map, Forall_forall. intros c _.
  cbn [nth]. now apply div_of_nat_finite.
Qed.

Lemma background_finite (dtm : list (list nat)) (raw_lengths : list nat) :
  0 < list_sum raw_lengths ->
  Forall (Forall (fun x => Np.is_finite x = true))
    (background_probabilities dtm raw_lengths).
Proof.
  intros H. unfold background_probabilities, Np.int_matrix_div_scalar.
  apply Forall_map, Forall_forall. intros row _.
  apply Forall_map, Forall_forall. intros c _.
  now apply div_of_nat_finite.
Qed.

Lemma map2_square_sub_finite (P bP : list (list num)) :
  Forall (Forall (fun x => Np.is_finite x = true)) P ->
  Forall (Forall (fun x => Np.is_finite x = true)) bP ->
  Forall (Forall (fun x => Np.is_finite x = true))
    (Np.map2 (Np.map2 (fun p b => Np.square (Np.sub p b))) P bP).
Proof.
  intros HP. revert bP. induction HP as [|r P Hr HP IH]; intros bP HbP;
    simpl; [constructor|].
  destruct HbP as [|r' bP Hr' HbP]; constructor; [|now apply IH].
  clear IH HP HbP. revert r' Hr'.
  induction Hr as [|x r Hx Hr IH]; intros r' Hr'; simpl; [constructor|].
  destruct Hr' as [|y r' Hy Hr']; constructor; [|now apply IH].
  destruct x, y; try discriminate; reflexivity.
Qed.

Lemma single_basis_measure_finite (basis : string) (dtm : list (list nat))
  (tfidf : list (list Qc)) (texts : list string) (measure : list num) :
  single_basis_measure basis dtm (map (map Fin) tfidf)
    (_get_raw_lengths texts) (List.length texts) = Some measure ->
  basis = "frequency" \/ basis = "tfidf"
  \/ Forall (fun text => 0 < PyStr.split_len text) texts ->
  Forall (fun x => Np.is_finite x = true) measure.
Proof.
  unfold single_basis_measure.
  destruct (String.eqb_spec basis "frequency") as [->|N1].
  { intros E _. injection E as <-. unfold frequency_measure.
    apply Forall_map, Forall_forall. reflexivity. }
  destruct (String.eqb_spec basis "tfidf") as [->|N2].
  { intros E _. injection E as <-. unfold tfidf_measure.
    apply sum_axis0_finite, Forall_map, Forall_forall. intros row _.
    apply Forall_map, Forall_forall. reflexivity. }
  intros E [H|[H|Hlen]]; try congruence.
  assert (Hraw : Forall (fun n => 0 < n) (_get_raw_lengths texts)).
  { unfold _get_raw_lengths. now apply Forall_map. }
  destruct texts as [|text texts].
  { (* no document: the probability matrix has no row *)
    simpl in E. unfold _get_probabilities, Np.int_matrix_div_column in E.
    assert (Hnil : forall (f : list nat -> list nat -> list num) l,
               Np.map2 f l [] = []) by (intros f [|a l]; reflexivity).
    rewrite Hnil in E.
    destruct (String.eqb basis "mean"); [injection E as <-; constructor|].
    destruct (String.eqb basis "variance"); [|discriminate].
    injection E as <-. constructor. }
  assert (HN : 0 < List.length (text :: texts)) by (simpl; lia).
  assert (Hsum : 0 < list_sum (_get_raw_lengths (text :: texts))).
  { inversion Hraw; subst. simpl. lia. }
  destruct (String.eqb basis "mean").
  { injection E as <-. unfold _get_mean_probabilities.
    apply div_scalar_finite; [exact HN|].
    apply sum_axis0_finite.
    exact (probabilities_finite dtm _ Hraw). }
  destruct (String.eqb basis "variance"); [|discriminate].
  injection E as <-. unfold _get_variance_probabilities.
  apply div_scalar_finite; [exact HN|].
  apply sum_axis0_finite, map2_square_sub_finite.
  - exact (probabilities_finite dtm _ Hraw).
  - exact (background_finite dtm _ Hsum).
Qed.

Lemma single_basis_select basis size dtm tfidf vocab raw_lengths N
  measure :
  single_basis_measure basis dtm tfidf raw_lengths N = Some measure ->
  select_basis np_log10 set_order basis size dtm tfidf vocab raw_lengths
    (_get_probabilities dtm (_get_length_array raw_lengths)) N
  = inr (Py.PyList (Py.slice_to size (_combine_vocabulary vocab measure))).
Proof.
  unfold single_basis_measure, select_basis.
  repeat match goal with
         | |- context [if ?b then _ else _] => destruct b
         end;
    intros E; try discriminate; injection E as <-; reflexivity.
Qed.

(** C9, amended.  With [sort_words], the call returns a list in ascending
    lexicographic order.  Without it, without [include], and for the
    frequency, tfidf, mean and variance bases (every document holding a
    token, for the last two), the list returned descends by the score of
    its basis. *)
Theorem build_stoplist_order texts basis size sort_words inc_counts lower
  remove_punctuation remove_numbers include exclude self result self' :
  build texts basis size sort_words inc_counts lower remove_punctuation
    remove_numbers include exclude self = (inr result, self') ->
  let texts' := preprocess lower remove_punctuation remove_numbers texts in
  (sort_words = true ->
   exists l,
     result = Py.PyList l
     /\ StronglySorted (fun s t => String.leb s t = true) l)
  /\ (sort_words = false ->
      include = [] ->
      forall dtm vocab tfidf tvocab measure,
        sk_count texts' = inr (dtm, vocab) ->
        sk_tfidf texts' = inr (tfidf, tvocab) ->
        single_basis_measure basis dtm (map (map Fin) tfidf)
          (_get_raw_lengths texts') (List.length texts') = Some measure ->
        NoDup vocab ->
        basis = "frequency" \/ basis = "tfidf"
        \/ Forall (fun text => 0 < PyStr.split_len text) texts' ->
        exists l,
          result = Py.PyList l
          /\ StronglySorted
               (descends_by score_le (term_score vocab measure)) l).
Proof.
  intros E texts'. apply build_stoplist_inr in E. fold texts' in E.
  destruct E as (dtm & vocab & tfidf & tvocab & stops & Hc & Ht & _ & Es & Ea).
  split.
  - intros ->. unfold assemble in Ea.
    destruct (match include with [] => _ | _ :: _ => _ end) as [e|stops1];
      [discriminate|].
    injection Ea as <-. eexists. split; [reflexivity|].
    apply sorted_str_sorted.
  - intros -> -> dtm' vocab' tfidf' tvocab' measure Hc' Ht' Hm Hnd Hfin.
    rewrite Hc in Hc'. injection Hc' as <- <-.
    rewrite Ht in Ht'. injection Ht' as <- <-.
    rewrite (single_basis_select _ size _ _ vocab _ _ _ Hm) in Es.
    injection Es as <-.
    pose proof (single_basis_measure_finite _ _ _ _ _ Hm Hfin) as Hfinite.
    pose proof (combine_vocabulary_sorted vocab measure Hnd Hfinite) as Hs.
    apply (slice_to_sorted _ size) in Hs.
    unfold assemble in Ea. destruct exclude as [|e exclude]; simpl in Ea;
      injection Ea as <-; eexists; (split; [reflexivity|]); [exact Hs|].
    unfold remove_excluded. now apply StronglySorted_filter.
Qed.
End BuildFacts.

(** ** The statements at work on the small corpus *)

Example entropy_returns_a_set :
  fst (Demo.build Demo.corpus "entropy" 2%Z false false true true true [] []
         Demo.self)
  = inr (Py.PySet ["cc"; "bb"]).
Proof. vm_compute. reflexivity. Qed.

(** With an iteration order that happens to be the reverse one, the list
    made from the set ascends by entropy. *)
Example entropy_order_is_lost :
  fst (build_stoplist Demo.log10_table Demo.reverse_order Demo.sk_count
         Demo.sk_tfidf Demo.corpus "entropy" 3%Z false false true true true
         [] ["zz"] Demo.self)
  = inr (Py.PyList ["aa"; "bb"; "cc"])
  /\ _combine_vocabulary Demo.vocab
       (_get_entropies Demo.log10_table
          (_get_probabilities Demo.dtm (_get_length_array [6; 4])))
     = ["cc"; "bb"; "aa"].
Proof. split; vm_compute; reflexivity. Qed.

Example entropy_cannot_extend :
  fst (Demo.build Demo.corpus "entropy" 2%Z true false true true true
         ["zz"] [] Demo.self)
  = inl no_extend.
Proof. vm_compute. reflexivity. Qed.

Example no_language_no_stoplist :
  fst (Demo.build Demo.corpus "zou" 2%Z true false true true true [] []
         (__init__ None))
  = inl no_language.
Proof. vm_compute. reflexivity. Qed.

Example negative_size_counts_from_the_end :
  fst (Demo.build Demo.corpus "frequency" (-1)%Z false false true true true
         [] [] Demo.self)
  = inr (Py.PyList ["cc"; "bb"]).
Proof. vm_compute. reflexivity. Qed.

(** C2: [include] adds a term that is beyond [size] and outside the
    vocabulary. *)
Lemma build_stoplist_size_counterexample :
  Demo.build Demo.corpus "frequency" 1%Z true false true true true ["zz"] []
    Demo.self
  = (inr (Py.PyList ["cc"; "zz"]), Demo.fitted_self Demo.vocab)
  /\ ~ (Z.of_nat (List.length ["cc"; "zz"]) <= 1)%Z
  /\ ~ In "zz" Demo.vocab.
Proof.
  split; [vm_compute; reflexivity|]. split.
  - simpl. lia.
  - simpl. intros [H|[H|[H|[]]]]; discriminate.
Qed.

(** The amended C2 on that call. *)
Lemma build_stoplist_size_and_vocabulary_witness :
  Demo.build Demo.corpus "frequency" 1%Z true false true true true ["zz"] []
    Demo.self
  = (inr (Py.PyList ["cc"; "zz"]), Demo.fitted_self Demo.vocab)
  /\ (0 <= 1)%Z
  /\ exists vocab,
       vocabulary_ (vectorizer (Demo.fitted_self Demo.vocab)) = Some vocab
       /\ In "frequency" supported_bases
       /\ (Z.of_nat (List.length ["cc"; "zz"])
           <= 1 + Z.of_nat (List.length ["zz"]))%Z
       /\ (forall t, In t ["cc"; "zz"] -> In t vocab \/ In t ["zz"])
       /\ (["zz"] = [] ->
           (Z.of_nat (List.length ["cc"; "zz"]) <= 1)%Z
           /\ forall t, In t ["cc"; "zz"] -> In t vocab).
Proof.
  assert (E : Demo.build Demo.corpus "frequency" 1%Z true false true true
                true ["zz"] [] Demo.self
              = (inr (Py.PyList ["cc"; "zz"]), Demo.fitted_self Demo.vocab))
    by (vm_compute; reflexivity).
  split; [exact E|]. split; [lia|].
  apply (build_stoplist_size_and_vocabulary Demo.log10_table
           Demo.insertion_order Demo.sk_count Demo.sk_tfidf Demo.corpus
           "frequency" 1%Z true false true true true ["zz"] [] Demo.self
           (Py.PyList ["cc"; "zz"]) (Demo.fitted_self Demo.vocab) E).
  lia.
Defined.

(** C4: what is computed for a term of the same probability in each
    document is a sum, not a product.  Six cells of 0.1 add up to 0.6,
    which is one unit in the last place below 6 * 0.1. *)
Lemma entropy_spec_counterexample :
  Forall (fun row => nth 1 row nan = Demo.tenth) Demo.six_documents
  /\ (Demo.tenth
      * Demo.log10_at_ten (1 / Demo.tenth))%float = Demo.tenth
  /\ nth 1 (Float64._get_entropies Demo.log10_at_ten Demo.six_documents) nan
     = 0x1.3333333333333p-1%float
  /\ (6 * (Demo.tenth * Demo.log10_at_ten (1 / Demo.tenth)))%float
     = 0x1.3333333333334p-1%float
  /\ PrimFloat.eqb
       (nth 1 (Float64._get_entropies Demo.log10_at_ten Demo.six_documents)
          nan)
       (6 * (Demo.tenth * Demo.log10_at_ten (1 / Demo.tenth)))%float
     = false.
Proof.
  split; [repeat constructor|].
  repeat split; vm_compute; reflexivity.
Qed.

(** The amended C4 on these six documents. *)
Lemma entropy_spec_witness :
  Demo.six_documents <> [] /\ rectangular 2 Demo.six_documents /\ 1 < 2
  /\ (2 <= 2 \/ List.length Demo.six_documents < 8)
  /\ nth 1 (Float64._get_entropies Demo.log10_at_ten Demo.six_documents) nan
     = Float64.running_sum
         (repeat (Float64.entropy_cell Demo.log10_at_ten Demo.tenth) 6).
Proof.
  assert (H1 : Demo.six_documents <> []) by discriminate.
  assert (H2 : rectangular 2 Demo.six_documents) by (repeat constructor).
  assert (H3 : 1 < 2) by lia.
  assert (H4 : 2 <= 2 \/ List.length Demo.six_documents < 8) by (left; lia).
  split; [exact H1|]. split; [exact H2|]. split; [exact H3|].
  split; [exact H4|].
  apply (proj2 (proj2 (entropy_spec Demo.log10_at_ten Demo.six_documents 2
                         1 H1 H2 H3 H4)) Demo.tenth).
  intros row Hin. unfold Demo.six_documents in Hin.
  apply repeat_spec in Hin. now subst row.
Defined.




(** C6: the zou basis with [inc_counts] returns a list. *)
Lemma build_stoplist_zou_inc_counts_counterexample :
  Demo.build Demo.corpus "zou" 2%Z true true true true true [] [] Demo.self
  = (inr (Py.PyList ["bb"; "cc"]), Demo.fitted_self Demo.vocab).
Proof. vm_compute. reflexivity. Qed.

(** The amended C6 on that call. *)
Lemma build_stoplist_zou_inc_counts_witness :
  language Demo.self = Some "latin"
  /\ Demo.sk_count (preprocess true true true Demo.corpus)
     = inr (Demo.dtm, Demo.vocab)
  /\ Demo.sk_tfidf (preprocess true true true Demo.corpus)
     = inr (Demo.tfidf, Demo.vocab)
  /\ exists l,
       Demo.build Demo.corpus "zou" 2%Z true true true true true [] []
         Demo.self
       = (inr (Py.PyList l), Demo.fitted_self Demo.vocab)
       /\ Demo.build Demo.corpus "zou" 2%Z true false true true true [] []
            Demo.self
          = (inr (Py.PyList l), Demo.fitted_self Demo.vocab).
Proof.
  assert (H1 : language Demo.self = Some "latin") by reflexivity.
  assert (H2 : Demo.sk_count (preprocess true true true Demo.corpus)
               = inr (Demo.dtm, Demo.vocab)) by (vm_compute; reflexivity).
  assert (H3 : Demo.sk_tfidf (preprocess true true true Demo.corpus)
               = inr (Demo.tfidf, Demo.vocab)) by (vm_compute; reflexivity).
  split; [exact H1|]. split; [exact H2|]. split; [exact H3|].
  exact (build_stoplist_zou_inc_counts Demo.log10_table Demo.insertion_order
           Demo.sk_count Demo.sk_tfidf Demo.corpus 2%Z true true true true
           [] [] Demo.self "latin" Demo.dtm Demo.vocab Demo.tfidf Demo.vocab
           H1 H2 H3).
Defined.

(** C7: a document without tokens does not stop the call, and its
    probabilities are not finite. *)
Lemma build_stoplist_no_length_check_counterexample :
  _get_raw_lengths (preprocess true true true Demo.corpus_blank) = [2; 0]
  /\ Demo.build_blank Demo.corpus_blank "frequency" 10%Z true false true
       true true [] [] Demo.self
     = (inr (Py.PyList ["aa"; "bb"]), Demo.fitted_self Demo.vocab_blank)
  /\ _get_probabilities Demo.dtm_blank (_get_length_array [2; 0])
     = [[Fin (Demo.q 1 2); Fin (Demo.q 1 2)]; [NonFinite; NonFinite]].
Proof. repeat split; vm_compute; reflexivity. Qed.

(** The amended C7 on the same corpus, for the mean basis. *)
Lemma build_stoplist_no_length_check_witness :
  language Demo.self = Some "latin"
  /\ Demo.sk_count_blank (preprocess true true true Demo.corpus_blank)
     = inr (Demo.dtm_blank, Demo.vocab_blank)
  /\ Demo.sk_tfidf_blank (preprocess true true true Demo.corpus_blank)
     = inr (Demo.tfidf_blank, Demo.vocab_blank)
  /\ In "mean" supported_bases
  /\ ("mean" = "entropy" -> @nil string = [] \/ @nil string <> [])
  /\ exists result,
       Demo.build_blank Demo.corpus_blank "mean" 10%Z true false true true
         true [] [] Demo.self
       = (inr result, Demo.fitted_self Demo.vocab_blank).
Proof.
  assert (H1 : language Demo.self = Some "latin") by reflexivity.
  assert (H2 : Demo.sk_count_blank
                 (preprocess true true true Demo.corpus_blank)
               = inr (Demo.dtm_blank, Demo.vocab_blank))
    by (vm_compute; reflexivity).
  assert (H3 : Demo.sk_tfidf_blank
                 (preprocess true true true Demo.corpus_blank)
               = inr (Demo.tfidf_blank, Demo.vocab_blank))
    by (vm_compute; reflexivity).
  assert (H4 : In "mean" supported_bases) by (simpl; tauto).
  assert (H5 : "mean" = "entropy" -> @nil string = [] \/ @nil string <> [])
    by (intros _; now left).
  split; [exact H1|]. split; [exact H2|]. split; [exact H3|].
  split; [exact H4|]. split; [exact H5|].
  exact (proj1 (build_stoplist_no_length_check Demo.log10_table
                  Demo.insertion_order Demo.sk_count_blank
                  Demo.sk_tfidf_blank Demo.corpus_blank "mean" 10%Z true
                  false true true true [] [] Demo.self "latin"
                  Demo.dtm_blank Demo.vocab_blank Demo.tfidf_blank
                  Demo.vocab_blank H1 H2 H3 H4 H5)).
Defined.

(** C8: a term of both lists is removed, then appended again. *)
Lemma build_stoplist_excluded_counterexample :
  Demo.build Demo.corpus "frequency" 2%Z true false true true true ["cc"]
    ["cc"] Demo.self
  = (inr (Py.PyList ["bb"; "cc"]), Demo.fitted_self Demo.vocab)
  /\ In "cc" ["bb"; "cc"]
  /\ In "cc" ["cc"].
Proof.
  split; [vm_compute; reflexivity|]. split; simpl; tauto.
Qed.

(** The amended C8 on a call without [include]. *)
Lemma build_stoplist_excluded_witness :
  Demo.build Demo.corpus "frequency" 2%Z false false true true true []
    ["cc"] Demo.self
  = (inr (Py.PyList ["bb"]), Demo.fitted_self Demo.vocab)
  /\ forall t, In t ["bb"] -> ~ In t ["cc"].
Proof.
  assert (E : Demo.build Demo.corpus "frequency" 2%Z false false true true
                true [] ["cc"] Demo.self
              = (inr (Py.PyList ["bb"]), Demo.fitted_self Demo.vocab))
    by (vm_compute; reflexivity).
  split; [exact E|].
  exact (proj2 (build_stoplist_excluded Demo.log10_table
                  Demo.insertion_order Demo.sk_count Demo.sk_tfidf
                  Demo.corpus "frequency" 2%Z false false true true true []
                  ["cc"] Demo.self (Py.PyList ["bb"])
                  (Demo.fitted_self Demo.vocab) E) eq_refl).
Defined.

(** C9: the terms of [include] are appended in the order of [include],
    here a term of frequency 2 before a term of frequency 3. *)
Lemma build_stoplist_order_counterexample :
  Demo.build Demo.corpus "frequency" 1%Z false false true true true
    ["aa"; "bb"] [] Demo.self
  = (inr (Py.PyList ["cc"; "aa"; "bb"]), Demo.fitted_self Demo.vocab)
  /\ term_score Demo.vocab (frequency_measure Demo.dtm) "aa"
     = Some (Np.of_nat 2)
  /\ term_score Demo.vocab (frequency_measure Demo.dtm) "bb"
     = Some (Np.of_nat 3)
  /\ ~ StronglySorted
         (descends_by score_le
            (term_score Demo.vocab (frequency_measure Demo.dtm)))
         ["cc"; "aa"; "bb"].
Proof.
  assert (Ha : term_score Demo.vocab (frequency_measure Demo.dtm) "aa"
               = Some (Np.of_nat 2)) by (vm_compute; reflexivity).
  assert (Hb : term_score Demo.vocab (frequency_measure Demo.dtm) "bb"
               = Some (Np.of_nat 3)) by (vm_compute; reflexivity).
  split; [vm_compute; reflexivity|].
  split; [exact Ha|]. split; [exact Hb|].
  intros Hs. apply StronglySorted_inv in Hs. destruct Hs as [Hs _].
  apply StronglySorted_inv in Hs. destruct Hs as [_ Hs].
  apply Forall_inv in Hs. unfold descends_by in Hs. rewrite Ha, Hb in Hs.
  destruct Hs as (x & y & Hx & Hy & Hxy).
  injection Hx as <-. injection Hy as <-.
  revert Hxy. vm_compute. intros H. now apply H.
Qed.

(** The amended C9 on the variance basis. *)
Lemma build_stoplist_order_witness :
  Demo.build Demo.corpus "variance" 3%Z false false true true true [] []
    Demo.self
  = (inr (Py.PyList ["cc"; "bb"; "aa"]), Demo.fitted_self Demo.vocab)
  /\ exists measure l,
       single_basis_measure "variance" Demo.dtm (map (map Fin) Demo.tfidf)
         (_get_raw_lengths (preprocess true true true Demo.corpus))
         (List.length (preprocess true true true Demo.corpus))
       = Some measure
       /\ Py.PyList ["cc"; "bb"; "aa"] = Py.PyList l
       /\ StronglySorted
            (descends_by score_le (term_score Demo.vocab measure)) l.
Proof.
  assert (E : Demo.build Demo.corpus "variance" 3%Z false false true true
                true [] [] Demo.self
              = (inr (Py.PyList ["cc"; "bb"; "aa"]),
                 Demo.fitted_self Demo.vocab))
    by (vm_compute; reflexivity).
  split; [exact E|].
  eexists. 
  assert (Hm : single_basis_measure "variance" Demo.dtm
                 (map (map Fin) Demo.tfidf)
                 (_get_raw_lengths (preprocess true true true Demo.corpus))
                 (List.length (preprocess true true true Demo.corpus))
               = Some (_get_variance_probabilities
                         (background_probabilities Demo.dtm
                            (_get_raw_lengths
                               (preprocess true true true Demo.corpus)))
                         (_get_probabilities Demo.dtm
                            (_get_length_array
                               (_get_raw_lengths
                                  (preprocess true true true Demo.corpus))))
                         (List.length
                            (preprocess true true true Demo.corpus))))
    by reflexivity.
  destruct (proj2 (build_stoplist_order Demo.log10_table Demo.insertion_order
                     Demo.sk_count Demo.sk_tfidf Demo.corpus "variance" 3%Z
                     false false true true true [] [] Demo.self
                     (Py.PyList ["cc"; "bb"; "aa"])
                     (Demo.fitted_self Demo.vocab) E)
              eq_refl eq_refl Demo.dtm Demo.vocab Demo.tfidf Demo.vocab _
              ltac:(vm_compute; reflexivity) ltac:(vm_compute; reflexivity)
              Hm
              ltac:(repeat constructor; simpl; intuition discriminate)
              ltac:(right; right; repeat constructor; vm_compute; lia))
    as (l & Hl & Hs).
  exists l. split; [exact Hm|]. split; [exact Hl | exact Hs].
Defined.

(** * Further properties *)

(** ** Preprocessing and tokens *)

Lemma chars_lower (s : string) :
  chars (PyStr.lower s) = map PyStr.char_lower (chars s).
Proof. induction s as [|c s IH]; simpl; [reflexivity|]. now rewrite IH. Qed.

Lemma chars_translate (table s : string) :
  chars (PyStr.translate_to_space table s)
  = map (fun c => if PyStr.mem_char c table then " "%char else c) (chars s).
Proof. induction s as [|c s IH]; simpl; [reflexivity|]. now rewrite IH. Qed.

Lemma chars_inj (s t : string) : chars s = chars t -> s = t.
Proof.
  intros H. rewrite <- (string_of_list_ascii_of_string s).
  rewrite <- (string_of_list_ascii_of_string t). unfold chars in H.
  now rewrite H.
Qed.

Lemma chars_length (s : string) : List.length (chars s) = String.length s.
Proof. induction s as [|c s IH]; simpl; [reflexivity|]. now rewrite IH. Qed.

Lemma char_lower_not_upper (c : ascii) :
  PyStr.is_upper (nat_of_ascii (PyStr.char_lower c)) = false.
Proof. destruct c as [[] [] [] [] [] [] [] []]; reflexivity. Qed.

Lemma char_lower_fixed (c : ascii) :
  PyStr.is_upper (nat_of_ascii c) = false -> PyStr.char_lower c = c.
Proof. unfold PyStr.char_lower. now intros ->. Qed.

Lemma preprocess_is_map (lower remove_punctuation remove_numbers : bool)
  (texts : list string) :
  preprocess lower remove_punctuation remove_numbers texts
  = map (preprocess_text lower remove_punctuation remove_numbers) texts.
Proof.
  unfold preprocess, preprocess_text.
  destruct lower, remove_punctuation, remove_numbers;
    rewrite ?map_map, ?map_id; reflexivity.
Qed.

(** The character that preprocessing puts in the place of [c]. *)
Lemma chars_preprocess_text (lower remove_punctuation remove_numbers : bool)
  (text : string) :
  chars (preprocess_text lower remove_punctuation remove_numbers text)
  = map (fun c =>
           let c := if lower then PyStr.char_lower c else c in
           let c :=
             if remove_punctuation && PyStr.mem_char c punctuation
             then " "%char else c in
           if remove_numbers && PyStr.mem_char c digits
           then " "%char else c)
        (chars text).
Proof.
  unfold preprocess_text.
  destruct lower, remove_punctuation, remove_numbers; cbv zeta;
    rewrite ?chars_translate, ?chars_lower, ?map_map; simpl;
    try reflexivity; now rewrite map_id.
Qed.

Lemma preprocess_char_clean (lower remove_punctuation remove_numbers : bool)
  (c : ascii) :
  let c := if lower then PyStr.char_lower c else c in
  let c :=
    if remove_punctuation && PyStr.mem_char c punctuation
    then " "%char else c in
  let c :=
    if remove_numbers && PyStr.mem_char c digits then " "%char else c in
  (if lower then negb (PyStr.is_upper (nat_of_ascii c)) else true)
  && (if remove_punctuation then negb (PyStr.mem_char c punctuation)
      else true)
  && (if remove_numbers then negb (PyStr.mem_char c digits) else true)
  = true.
Proof.
  destruct lower, remove_punctuation, remove_numbers,
    c as [[] [] [] [] [] [] [] []]; vm_compute; reflexivity.
Qed.

(** X1.  Preprocessing keeps the number of texts; the two translations
    replace one character by one character, so that without [lower] the
    length of each text is kept too.  It leaves no character that a
    requested step changes: none that lower-casing changes with [lower],
    none of the punctuation table with [remove_punctuation], no digit with
    [remove_numbers]. *)
Theorem preprocess_clean (lower remove_punctuation remove_numbers : bool)
  (texts : list string) :
  let texts' := preprocess lower remove_punctuation remove_numbers texts in
  List.length texts' = List.length texts
  /\ (lower = false ->
      map String.length texts' = map String.length texts)
  /\ (forall t c,
        In t texts' -> In c (chars t) ->
        (lower = true -> PyStr.char_lower c = c)
        /\ (remove_punctuation = true -> PyStr.mem_char c punctuation = false)
        /\ (remove_numbers = true -> PyStr.mem_char c digits = false)).
Proof.
  intro texts'. unfold texts'. rewrite preprocess_is_map.
  split; [apply length_map|]. split.
  - intros _. rewrite map_map. apply map_ext. intro t.
    rewrite <- !chars_length, chars_preprocess_text. apply length_map.
  - intros t c Ht Hc. apply in_map_iff in Ht. destruct Ht as (t0 & <- & _).
    rewrite chars_preprocess_text in Hc. apply in_map_iff in Hc.
    destruct Hc as (c0 & <- & _).
    pose proof (preprocess_char_clean lower remove_punctuation
                  remove_numbers c0) as H.
    cbv zeta in *. apply andb_prop in H. destruct H as [H H3].
    apply andb_prop in H. destruct H as [H1 H2].
    repeat split; intros ->; [apply negb_true_iff in H1
                             |apply negb_true_iff in H2
                             |apply negb_true_iff in H3]; try assumption.
    now apply char_lower_fixed.
Qed.

Lemma preprocess_char_idem (lower remove_punctuation remove_numbers : bool)
  (c : ascii) :
  let g := fun c =>
    let c := if lower then PyStr.char_lower c else c in
    let c :=
      if remove_punctuation && PyStr.mem_char c punctuation
      then " "%char else c in
    if remove_numbers && PyStr.mem_char c digits then " "%char else c in
  g (g c) = g c.
Proof.
  destruct lower, remove_punctuation, remove_numbers,
    c as [[] [] [] [] [] [] [] []]; vm_compute; reflexivity.
Qed.

(** X2.  Preprocessing is idempotent: a corpus that has been preprocessed
    is left as it is by a second pass with the same options. *)
Theorem preprocess_idempotent
  (lower remove_punctuation remove_numbers : bool) (texts : list string) :
  preprocess lower remove_punctuation remove_numbers
    (preprocess lower remove_punctuation remove_numbers texts)
  = preprocess lower remove_punctuation remove_numbers texts.
Proof.
  rewrite !preprocess_is_map, map_map. apply map_ext. intro t.
  apply chars_inj. rewrite !chars_preprocess_text, map_map.
  apply map_ext. intro c.
  apply (preprocess_char_idem lower remove_punctuation remove_numbers c).
Qed.

Lemma split_concat (s : string) :
  List.concat (map chars (Tokens.split s))
  = filter (fun c => negb (PyStr.is_space c)) (chars s).
Proof.
  induction s as [|c s IH]; [reflexivity|].
  cbn [Tokens.split chars list_ascii_of_string filter].
  fold (chars s). destruct (PyStr.is_space c); cbn [negb]; [exact IH|].
  rewrite <- IH.
  destruct (Tokens.starts_token s); [|reflexivity].
  destruct (Tokens.split s); reflexivity.
Qed.

Lemma split_tokens (s : string) :
  Forall (fun t => t <> EmptyString
                   /\ Forall (fun c => PyStr.is_space c = false) (chars t))
    (Tokens.split s).
Proof.
  induction s as [|c s IH]; [constructor|].
  cbn [Tokens.split]. destruct (PyStr.is_space c) eqn:E; [exact IH|].
  assert (H1 : String c EmptyString <> EmptyString
               /\ Forall (fun c => PyStr.is_space c = false)
                    (chars (String c EmptyString))).
  { split; [discriminate|]. repeat constructor. exact E. }
  destruct (Tokens.starts_token s).
  - destruct (Tokens.split s) as [|t ts]; [now constructor|].
    inversion IH as [|? ? [_ Ht] Hts]; subst. constructor; [|exact Hts].
    split; [discriminate|]. now constructor.
  - now constructor.
Qed.

Lemma split_length_both (s : string) :
  PyStr.count_tokens false s = List.length (Tokens.split s)
  /\ PyStr.count_tokens true s + (if Tokens.starts_token s then 1 else 0)
     = List.length (Tokens.split s).
Proof.
  induction s as [|c s [IH1 IH2]]; [split; reflexivity|].
  cbn [PyStr.count_tokens Tokens.split Tokens.starts_token].
  destruct (PyStr.is_space c); cbn [negb]; [split; lia|].
  destruct (Tokens.starts_token s).
  - destruct (Tokens.split s) as [|t ts]; simpl in *; split; lia.
  - simpl in *. split; lia.
Qed.

Lemma split_length (s : string) :
  PyStr.split_len s = List.length (Tokens.split s).
Proof. apply split_length_both. Qed.

Lemma split_nil_blank (s : string) : Tokens.split s = [] <-> blank s.
Proof.
  unfold blank. split.
  - intros H c Hc. pose proof (split_concat s) as E. rewrite H in E.
    simpl in E. destruct (PyStr.is_space c) eqn:Ec; [reflexivity|].
    assert (Hin : In c (filter (fun c => negb (PyStr.is_space c)) (chars s))).
    { apply filter_In. split; [exact Hc|]. now rewrite Ec. }
    rewrite <- E in Hin. destruct Hin.
  - intros H. pose proof (split_concat s) as E.
    pose proof (split_tokens s) as Ht.
    destruct (Tokens.split s) as [|t ts]; [reflexivity|].
    exfalso. inversion Ht as [|? ? [Hne Hsp] _]; subst.
    destruct t as [|c t]; [now apply Hne|].
    assert (Hin : In c (List.concat (map chars (String c t :: ts)))).
    { simpl. now left. }
    rewrite E in Hin. apply filter_In in Hin. destruct Hin as [Hin Hc].
    rewrite (H c Hin) in Hc. discriminate.
Qed.

(** X3.  The raw length of a text is the number of its tokens, the maximal
    runs of non-blank characters; it is 0 exactly for a text that holds
    blank characters only (the empty text among them). *)
Theorem raw_lengths_count_tokens (texts : list string) :
  _get_raw_lengths texts
  = map (fun text => List.length (Tokens.split text)) texts
  /\ (forall d text,
        nth_error texts d = Some text ->
        (nth_error (_get_raw_lengths texts) d = Some 0 <-> blank text)).
Proof.
  split.
  - unfold _get_raw_lengths. apply map_ext. apply split_length.
  - intros d text H. unfold _get_raw_lengths.
    rewrite nth_error_map, H. simpl. rewrite split_length.
    rewrite <- split_nil_blank. split.
    + intros E. injection E as E. now apply length_zero_iff_nil.
    + intros ->. reflexivity.
Qed.

(** ** The measures, term by term *)

Lemma sum_axis0_length {A : Type} (plus : A -> A -> A) (M : nat)
  (m : list (list A)) :
  m <> [] -> rectangular M m -> List.length (Np.sum_axis0 plus m) = M.
Proof.
  intros Hm Hrect. destruct m as [|r rs]; [congruence|]. clear Hm.
  unfold Np.sum_axis0, rectangular in *.
  pose proof (Forall_inv Hrect) as Hr.
  pose proof (Forall_inv_tail Hrect) as Hrs. cbv beta in Hr. clear Hrect.
  revert r Hr. induction Hrs as [|r' rs Hr' Hrs IH]; intros r Hr; simpl;
    [exact Hr|].
  apply IH. rewrite map2_length; lia.
Qed.

Lemma nat_sum_axis0_nth (M j : nat) (m : list (list nat)) :
  m <> [] -> rectangular M m -> j < M ->
  nth j (Np.sum_axis0 Nat.add m) 0 = list_sum (nat_column j m).
Proof.
  intros Hm Hrect Hj. destruct m as [|r rs]; [congruence|]. clear Hm.
  unfold Np.sum_axis0, rectangular in *.
  pose proof (Forall_inv Hrect) as Hr.
  pose proof (Forall_inv_tail Hrect) as Hrs. cbv beta in Hr. clear Hrect.
  simpl nat_column. simpl list_sum.
  revert r Hr. induction Hrs as [|r' rs Hr' Hrs IH]; intros r Hr; simpl;
    [lia|].
  rewrite IH by (rewrite map2_length; lia).
  rewrite (map2_nth Nat.add r r' j 0 0 0) by lia. lia.
Qed.

Lemma probabilities_rectangular (M : nat) (dtm : list (list nat))
  (raw_lengths : list nat) :
  rectangular M dtm ->
  rectangular M (_get_probabilities dtm (_get_length_array raw_lengths)).
Proof.
  unfold rectangular, _get_probabilities, _get_length_array,
    Np.int_matrix_div_column.
  intros H. revert raw_lengths. induction H as [|row dtm Hrow Hdtm IH];
    intros [|n raw]; cbn [Np.map2 map]; constructor.
  - now rewrite length_map.
  - apply IH.
Qed.

Lemma probabilities_length (dtm : list (list nat)) (raw_lengths : list nat) :
  List.length dtm = List.length raw_lengths ->
  List.length (_get_probabilities dtm (_get_length_array raw_lengths))
  = List.length dtm.
Proof.
  intros H. unfold _get_probabilities, Np.int_matrix_div_column.
  apply map2_length. unfold _get_length_array. now rewrite length_map.
Qed.

(** X4.  With one length per row of the matrix of counts, the matrix of
    probabilities has the shape of the matrix of counts, and the
    probability of a term in a document of positive length is the count
    divided by the length. *)
Theorem probabilities_spec (dtm : list (list nat)) (raw_lengths : list nat) :
  List.length dtm = List.length raw_lengths ->
  let P := _get_probabilities dtm (_get_length_array raw_lengths) in
  List.length P = List.length dtm
  /\ (forall M, rectangular M dtm -> rectangular M P)
  /\ (forall d row n,
        nth_error dtm d = Some row ->
        nth_error raw_lengths d = Some n ->
        0 < n ->
        nth_error P d
        = Some (map (fun c => Fin (Np.Qc_of_nat c / Np.Qc_of_nat n)%Qc) row)).
Proof.
  intros Hlen P. split; [now apply probabilities_length|].
  split; [intros M; apply probabilities_rectangular|].
  intros d row n Hrow Hn Hpos. unfold P, _get_probabilities.
  unfold Np.int_matrix_div_column.
  erewrite map2_nth_error; [|exact Hrow|].
  2:{ unfold _get_length_array. rewrite nth_error_map, Hn. reflexivity. }
  f_equal. apply map_ext. intro c. cbn [nth]. unfold Np.of_nat.
  apply div_finite. now apply Qc_of_nat_neq0.
Qed.

(** X5.  The frequency of the term of column [j] is the sum of its counts
    over the documents, and the frequencies are as many as the columns. *)
Theorem frequency_measure_spec (M j : nat) (dtm : list (list nat)) :
  dtm <> [] -> rectangular M dtm -> j < M ->
  List.length (frequency_measure dtm) = M
  /\ nth j (frequency_measure dtm) NonFinite
     = Np.of_nat (list_sum (nat_column j dtm)).
Proof.
  intros Hne Hrect Hj. unfold frequency_measure. split.
  - rewrite length_map. now apply sum_axis0_length.
  - rewrite <- (nat_sum_axis0_nth M j dtm Hne Hrect Hj).
    rewrite (nth_indep _ NonFinite (Np.of_nat 0)).
    + apply map_nth.
    + rewrite length_map, (sum_axis0_length Nat.add M); assumption.
Qed.

(** X6.  The mean probability of the term of column [j] is the sum of its
    probabilities over the documents, divided by [N]; there is one mean per
    column. *)
Theorem mean_probabilities_spec (P : list (list num)) (M N j : nat) :
  P <> [] -> rectangular M P -> j < M ->
  List.length (_get_mean_probabilities P N) = M
  /\ nth j (_get_mean_probabilities P N) NonFinite
     = Np.div (num_sum (column j P)) (Np.of_nat N).
Proof.
  intros Hne Hrect Hj. unfold _get_mean_probabilities, Np.div_scalar. split.
  - rewrite length_map. now apply sum_axis0_length.
  - rewrite <- (sum_axis0_nth M j P Hne Hrect Hj).
    now rewrite <- (map_nth (fun s => Np.div s (Np.of_nat N))).
Qed.

Lemma column_map2 (f : num -> num -> num) (M j : nat)
  (A B : list (list num)) :
  rectangular M A -> rectangular M B -> j < M ->
  List.length A = List.length B ->
  column j (Np.map2 (Np.map2 f) A B) = Np.map2 f (column j A) (column j B).
Proof.
  unfold rectangular, column. intros HA. revert B.
  induction HA as [|a A Ha HA IH]; intros [|b B] HB Hj Hlen;
    simpl in *; try reflexivity; try discriminate.
  pose proof (Forall_inv HB) as Hb. pose proof (Forall_inv_tail HB) as HB'.
  cbv beta in Hb. f_equal.
  - apply map2_nth; lia.
  - apply IH; auto.
Qed.

Lemma map2_rectangular (f : num -> num -> num) (M : nat)
  (A B : list (list num)) :
  rectangular M A -> rectangular M B ->
  rectangular M (Np.map2 (Np.map2 f) A B).
Proof.
  unfold rectangular. intros HA. revert B.
  induction HA as [|a A Ha HA IH]; intros [|b B] HB; simpl; constructor.
  - pose proof (Forall_inv HB) as Hb. cbv beta in Hb.
    rewrite map2_length; lia.
  - apply IH. now apply Forall_inv_tail in HB.
Qed.

(** X7.  The variance of the term of column [j] is the sum, over the
    documents, of the squared differences between its probability and its
    background probability, divided by [N]. *)
Theorem variance_probabilities_spec (bP P : list (list num)) (M N j : nat) :
  P <> [] -> rectangular M P -> rectangular M bP ->
  List.length P = List.length bP -> j < M ->
  List.length (_get_variance_probabilities bP P N) = M
  /\ nth j (_get_variance_probabilities bP P N) NonFinite
     = Np.div
         (num_sum
            (Np.map2 (fun p b => Np.square (Np.sub p b))
               (column j P) (column j bP)))
         (Np.of_nat N).
Proof.
  intros Hne HP HbP Hlen Hj.
  unfold _get_variance_probabilities, Np.div_scalar.
  set (variance := Np.map2 (Np.map2 (fun p b => Np.square (Np.sub p b))) P bP).
  assert (Hv : rectangular M variance) by now apply map2_rectangular.
  assert (Hvne : variance <> []).
  { unfold variance. destruct P, bP; simpl in *; congruence. }
  split.
  - rewrite length_map. now apply sum_axis0_length.
  - rewrite <- (column_map2 _ M j P bP HP HbP Hj Hlen). fold variance.
    rewrite <- (sum_axis0_nth M j variance Hvne Hv Hj).
    now rewrite <- (map_nth (fun s => Np.div s (Np.of_nat N))).
Qed.

Lemma Qc_square_nonneg (a : Qc) : (0 <= a * a)%Qc.
Proof.
  unfold Qcle. change (0 <= Qred (a * a))%Q. rewrite Qred_correct.
  generalize (this a). intros [n d]. unfold Qle. cbn [Qmult Qnum Qden].
  rewrite Z.mul_0_l, Z.mul_1_r. apply Z.square_nonneg.
Qed.

Lemma Qc_div_nonneg (x y : Qc) : (0 <= x -> 0 <= y -> 0 <= x / y)%Qc.
Proof.
  unfold Qcle. intros Hx Hy.
  change (0 <= Qred (x * Qred (/ y)))%Q. rewrite !Qred_correct.
  apply Qmult_le_0_compat; [exact Hx|]. now apply Qinv_le_0_compat.
Qed.

Lemma Qc_of_nat_nonneg (n : nat) : (0 <= Np.Qc_of_nat n)%Qc.
Proof.
  unfold Qcle, Np.Qc_of_nat.
  change (0 <= Qred (inject_Z (Z.of_nat n)))%Q. rewrite Qred_correct.
  unfold Qle. cbn [inject_Z Qnum Qden]. lia.
Qed.

Lemma add_not_negative (a b : num) :
  not_negative a -> not_negative b -> not_negative (Np.add a b).
Proof.
  destruct a as [x|], b as [y|]; simpl; auto. intros Hx Hy.
  replace 0%Qc with (0 + 0)%Qc by ring. now apply Qcplus_le_compat.
Qed.

Lemma map2_not_negative (r r' : list num) :
  Forall not_negative r -> Forall not_negative r' ->
  Forall not_negative (Np.map2 Np.add r r').
Proof.
  intros H. revert r'. induction H as [|a r Ha Hr IH]; intros r' H';
    [constructor|].
  destruct H' as [|b r' Hb Hr']; simpl; constructor.
  - now apply add_not_negative.
  - now apply IH.
Qed.

Lemma sum_axis0_not_negative (m : list (list num)) :
  Forall (Forall not_negative) m ->
  Forall not_negative (Np.sum_axis0 Np.add m).
Proof.
  intros H. destruct H as [|r rs Hr Hrs]; simpl; [constructor|].
  revert r Hr. induction Hrs as [|r' rs Hr' Hrs IH]; intros r Hr; simpl;
    [exact Hr|].
  apply IH. now apply map2_not_negative.
Qed.

Lemma squares_not_negative (P bP : list (list num)) :
  Forall (Forall not_negative)
    (Np.map2 (Np.map2 (fun p b => Np.square (Np.sub p b))) P bP).
Proof.
  revert bP. induction P as [|r P IH]; intros [|r' bP]; simpl;
    constructor; [|apply IH].
  revert r'. induction r as [|p r IHr]; intros [|b r']; simpl;
    constructor; [|apply IHr].
  destruct p as [x|], b as [y|]; simpl; auto. apply Qc_square_nonneg.
Qed.

(** X8.  No variance is negative, whatever the two matrices and [N]: every
    entry is a number that is at least 0, or not a finite number at all. *)
Theorem variance_probabilities_not_negative (bP P : list (list num))
  (N : nat) :
  Forall not_negative (_get_variance_probabilities bP P N).
Proof.
  unfold _get_variance_probabilities, Np.div_scalar. apply Forall_map.
  eapply Forall_impl;
    [|apply sum_axis0_not_negative, squares_not_negative].
  intros [x|] Hx; simpl; [|exact I].
  destruct (Np.Qc_eqb (Np.Qc_of_nat N) 0); simpl; [exact I|].
  apply Qc_div_nonneg; [exact Hx|apply Qc_of_nat_nonneg].
Qed.

(** ** Rankings *)

Lemma map_fst_combine {V : Type} (l : list string) (l' : list V) :
  List.length l = List.length l' -> map fst (combine l l') = l.
Proof.
  revert l'. induction l as [|x l IH]; intros [|y l'] H; simpl in *;
    try discriminate; [reflexivity|].
  f_equal. apply IH. lia.
Qed.

Lemma filter_map_fst {V : Type} (p : string -> bool) (l : list (string * V)) :
  filter p (map fst l) = map fst (filter (fun a => p (fst a)) l).
Proof.
  induction l as [|a l IH]; simpl; [reflexivity|].
  destruct (p (fst a)); simpl; now rewrite IH.
Qed.

Lemma Qc_ltb_irrefl (x : Qc) : Np.Qc_ltb x x = false.
Proof. apply Qc_ltb_ge, Qcle_refl. Qed.

(** X9.  With one score per term, the ranking by a measure is a rearrangement
    of the vocabulary; when the terms are distinct and the scores are
    numbers, terms of equal score keep the order of the vocabulary; when
    all the scores are the same number the ranking is the vocabulary
    itself. *)
Theorem combine_vocabulary_stable (vocab : list string) (measure : list num) :
  List.length vocab = List.length measure ->
  Permutation (_combine_vocabulary vocab measure) vocab
  /\ (NoDup vocab ->
      Forall (fun v => Np.is_finite v = true) measure ->
      forall x,
        filter (scored vocab measure x) (_combine_vocabulary vocab measure)
        = filter (scored vocab measure x) vocab)
  /\ (forall x, measure = map (fun _ => Fin x) vocab ->
        _combine_vocabulary vocab measure = vocab).
Proof.
  intros Hlen. unfold _combine_vocabulary.
  set (pairs := combine vocab measure).
  assert (Hfst : map fst pairs = vocab) by now apply map_fst_combine.
  split; [|split].
  - transitivity (map fst pairs); [|now rewrite Hfst].
    apply Permutation_map, sorted_rev_perm.
  - intros Hnd _ x.
    set (p := fun a : string * num =>
                match snd a with Fin q => Np.Qc_eqb q x | NonFinite => false end).
    assert (Hp : forall l, (forall a, In a l -> In a pairs) ->
              filter (fun a => scored vocab measure x (fst a)) l = filter p l).
    { intros l Hl. apply filter_ext_in. intros [t v] Hin.
      unfold scored, term_score, p. fold pairs. cbn [fst snd].
      rewrite (assoc_In_NoDup pairs t v); [reflexivity| |now apply Hl].
      rewrite Hfst. exact Hnd. }
    rewrite filter_map_fst, Hp by (intro a; apply sorted_rev_in).
    transitivity (filter (scored vocab measure x) (map fst pairs));
      [|now rewrite Hfst].
    rewrite filter_map_fst, Hp by auto.
    f_equal. apply sorted_rev_filter.
    intros [s u] [t v]. unfold p. cbn [snd].
    destruct u as [a|], v as [b|]; try discriminate.
    intros Ha Hb. apply Qc_eqb_eq in Ha, Hb. rewrite Ha, Hb. cbn [Np.ltb].
    apply Qc_ltb_irrefl.
  - intros x Hm.
    set (p := fun a : string * num =>
                match snd a with Fin q => Np.Qc_eqb q x | NonFinite => false end).
    assert (Hall : forall a, In a pairs -> p a = true).
    { intros [t v] Hin. unfold pairs in Hin. apply in_combine_r in Hin.
      rewrite Hm in Hin. apply in_map_iff in Hin. destruct Hin as (? & <- & _).
      unfold p. cbn [snd]. now apply Qc_eqb_eq. }
    assert (Hid : forall l, (forall a, In a l -> In a pairs) ->
              filter p l = l).
    { intros l Hl. apply forallb_filter_id. apply forallb_forall.
      intros a Ha. apply Hall. now apply Hl. }
    rewrite <- (Hid (Py.sorted_rev snd Np.ltb pairs))
      by (intro a; apply sorted_rev_in).
    rewrite (sorted_rev_filter snd Np.ltb p).
    + rewrite Hid by auto. exact Hfst.
    + intros [s u] [t v]. unfold p. cbn [snd].
      destruct u as [a|], v as [b|]; try discriminate.
      intros Ha Hb. apply Qc_eqb_eq in Ha, Hb. rewrite Ha, Hb. cbn [Np.ltb].
      apply Qc_ltb_irrefl.
Qed.

(** Two rearrangements of the same elements, one descending and one
    strictly descending by [f], are the same list. *)
Lemma descending_unique {A : Type} (f : A -> nat) (a b : list A) :
  Permutation a b ->
  StronglySorted (fun s t => f t <= f s) a ->
  StronglySorted (fun s t => f t < f s) b ->
  a = b.
Proof.
  intros Hp Ha Hb. revert a Hp Ha.
  induction Hb as [|y b Hb IH Hy]; intros a Hp Ha.
  - apply Permutation_sym, Permutation_nil in Hp. now subst.
  - destruct a as [|x a].
    { apply Permutation_nil in Hp. discriminate. }
    apply StronglySorted_inv in Ha. destruct Ha as [Ha Hx].
    assert (E : x = y).
    { assert (Hxb : In x (y :: b))
        by (apply (Permutation_in _ Hp); now left).
      assert (Hya : In y (x :: a))
        by (apply (Permutation_in _ (Permutation_sym Hp)); now left).
      destruct Hxb as [E|Hxb]; [now symmetry|].
      destruct Hya as [E|Hya]; [exact E|].
      apply (proj1 (Forall_forall _ _) Hy) in Hxb.
      apply (proj1 (Forall_forall _ _) Hx) in Hya. lia. }
    subst x. f_equal. apply IH; [|exact Ha].
    now apply Permutation_cons_inv in Hp.
Qed.

Lemma strictly_descending_by_rank {A : Type} (f : A -> nat) (l : list A) :
  (forall i j s t, i < j -> nth_error l i = Some s ->
     nth_error l j = Some t -> f t < f s) ->
  StronglySorted (fun s t => f t < f s) l.
Proof.
  induction l as [|x l IH]; intros H; constructor.
  - apply IH. intros i j s t Hij Hs Ht.
    apply (H (S i) (S j)); [lia|exact Hs|exact Ht].
  - apply Forall_forall. intros t Ht.
    apply In_nth_error in Ht. destruct Ht as [j Hj].
    apply (H 0 (S j)); [lia|reflexivity|exact Hj].
Qed.

Lemma borda_sort_sorted (lists : list (list string)) :
  StronglySorted (fun s t => borda_total lists t <= borda_total lists s)
    (_borda_sort lists).
Proof.
  unfold _borda_sort.
  apply (sorted_rev_sorted _ _ (fun _ => True)).
  - intros x y _ _ H. rewrite !borda_scores_get in H.
    apply Nat.ltb_lt in H. lia.
  - intros x y _ _ H. rewrite !borda_scores_get in H.
    now apply Nat.ltb_ge in H.
  - intros x y z _ _ _. lia.
  - apply Forall_forall. intros; exact I.
Qed.

Lemma borda_sort_NoDup (lists : list (list string)) :
  NoDup (_borda_sort lists).
Proof.
  apply (Permutation_NoDup (Permutation_sym (borda_sort_perm lists))).
  apply first_occurrences_NoDup.
Qed.

Lemma borda_total_unanimous (l : list string) (lists : list (list string))
  (t : string) :
  Forall (eq l) lists ->
  borda_total lists t = List.length lists * positional_score l t.
Proof.
  unfold borda_total. induction 1 as [|l' lists E H IH]; simpl; [reflexivity|].
  subst l'. rewrite IH. lia.
Qed.

(** X10.  When all the rankings are one and the same ranking of distinct
    terms, the Borda fusion returns that ranking. *)
Theorem borda_sort_unanimous (l : list string) (lists : list (list string)) :
  lists <> [] -> Forall (eq l) lists -> NoDup l ->
  _borda_sort lists = l.
Proof.
  intros Hne Hall Hnd.
  apply (descending_unique (borda_total lists)).
  - apply NoDup_Permutation; [apply borda_sort_NoDup|exact Hnd|].
    intro t. rewrite borda_sort_In. split.
    + intros (l' & Hl' & Ht).
      apply (proj1 (Forall_forall _ _) Hall) in Hl'. now subst.
    + intros Ht. exists l. split; [|exact Ht].
      destruct lists as [|l' lists]; [congruence|].
      apply Forall_inv in Hall. subst. now left.
  - apply borda_sort_sorted.
  - apply strictly_descending_by_rank. intros i j s t Hij Hs Ht.
    rewrite !(borda_total_unanimous l) by exact Hall.
    rewrite (positional_score_rank l i s Hnd Hs).
    rewrite (positional_score_rank l j t Hnd Ht).
    assert (j < List.length l) by (apply nth_error_Some; congruence).
    assert (0 < List.length lists) by (destruct lists; simpl; [congruence|lia]).
    apply Nat.mul_lt_mono_pos_l; lia.
Qed.

Lemma StronglySorted_app_inv {A : Type} (R : A -> A -> Prop)
  (a : list A) (x : A) (r : list A) (z : A) :
  StronglySorted R (a ++ x :: r) -> In z r -> R x z.
Proof.
  induction a as [|y a IH]; simpl; intros H Hz.
  - apply StronglySorted_inv in H. destruct H as [_ H].
    now apply (proj1 (Forall_forall _ _) H).
  - apply StronglySorted_inv in H. destruct H as [H _]. now apply IH.
Qed.

(** X11.  A term that stands above another in every one of the rankings
    (each without repetition) stands before it in the Borda fusion. *)
Theorem borda_sort_pareto (lists : list (list string)) (s t : string) :
  lists <> [] ->
  (forall l, In l lists -> NoDup l /\ ranks_above l s t) ->
  ranks_above (_borda_sort lists) s t.
Proof.
  intros Hne H.
  assert (Hlt : borda_total lists t < borda_total lists s).
  { unfold borda_total. destruct lists as [|l0 lists]; [congruence|].
    clear Hne.
    assert (H0 : positional_score l0 t < positional_score l0 s).
    { destruct (H l0 (or_introl eq_refl)) as (Hnd & i & j & Hij & Hs & Ht).
      rewrite (positional_score_rank l0 i s Hnd Hs).
      rewrite (positional_score_rank l0 j t Hnd Ht).
      assert (j < List.length l0) by (apply nth_error_Some; congruence).
      lia. }
    assert (Hle : list_sum (map (fun l => positional_score l t) lists)
                  <= list_sum (map (fun l => positional_score l s) lists)).
    { assert (H' : forall l, In l lists -> NoDup l /\ ranks_above l s t)
        by (intros l Hl; apply H; now right).
      clear H H0. induction lists as [|l lists IH]; simpl; [lia|].
      destruct (H' l (or_introl eq_refl)) as (Hnd & i & j & Hij & Hs & Ht).
      rewrite (positional_score_rank l i s Hnd Hs).
      rewrite (positional_score_rank l j t Hnd Ht).
      assert (IH' := IH (fun l Hl => H' l (or_intror Hl))). lia. }
    simpl. lia. }
  assert (Hin : forall u, (u = s \/ u = t) -> In u (_borda_sort lists)).
  { intros u Hu. apply borda_sort_In. destruct lists as [|l0 lists];
      [congruence|]. exists l0. split; [now left|].
    destruct (H l0 (or_introl eq_refl)) as (_ & i & j & _ & Hs & Ht).
    destruct Hu as [->| ->]; eapply nth_error_In; eassumption. }
  pose proof (Hin s (or_introl eq_refl)) as Hs.
  pose proof (Hin t (or_intror eq_refl)) as Ht.
  apply In_nth_error in Hs, Ht.
  destruct Hs as [i Hi], Ht as [j Hj].
  exists i, j. split; [|now split].
  destruct (Nat.lt_trichotomy i j) as [L|[E|G]]; [exact L| |].
  - exfalso. subst j. rewrite Hi in Hj. injection Hj as ->. lia.
  - exfalso.
    pose proof (borda_sort_sorted lists) as Hs.
    apply nth_error_split in Hj. destruct Hj as (a & r & Er & Ea).
    rewrite Er in Hs, Hi.
    assert (Hr : In s r).
    { rewrite nth_error_app2 in Hi by lia.
      destruct (i - List.length a) as [|k] eqn:Ek; [lia|].
      simpl in Hi. eapply nth_error_In; eassumption. }
    pose proof (StronglySorted_app_inv _ a t r s Hs Hr) as Hle.
    cbv beta in Hle. lia.
Qed.

(** ** The stoplist of a corpus, as a whole *)

Lemma NoDup_firstn {A : Type} (n : nat) (l : list A) :
  NoDup l -> NoDup (firstn n l).
Proof.
  intros H. rewrite <- (firstn_skipn n l) in H.
  now apply NoDup_app_remove_r in H.
Qed.

Lemma slice_to_NoDup {A : Type} (size : Z) (l : list A) :
  NoDup l -> NoDup (Py.slice_to size l).
Proof. unfold Py.slice_to. destruct (0 <=? size)%Z; apply NoDup_firstn. Qed.

Lemma slice_to_all {A : Type} (size : Z) (l : list A) :
  (Z.of_nat (List.length l) <= size)%Z -> Py.slice_to size l = l.
Proof.
  intros H. unfold Py.slice_to.
  destruct (0 <=? size)%Z eqn:E; [|apply Z.leb_gt in E; lia].
  apply firstn_all2. lia.
Qed.

Lemma combine_vocabulary_perm (vocab : list string) (measure : list num) :
  List.length vocab = List.length measure ->
  Permutation (_combine_vocabulary vocab measure) vocab.
Proof.
  intros Hlen. unfold _combine_vocabulary.
  transitivity (map fst (combine vocab measure)).
  - apply Permutation_map, sorted_rev_perm.
  - now rewrite map_fst_combine.
Qed.

Lemma combine_vocabulary_NoDup (vocab : list string) (measure : list num) :
  NoDup vocab -> NoDup (_combine_vocabulary vocab measure).
Proof.
  intros H. unfold _combine_vocabulary.
  eapply Permutation_NoDup.
  - apply Permutation_sym, Permutation_map, sorted_rev_perm.
  - now apply combine_fst_NoDup.
Qed.

Lemma set_iter_NoDup (so : Py.SetOrder) (l : list string) :
  NoDup (Py.set_iter so l).
Proof.
  eapply Permutation_NoDup.
  - apply Permutation_sym, Py.set_iter_perm.
  - apply NoDup_nodup.
Qed.

Lemma extend_not_in_NoDup (stops include : list string) :
  NoDup stops -> NoDup (extend_not_in stops include).
Proof.
  intros H. rewrite extend_not_in_spec. apply NoDup_app.
  - exact H.
  - apply first_occurrences_NoDup.
  - intros a Ha Hin. apply first_occurrences_In, filter_In in Hin.
    destruct Hin as [_ Hin]. apply negb_true_iff in Hin.
    now apply mem_not_In in Hin.
Qed.

Lemma select_basis_NoDup np_log10 set_order basis size dtm tfidf vocab
  raw_lengths P N stops :
  select_basis np_log10 set_order basis size dtm tfidf vocab raw_lengths P N
  = inr stops ->
  NoDup vocab -> NoDup (Py.elements stops).
Proof.
  unfold select_basis. intros H Hnd.
  repeat match type of H with
  | (if ?b then _ else _) = _ => destruct b
  end;
  try (injection H as <-; cbn [Py.elements];
       first [ apply slice_to_NoDup, combine_vocabulary_NoDup, Hnd
             | apply set_iter_NoDup
             | apply slice_to_NoDup, borda_sort_NoDup ]).
  discriminate.
Qed.

Lemma assemble_NoDup stops sort_words include exclude result :
  assemble stops sort_words include exclude = inr result ->
  NoDup (Py.elements stops) -> NoDup (Py.elements result).
Proof.
  unfold assemble. intros H Hnd.
  set (stops1 := match exclude with
                 | [] => stops
                 | _ :: _ => Py.PyList (remove_excluded (Py.elements stops) exclude)
                 end) in H.
  assert (H1 : NoDup (Py.elements stops1)).
  { unfold stops1. destruct exclude; [exact Hnd|]. cbn [Py.elements].
    unfold remove_excluded. now apply NoDup_filter. }
  clearbody stops1.
  assert (H2 : forall stops2,
            match include with
            | [] => inr stops1
            | _ :: _ =>
                match stops1 with
                | Py.PyList l => inr (Py.PyList (extend_not_in l include))
                | Py.PySet _ => inl no_extend
                end
            end = inr stops2 -> NoDup (Py.elements stops2)).
  { intros stops2 E. destruct include as [|i include].
    - injection E as <-. exact H1.
    - destruct stops1 as [l|s]; [|discriminate]. injection E as <-.
      apply (extend_not_in_NoDup l (i :: include)). exact H1. }
  destruct (match include with [] => _ | _ => _ end) as [e|stops2];
    [discriminate|].
  specialize (H2 stops2 eq_refl).
  destruct sort_words; injection H as <-; [|exact H2].
  cbn [Py.elements].
  eapply Permutation_NoDup; [apply Permutation_sym, sorted_str_perm|exact H2].
Qed.

Lemma assemble_includes stops sort_words include exclude result t :
  assemble stops sort_words include exclude = inr result ->
  In t include -> In t (Py.elements result).
Proof.
  unfold assemble. intros H Hin.
  destruct include as [|i include]; [destruct Hin|].
  destruct (match exclude with [] => stops | _ => _ end) as [l|l];
    [|discriminate].
  destruct sort_words; injection H as <-.
  - change (In t (Py.sorted_str (extend_not_in l (i :: include)))).
    apply sorted_str_In, extend_not_in_In. now right.
  - change (In t (extend_not_in l (i :: include))).
    apply extend_not_in_In. now right.
Qed.

(** Two rearrangements of the same strings in ascending order are the same
    list. *)
Lemma ascending_unique (a b : list string) :
  Permutation a b ->
  StronglySorted (fun s t => String.leb s t = true) a ->
  StronglySorted (fun s t => String.leb s t = true) b ->
  a = b.
Proof.
  intros Hp Ha Hb. revert a Hp Ha.
  induction Hb as [|y b Hb IH Hy]; intros a Hp Ha.
  - apply Permutation_sym, Permutation_nil in Hp. now subst.
  - destruct a as [|x a].
    { apply Permutation_nil in Hp. discriminate. }
    apply StronglySorted_inv in Ha. destruct Ha as [Ha Hx].
    assert (E : x = y).
    { assert (Hxb : In x (y :: b))
        by (apply (Permutation_in _ Hp); now left).
      assert (Hya : In y (x :: a))
        by (apply (Permutation_in _ (Permutation_sym Hp)); now left).
      destruct Hxb as [E|Hxb]; [now symmetry|].
      destruct Hya as [E|Hya]; [exact E|].
      apply (proj1 (Forall_forall _ _) Hy) in Hxb.
      apply (proj1 (Forall_forall _ _) Hx) in Hya.
      apply leb_iff in Hxb, Hya.
      destruct Hxb as [E|L1]; [now symmetry|].
      destruct Hya as [E|L2]; [exact E|].
      exfalso. apply (String_as_OT.lt_not_eq x x); [|reflexivity].
      eapply String_as_OT.lt_trans; eassumption. }
    subst x. f_equal. apply IH; [|exact Ha].
    now apply Permutation_cons_inv in Hp.
Qed.

Lemma sorted_str_perm_eq (a b : list string) :
  Permutation a b -> Py.sorted_str a = Py.sorted_str b.
Proof.
  intros H. apply ascending_unique; try apply sorted_str_sorted.
  rewrite !sorted_str_perm. exact H.
Qed.

Lemma mem_perm (x : string) (a b : list string) :
  Permutation a b -> Py.mem x a = Py.mem x b.
Proof.
  intros H. destruct (Py.mem x b) eqn:E.
  - apply mem_In. apply mem_In in E.
    now apply (Permutation_in _ (Permutation_sym H)).
  - apply mem_not_In. apply mem_not_In in E. intro Hin. apply E.
    now apply (Permutation_in _ H).
Qed.

Lemma extend_not_in_perm (a b include : list string) :
  Permutation a b ->
  Permutation (extend_not_in a include) (extend_not_in b include).
Proof.
  intros H. rewrite !extend_not_in_spec.
  rewrite (filter_ext (fun y => negb (Py.mem y a))
             (fun y => negb (Py.mem y b))).
  - now apply Permutation_app_tail.
  - intro y. f_equal. now apply mem_perm.
Qed.

Lemma remove_excluded_perm (a b exclude : list string) :
  Permutation a b ->
  Permutation (remove_excluded a exclude) (remove_excluded b exclude).
Proof.
  unfold remove_excluded. induction 1; simpl.
  - constructor.
  - destruct (negb _); [now constructor|assumption].
  - destruct (negb (Py.mem x exclude)), (negb (Py.mem y exclude));
      try apply Permutation_refl. apply perm_swap.
  - etransitivity; eassumption.
Qed.

(** With [sort_words] the iteration order of a set does not show. *)
Lemma assemble_set_sorted (a b : list string) include exclude :
  Permutation a b ->
  assemble (Py.PySet a) true include exclude
  = assemble (Py.PySet b) true include exclude.
Proof.
  intros H. unfold assemble. destruct exclude as [|e exclude].
  - destruct include; [|reflexivity]. cbn [Py.elements].
    f_equal. f_equal. now apply sorted_str_perm_eq.
  - cbn [Py.elements].
    assert (Hr := remove_excluded_perm a b (e :: exclude) H).
    destruct include as [|i include]; cbn [Py.elements]; f_equal; f_equal;
      apply sorted_str_perm_eq; [exact Hr|].
    now apply extend_not_in_perm.
Qed.

(** The shapes of the measures. *)
Section MeasureShapes.
Variable np_log10 : Qc -> Qc.
Variables (M : nat) (dtm : list (list nat)) (raw_lengths : list nat).
Hypothesis dtm_rows : dtm <> [].
Hypothesis dtm_columns : rectangular M dtm.
Hypothesis one_length_per_row : List.length dtm = List.length raw_lengths.

Local Abbreviation P :=
  (_get_probabilities dtm (_get_length_array raw_lengths)).

Lemma probabilities_rows : P <> [].
Proof.
  intro E. apply (f_equal (@List.length _)) in E.
  rewrite probabilities_length in E by exact one_length_per_row.
  destruct dtm; [congruence|discriminate].
Qed.

Lemma frequency_measure_length : List.length (frequency_measure dtm) = M.
Proof.
  unfold frequency_measure. rewrite length_map.
  now apply sum_axis0_length.
Qed.

Lemma mean_probabilities_length (N : nat) :
  List.length (_get_mean_probabilities P N) = M.
Proof.
  unfold _get_mean_probabilities, Np.div_scalar. rewrite length_map.
  apply sum_axis0_length;
    [apply probabilities_rows|now apply probabilities_rectangular].
Qed.

Lemma map2_rows {A B C : Type} (f : A -> B -> C) (a : list A) (b : list B) :
  a <> [] -> b <> [] -> Np.map2 f a b <> [].
Proof. destruct a, b; simpl; congruence. Qed.

Lemma variance_probabilities_length (N : nat) :
  List.length
    (_get_variance_probabilities
       (background_probabilities dtm raw_lengths) P N) = M.
Proof.
  unfold _get_variance_probabilities, Np.div_scalar. rewrite length_map.
  apply sum_axis0_length.
  - apply map2_rows; [apply probabilities_rows|].
    unfold background_probabilities, Np.int_matrix_div_scalar.
    destruct dtm; [congruence|discriminate].
  - apply map2_rectangular; [now apply probabilities_rectangular|].
    unfold background_probabilities, Np.int_matrix_div_scalar, rectangular.
    apply Forall_map. eapply Forall_impl; [|exact dtm_columns].
    intros row Hrow. now rewrite length_map.
Qed.

Lemma entropies_length :
  List.length (_get_entropies np_log10 P) = M.
Proof.
  unfold _get_entropies.
  assert (HP : rectangular M P) by now apply probabilities_rectangular.
  apply sum_axis0_length.
  - apply map2_rows; [apply probabilities_rows|].
    intro E. apply map_eq_nil in E. now apply probabilities_rows.
  - apply map2_rectangular; [exact HP|].
    unfold rectangular. apply Forall_map.
    eapply Forall_impl; [|exact HP].
    intros row Hrow. now rewrite length_map.
Qed.
End MeasureShapes.

Lemma tfidf_measure_length (M : nat) (tfidf : list (list Qc)) :
  tfidf <> [] -> rectangular M tfidf ->
  List.length (tfidf_measure (map (map Fin) tfidf)) = M.
Proof.
  intros Hne Hrect. unfold tfidf_measure. apply sum_axis0_length.
  - intro E. now apply map_eq_nil in E.
  - unfold rectangular in *. apply Forall_map.
    eapply Forall_impl; [|exact Hrect].
    intros row Hrow. now rewrite length_map.
Qed.

Lemma preprocess_length lower remove_punctuation remove_numbers texts :
  List.length (preprocess lower remove_punctuation remove_numbers texts)
  = List.length texts.
Proof. rewrite preprocess_is_map. apply length_map. Qed.

Lemma combine_vocabulary_whole (size : Z) (vocab : list string)
  (measure : list num) :
  List.length measure = List.length vocab ->
  (Z.of_nat (List.length vocab) <= size)%Z ->
  Permutation (Py.slice_to size (_combine_vocabulary vocab measure)) vocab.
Proof.
  intros Hlen Hsize.
  assert (Hp := combine_vocabulary_perm vocab measure (eq_sym Hlen)).
  rewrite slice_to_all; [exact Hp|].
  now rewrite (Permutation_length Hp).
Qed.

Lemma assemble_plain (stops : Py.collection) (sort_words : bool) :
  assemble stops sort_words [] []
  = inr (if sort_words then Py.PyList (Py.sorted_str (Py.elements stops))
         else stops).
Proof. unfold assemble. now destruct sort_words. Qed.

Lemma assemble_sort stops include exclude result :
  assemble stops false include exclude = inr result ->
  assemble stops true include exclude
  = inr (Py.PyList (Py.sorted_str (Py.elements result))).
Proof.
  unfold assemble.
  destruct (match include with [] => _ | _ => _ end) as [e|stops2];
    [discriminate|].
  now intros [= <-].
Qed.

Section BuildProperties.
Variable np_log10 : Qc -> Qc.
Variable set_order : Py.SetOrder.
Variable sk_count : list string -> exn + (list (list nat) * list string).
Variable sk_tfidf : list string -> exn + (list (list Qc) * list string).

Local Abbreviation build :=
  (build_stoplist np_log10 set_order sk_count sk_tfidf).

(** X12.  Whenever [build_stoplist] returns, every term of [include] is in
    the result, and the result holds no term twice if the vocabulary of the
    vectorizer holds none twice. *)
Theorem build_stoplist_includes texts basis size sort_words inc_counts lower
  remove_punctuation remove_numbers include exclude self result self' :
  build texts basis size sort_words inc_counts lower remove_punctuation
    remove_numbers include exclude self = (inr result, self') ->
  (forall t, In t include -> In t (Py.elements result))
  /\ (forall vocab,
        vocabulary_ (vectorizer self') = Some vocab ->
        NoDup vocab -> NoDup (Py.elements result)).
Proof.
  intros E. apply build_stoplist_inr in E.
  destruct E as (dtm & vocab & tfidf & tvocab & stops & _ & _ & -> & Es & Ea).
  split.
  - intros t Ht. eapply assemble_includes; eassumption.
  - intros vocab' [= <-] Hnd.
    eapply assemble_NoDup; [exact Ea|].
    eapply select_basis_NoDup; eassumption.
Qed.

(** X13.  With the entropy basis, a non-empty [include] and an empty
    [exclude], the call fails once the vectorizers are fitted: the stop
    words are a set, and a set cannot be extended. *)
Theorem build_stoplist_entropy_include texts size sort_words inc_counts lower
  remove_punctuation remove_numbers include self lang dtm vocab tfidf
  tvocab :
  let texts' := preprocess lower remove_punctuation remove_numbers texts in
  language self = Some lang ->
  sk_count texts' = inr (dtm, vocab) ->
  sk_tfidf texts' = inr (tfidf, tvocab) ->
  include <> [] ->
  build texts "entropy" size sort_words inc_counts lower remove_punctuation
    remove_numbers include [] self
  = (inl no_extend, fitted self vocab tvocab).
Proof.
  intros texts' Hl Hc Ht Hi. rewrite build_stoplist_unfold. cbv zeta.
  fold texts'. rewrite Hl, Hc, Ht, select_basis_entropy.
  destruct include as [|i include]; [congruence|]. reflexivity.
Qed.

(** X14.  When the size is at least the number of terms and nothing is
    included or excluded, every supported basis returns the whole
    vocabulary, rearranged. *)
Theorem build_stoplist_whole_vocabulary texts basis size sort_words
  inc_counts lower remove_punctuation remove_numbers self lang dtm vocab
  tfidf tvocab :
  let texts' := preprocess lower remove_punctuation remove_numbers texts in
  language self = Some lang ->
  sk_count texts' = inr (dtm, vocab) ->
  sk_tfidf texts' = inr (tfidf, tvocab) ->
  In basis supported_bases ->
  NoDup vocab ->
  texts <> [] ->
  List.length dtm = List.length texts ->
  rectangular (List.length vocab) dtm ->
  List.length tfidf = List.length texts ->
  rectangular (List.length vocab) tfidf ->
  (Z.of_nat (List.length vocab) <= size)%Z ->
  exists result,
    build texts basis size sort_words inc_counts lower remove_punctuation
      remove_numbers [] [] self
    = (inr result, fitted self vocab tvocab)
    /\ Permutation (Py.elements result) vocab.
Proof.
  intros texts' Hl Hc Ht Hb Hnd Hne Hdl Hdr Htl Htr Hsize.
  rewrite build_stoplist_unfold. cbv zeta. fold texts'.
  rewrite Hl, Hc, Ht.
  set (raw := _get_raw_lengths texts').
  assert (Hraw : List.length dtm = List.length raw).
  { unfold raw, _get_raw_lengths, texts'.
    now rewrite length_map, preprocess_length. }
  assert (Hd : dtm <> []).
  { destruct dtm; [|discriminate]. destruct texts; [congruence|discriminate]. }
  assert (Htn : tfidf <> []).
  { destruct tfidf; [|discriminate].
    destruct texts; [congruence|discriminate]. }
  pose proof (mean_probabilities_length _ dtm raw Hd Hdr Hraw
                (List.length texts')) as Hmean.
  pose proof (variance_probabilities_length _ dtm raw Hd Hdr Hraw
                (List.length texts')) as Hvar.
  pose proof (entropies_length np_log10 _ dtm raw Hd Hdr Hraw) as Hent.
  assert (Hstops : exists stops,
            select_basis np_log10 set_order basis size dtm
              (map (map Fin) tfidf) vocab raw
              (_get_probabilities dtm (_get_length_array raw))
              (List.length texts') = inr stops
            /\ Permutation (Py.elements stops) vocab).
  { simpl in Hb. destruct Hb as [<-|[<-|[<-|[<-|[<-|[<-|[]]]]]]].
    - rewrite select_basis_frequency. eexists. split; [reflexivity|].
      apply combine_vocabulary_whole; [|exact Hsize].
      now apply frequency_measure_length.
    - rewrite select_basis_tfidf. eexists. split; [reflexivity|].
      apply combine_vocabulary_whole; [|exact Hsize].
      now apply tfidf_measure_length.
    - rewrite select_basis_mean. eexists. split; [reflexivity|].
      now apply combine_vocabulary_whole.
    - rewrite select_basis_variance. eexists. split; [reflexivity|].
      now apply combine_vocabulary_whole.
    - rewrite select_basis_entropy. eexists. split; [reflexivity|].
      cbn [Py.elements]. rewrite Py.set_iter_perm.
      rewrite nodup_fixed_point.
      + now apply combine_vocabulary_whole.
      + apply slice_to_NoDup, combine_vocabulary_NoDup, Hnd.
    - rewrite select_basis_zou. eexists. split; [reflexivity|].
      cbn [Py.elements].
      match goal with |- Permutation (Py.slice_to _ ?b) _ =>
        assert (Hp : Permutation b vocab) end.
      { apply NoDup_Permutation; [apply borda_sort_NoDup|exact Hnd|].
        intro t. rewrite borda_sort_In. split.
        - intros (l & Hin & Ht'). simpl in Hin.
          destruct Hin as [<-|[<-|[<-|[]]]];
            eapply combine_vocabulary_In; eassumption.
        - intros Hin. eexists. split; [now left|].
          eapply Permutation_in; [|exact Hin].
          apply Permutation_sym, combine_vocabulary_perm.
          now rewrite Hmean. }
      rewrite slice_to_all; [exact Hp|].
      now rewrite (Permutation_length Hp). }
  destruct Hstops as (stops & -> & Hp).
  rewrite assemble_plain. eexists. split; [reflexivity|].
  destruct sort_words; [|exact Hp].
  cbn [Py.elements]. now rewrite sorted_str_perm.
Qed.

(** X15.  With [sort_words], the result does not depend on the order in
    which Python iterates over a set; without it, only the entropy basis
    can show that order. *)
Theorem build_stoplist_set_order (other_order : Py.SetOrder) texts basis size
  sort_words inc_counts lower remove_punctuation remove_numbers include
  exclude self :
  build texts basis size true inc_counts lower remove_punctuation
    remove_numbers include exclude self
  = build_stoplist np_log10 other_order sk_count sk_tfidf texts basis size
      true inc_counts lower remove_punctuation remove_numbers include
      exclude self
  /\ (basis <> "entropy" ->
      build texts basis size sort_words inc_counts lower remove_punctuation
        remove_numbers include exclude self
      = build_stoplist np_log10 other_order sk_count sk_tfidf texts basis
          size sort_words inc_counts lower remove_punctuation remove_numbers
          include exclude self).
Proof.
  rewrite !build_stoplist_unfold. cbv zeta.
  destruct (language self); [|split; reflexivity].
  destruct (sk_count _) as [e|[dtm vocab]]; [split; reflexivity|].
  destruct (sk_tfidf _) as [e|[tfidf tvocab]]; [split; reflexivity|].
  unfold select_basis.
  destruct (String.eqb_spec basis "frequency"); [split; reflexivity|].
  destruct (String.eqb_spec basis "tfidf"); [split; reflexivity|].
  destruct (String.eqb_spec basis "mean"); [split; reflexivity|].
  destruct (String.eqb_spec basis "variance"); [split; reflexivity|].
  destruct (String.eqb_spec basis "entropy"); [|split; reflexivity].
  split; [|congruence].
  f_equal. apply assemble_set_sorted.
  rewrite !Py.set_iter_perm. apply Permutation_refl.
Qed.

(** X16.  Sorting is the last step: when the call returns without
    [sort_words], it returns with [sort_words] the same terms in ascending
    order, and leaves the object in the same state. *)
Theorem build_stoplist_sort_words texts basis size inc_counts lower
  remove_punctuation remove_numbers include exclude self result self' :
  build texts basis size false inc_counts lower remove_punctuation
    remove_numbers include exclude self = (inr result, self') ->
  build texts basis size true inc_counts lower remove_punctuation
    remove_numbers include exclude self
  = (inr (Py.PyList (Py.sorted_str (Py.elements result))), self')
  /\ Permutation (Py.sorted_str (Py.elements result)) (Py.elements result)
  /\ StronglySorted (fun s t => String.leb s t = true)
       (Py.sorted_str (Py.elements result)).
Proof.
  intros E. split; [|split; [apply sorted_str_perm|apply sorted_str_sorted]].
  rewrite build_stoplist_unfold in *. cbv zeta in *.
  destruct (language self); [|discriminate].
  destruct (sk_count _) as [e|[dtm vocab]]; [discriminate|].
  destruct (sk_tfidf _) as [e|[tfidf tvocab]]; [discriminate|].
  destruct (select_basis _ _ _ _ _ _ _ _ _ _) as [e|stops]; [discriminate|].
  injection E as Ea <-. now rewrite (assemble_sort _ _ _ _ Ea).
Qed.

(** X17.  An object made without a language, or with the empty string for
    one, has no [language] attribute, and [build_stoplist] fails on it
    before it looks at any of its arguments; any other language is kept in
    lower case. *)
Theorem build_stoplist_without_language texts basis size sort_words
  inc_counts lower remove_punctuation remove_numbers include exclude :
  build texts basis size sort_words inc_counts lower remove_punctuation
    remove_numbers include exclude (__init__ None)
  = (inl no_language, __init__ None)
  /\ build texts basis size sort_words inc_counts lower remove_punctuation
       remove_numbers include exclude (__init__ (Some ""))
     = (inl no_language, __init__ (Some ""))
  /\ (forall lang, lang <> "" ->
        language (__init__ (Some lang)) = Some (PyStr.lower lang)).
Proof.
  split; [|split].
  - now rewrite build_stoplist_unfold.
  - now rewrite build_stoplist_unfold.
  - intros [|c s] H; [congruence|reflexivity].
Qed.

End BuildProperties.

(** ** The stoplist of a single text *)

Lemma counter_loop_keys (tokens : list string) (c : Py.dict nat) :
  Py.dict_keys
    (fold_left
       (fun c elem => Py.dict_set elem (Py.dict_get 0 elem c + 1) c)
       tokens c)
  = extend_not_in (Py.dict_keys c) tokens.
Proof.
  revert c. induction tokens as [|x tokens IH]; intro c; [reflexivity|].
  cbn [fold_left]. rewrite IH, dict_keys_set, dict_mem_keys.
  reflexivity.
Qed.

Lemma counter_loop_get (tokens : list string) (c : Py.dict nat)
  (w : string) :
  Py.dict_get 0 w
    (fold_left
       (fun c elem => Py.dict_set elem (Py.dict_get 0 elem c + 1) c)
       tokens c)
  = Py.dict_get 0 w c + occurrences w tokens.
Proof.
  unfold occurrences.
  revert c. induction tokens as [|x tokens IH]; intro c; [simpl; lia|].
  cbn [fold_left count_occ]. rewrite IH, dict_get_set.
  destruct (string_dec x w) as [E|N].
  - subst x. rewrite String.eqb_refl. lia.
  - destruct (String.eqb_spec w x); [congruence|lia].
Qed.

Lemma counter_keys (tokens : list string) :
  Py.dict_keys (StringStoplist.Counter tokens) = first_occurrences tokens.
Proof.
  unfold StringStoplist.Counter. rewrite counter_loop_keys.
  rewrite extend_not_in_spec. cbn [Py.dict_keys map app].
  f_equal. apply forallb_filter_id. apply forallb_forall. reflexivity.
Qed.

Lemma counter_get (tokens : list string) (w : string) :
  Py.dict_get 0 w (StringStoplist.Counter tokens) = occurrences w tokens.
Proof. unfold StringStoplist.Counter. now rewrite counter_loop_get. Qed.

Lemma dict_get_In {V : Type} (dflt : V) (d : Py.dict V) (k : string)
  (v : V) :
  NoDup (Py.dict_keys d) -> In (k, v) d -> Py.dict_get dflt k d = v.
Proof.
  unfold Py.dict_keys.
  induction d as [|[k' v'] d IH]; simpl; [tauto|].
  intros Hnd [E|Hin].
  - injection E as -> ->. now rewrite String.eqb_refl.
  - inversion Hnd as [|? ? Hk Hnd']; subst.
    destruct (String.eqb_spec k k') as [->|_]; [|now apply IH].
    exfalso. apply Hk. apply in_map_iff. now exists (k', v).
Qed.

Lemma counter_NoDup (tokens : list string) :
  NoDup (map fst (StringStoplist.Counter tokens)).
Proof.
  change (NoDup (Py.dict_keys (StringStoplist.Counter tokens))).
  rewrite counter_keys. apply first_occurrences_NoDup.
Qed.

Lemma counter_items (tokens : list string) (w : string) (n : nat) :
  In (w, n) (StringStoplist.Counter tokens)
  <-> In w tokens /\ n = occurrences w tokens.
Proof.
  split.
  - intros H. split.
    + apply first_occurrences_In. rewrite <- counter_keys.
      unfold Py.dict_keys. apply in_map_iff. now exists (w, n).
    + rewrite <- counter_get. symmetry.
      apply dict_get_In; [apply counter_NoDup|exact H].
  - intros [Hw ->].
    apply first_occurrences_In in Hw. rewrite <- counter_keys in Hw.
    unfold Py.dict_keys in Hw. apply in_map_iff in Hw.
    destruct Hw as ([w' n] & E & Hin). cbn [fst] in E. subst w'.
    replace (occurrences w tokens) with n; [exact Hin|].
    rewrite <- counter_get. symmetry.
    apply dict_get_In; [apply counter_NoDup|exact Hin].
Qed.

Lemma occurrences_positive (w : string) (tokens : list string) :
  In w tokens -> 0 < occurrences w tokens.
Proof. apply count_occ_In. Qed.

(** The ranking from which [most_common] takes its items. *)
Lemma ranking_sorted (c : Py.dict nat) :
  StronglySorted (fun a b => snd b <= snd a) (Py.sorted_rev snd Nat.ltb c).
Proof.
  apply (sorted_rev_sorted _ _ (fun _ => True)).
  - intros x y _ _ H. apply Nat.ltb_lt in H. lia.
  - intros x y _ _ H. now apply Nat.ltb_ge in H.
  - intros x y z _ _ _. lia.
  - apply Forall_forall. intros; exact I.
Qed.

Lemma sorted_perm {A K : Type} (key : A -> K) (lt : K -> K -> bool)
  (l : list A) :
  Permutation (Py.sorted key lt l) l.
Proof. rewrite sorted_as_sorted_rev. apply sorted_rev_perm. Qed.

Lemma ltb_iff (s t : string) :
  String.ltb s t = true <-> String_as_OT.lt s t.
Proof.
  unfold String.ltb. rewrite <- String_as_OT.cmp_lt.
  unfold String_as_OT.cmp. destruct (String.compare s t); split; congruence.
Qed.

Lemma sorted_by_word (l : list (string * nat)) :
  NoDup (map fst l) ->
  StronglySorted (fun a b => String.ltb (fst a) (fst b) = true)
    (Py.sorted fst String.ltb l).
Proof.
  intros Hnd.
  assert (Hs : StronglySorted
                 (fun a b => String.leb (fst a) (fst b) = true)
                 (Py.sorted fst String.ltb l)).
  { rewrite sorted_as_sorted_rev.
    apply (sorted_rev_sorted _ _ (fun _ => True)).
    - intros x y _ _ H. unfold String.ltb in H. unfold String.leb.
      destruct (String.compare (fst y) (fst x)); congruence.
    - intros x y _ _ H. unfold String.ltb in H. unfold String.leb.
      rewrite String.compare_antisym.
      destruct (String.compare (fst y) (fst x)); simpl; congruence.
    - intros x y z _ _ _. apply leb_trans.
    - apply Forall_forall. intros; exact I. }
  assert (Hnd' : NoDup (map fst (Py.sorted fst String.ltb l))).
  { eapply Permutation_NoDup; [|exact Hnd].
    apply Permutation_sym, Permutation_map, sorted_perm. }
  revert Hs Hnd'. generalize (Py.sorted fst String.ltb l). intro m.
  induction 1 as [|x m Hm IH Hx]; intro Hnd'; constructor.
  - apply IH. now inversion Hnd'.
  - inversion Hnd' as [|? ? Hnotin _]; subst.
    apply Forall_forall. intros y Hy.
    apply (proj1 (Forall_forall _ _) Hx) in Hy as Hle.
    apply leb_iff in Hle. destruct Hle as [E|L]; [|now apply ltb_iff].
    exfalso. apply Hnotin. rewrite E. now apply in_map.
Qed.

Lemma StronglySorted_app_both {A : Type} (R : A -> A -> Prop)
  (a b : list A) (x y : A) :
  StronglySorted R (a ++ b) -> In x a -> In y b -> R x y.
Proof.
  intros H Hx Hy. apply in_split in Hx. destruct Hx as (a1 & a2 & ->).
  rewrite <- app_assoc in H. cbn [app] in H.
  eapply StronglySorted_app_inv; [exact H|].
  apply in_or_app. now right.
Qed.

(** The list of pairs behind the result, when [include] is empty. *)
Lemma string_build_stoplist_unfold text size sort_words inc_counts lower
  remove_punctuation remove_numbers exclude :
  StringStoplist.build_stoplist text size sort_words inc_counts lower
    remove_punctuation remove_numbers [] exclude
  = let tokens := tokens_of lower remove_punctuation remove_numbers text in
    let stops := StringStoplist.most_common size
                   (StringStoplist.Counter tokens) in
    let stops :=
      if sort_words then Py.sorted fst String.ltb stops else stops in
    let stops :=
      filter (fun item => negb (Py.mem (fst item) exclude)) stops in
    inr (if inc_counts then StringStoplist.Counts stops
         else StringStoplist.Words (map fst stops)).
Proof.
  unfold StringStoplist.build_stoplist, tokens_of. cbv zeta.
  destruct exclude as [|e exclude].
  - rewrite (forallb_filter_id
               (fun item : string * nat => negb (Py.mem (fst item) []))).
    + now destruct inc_counts.
    + apply forallb_forall. reflexivity.
  - now destruct inc_counts.
Qed.

(** X19.  A non-empty [include] always makes the call fail, for the stop
    words are a list and the code asks for its keys; with an empty
    [include] the call returns, and the words it returns without
    [inc_counts] are those of the pairs it returns with it. *)
Theorem string_stoplist_include text size sort_words inc_counts lower
  remove_punctuation remove_numbers include exclude :
  (include <> [] ->
   StringStoplist.build_stoplist text size sort_words inc_counts lower
     remove_punctuation remove_numbers include exclude
   = inl StringStoplist.no_keys)
  /\ (include = [] ->
      exists l,
        StringStoplist.build_stoplist text size sort_words true lower
          remove_punctuation remove_numbers include exclude
        = inr (StringStoplist.Counts l)
        /\ StringStoplist.build_stoplist text size sort_words false lower
             remove_punctuation remove_numbers include exclude
           = inr (StringStoplist.Words (map fst l))).
Proof.
  split.
  - intros H. unfold StringStoplist.build_stoplist.
    destruct include; [congruence|reflexivity].
  - intros ->. rewrite !string_build_stoplist_unfold. cbv zeta.
    eexists. split; reflexivity.
Qed.

(** X20.  Every pair returned holds a token of the preprocessed text, which
    is not excluded, with the number of its occurrences; no word is
    returned twice; at most [size] pairs are returned, and none when
    [size] is not positive. *)
Theorem string_stoplist_counts text size sort_words lower remove_punctuation
  remove_numbers exclude l :
  StringStoplist.build_stoplist text size sort_words true lower
    remove_punctuation remove_numbers [] exclude
  = inr (StringStoplist.Counts l) ->
  let tokens := tokens_of lower remove_punctuation remove_numbers text in
  (forall w n, In (w, n) l ->
     In w tokens /\ n = occurrences w tokens /\ 0 < n /\ ~ In w exclude)
  /\ NoDup (map fst l)
  /\ (Z.of_nat (List.length l) <= Z.max 0 size)%Z.
Proof.
  intros E tokens. rewrite string_build_stoplist_unfold in E.
  cbv zeta in E. fold tokens in E. injection E as <-.
  set (R := Py.sorted_rev snd Nat.ltb (StringStoplist.Counter tokens)).
  set (stops0 := StringStoplist.most_common size
                   (StringStoplist.Counter tokens)).
  set (stops1 := if sort_words then Py.sorted fst String.ltb stops0
                 else stops0).
  assert (Hp : Permutation stops1 stops0).
  { unfold stops1. destruct sort_words; [apply sorted_perm|reflexivity]. }
  assert (H0 : forall a, In a stops0 ->
                 In a (StringStoplist.Counter tokens)).
  { intros a Ha. apply In_firstn in Ha. now apply sorted_rev_in in Ha. }
  split; [|split].
  - intros w n Hin. apply filter_In in Hin. destruct Hin as [Hin Hex].
    apply (Permutation_in _ Hp), H0, counter_items in Hin.
    destruct Hin as [Hw ->]. cbn [fst] in Hex.
    apply negb_true_iff, mem_not_In in Hex.
    repeat split; auto. now apply occurrences_positive.
  - assert (Hnd : NoDup (map fst stops1)).
    { eapply Permutation_NoDup;
        [apply Permutation_sym, Permutation_map, Hp|].
      unfold stops0, StringStoplist.most_common.
      rewrite <- firstn_map. apply NoDup_firstn.
      eapply Permutation_NoDup;
        [apply Permutation_sym, Permutation_map, sorted_rev_perm|].
      apply counter_NoDup. }
    revert Hnd. generalize stops1. intro m.
    induction m as [|a m IH]; simpl; intro Hnd; [constructor|].
    inversion Hnd as [|? ? Hnotin Hnd']; subst.
    destruct (negb _); simpl; [|now apply IH].
    constructor; [|now apply IH].
    intro Hin. apply Hnotin. apply in_map_iff in Hin.
    destruct Hin as (b & E & Hb). apply filter_In in Hb.
    apply in_map_iff. exists b. tauto.
  - etransitivity.
    + apply inj_le, filter_length_le.
    + rewrite (Permutation_length Hp). unfold stops0,
        StringStoplist.most_common.
      rewrite length_firstn. lia.
Qed.

(** X21.  The words returned are the most frequent ones: a token that is
    neither returned nor excluded occurs no more often than any word
    returned. *)
Theorem string_stoplist_most_common text size sort_words lower
  remove_punctuation remove_numbers exclude l :
  StringStoplist.build_stoplist text size sort_words true lower
    remove_punctuation remove_numbers [] exclude
  = inr (StringStoplist.Counts l) ->
  let tokens := tokens_of lower remove_punctuation remove_numbers text in
  forall w w' n',
    In w tokens -> ~ In w (map fst l) -> ~ In w exclude ->
    In (w', n') l ->
    occurrences w tokens <= n'.
Proof.
  intros E tokens. rewrite string_build_stoplist_unfold in E.
  cbv zeta in E. fold tokens in E. injection E as <-.
  intros w w' n' Hw Hnot Hex Hin.
  set (K := Z.to_nat size).
  set (R := Py.sorted_rev snd Nat.ltb (StringStoplist.Counter tokens)).
  fold R in Hnot, Hin.
  unfold StringStoplist.most_common in Hnot, Hin. fold K R in Hnot, Hin.
  set (stops1 := if sort_words then Py.sorted fst String.ltb (firstn K R)
                 else firstn K R) in *.
  assert (Hp : Permutation stops1 (firstn K R)).
  { unfold stops1. destruct sort_words; [apply sorted_perm|reflexivity]. }
  assert (HwR : In (w, occurrences w tokens) R).
  { apply sorted_rev_in, counter_items. now split. }
  rewrite <- (firstn_skipn K R) in HwR. apply in_app_or in HwR.
  destruct HwR as [Hfirst|Hskip].
  - exfalso. apply Hnot. apply in_map_iff.
    exists (w, occurrences w tokens). split; [reflexivity|].
    apply filter_In. split.
    + now apply (Permutation_in _ (Permutation_sym Hp)).
    + cbn [fst]. now apply negb_true_iff, mem_not_In.
  - apply filter_In in Hin. destruct Hin as [Hin _].
    apply (Permutation_in _ Hp) in Hin.
    pose proof (ranking_sorted (StringStoplist.Counter tokens)) as Hs.
    fold R in Hs. rewrite <- (firstn_skipn K R) in Hs.
    exact (StronglySorted_app_both _ _ _ _ _ Hs Hin Hskip).
Qed.

Lemma filter_split_inv {A : Type} (p : A -> bool) (l a' r' : list A)
  (x : A) :
  filter p l = a' ++ x :: r' ->
  exists a r, l = a ++ x :: r /\ filter p a = a' /\ filter p r = r'.
Proof.
  revert a'. induction l as [|y l IH]; intros a' H; simpl in H.
  - destruct a'; discriminate.
  - destruct (p y) eqn:E.
    + destruct a' as [|z a'']; simpl in H; injection H as -> H.
      * exists [], l. now repeat split.
      * destruct (IH a'' H) as (a & r & -> & Ha & Hr).
        exists (z :: a), r. simpl. rewrite E, Ha. now repeat split.
    + destruct (IH a' H) as (a & r & -> & Ha & Hr).
      exists (y :: a), r. simpl. rewrite E. now repeat split.
Qed.

Lemma filter_before_inv {A : Type} (p : A -> bool) (l a' b' c' : list A)
  (x y : A) :
  filter p l = a' ++ x :: b' ++ y :: c' ->
  exists a b c, l = a ++ x :: b ++ y :: c.
Proof.
  intros H. apply filter_split_inv in H.
  destruct H as (a & r & -> & _ & Hr).
  apply filter_split_inv in Hr. destruct Hr as (b & c & -> & _ & _).
  now exists a, b, c.
Qed.

(** X22.  With [sort_words] the words returned ascend strictly; without
    it the counts descend, and of two words with the same count the one
    that stands first is the one that occurs first in the text. *)
Theorem string_stoplist_order text size sort_words lower remove_punctuation
  remove_numbers exclude l :
  StringStoplist.build_stoplist text size sort_words true lower
    remove_punctuation remove_numbers [] exclude
  = inr (StringStoplist.Counts l) ->
  let tokens := tokens_of lower remove_punctuation remove_numbers text in
  (sort_words = true ->
   StronglySorted (fun a b => String.ltb (fst a) (fst b) = true) l)
  /\ (sort_words = false ->
      StronglySorted (fun a b => snd b <= snd a) l
      /\ forall a s b t c n,
           l = a ++ (s, n) :: b ++ (t, n) :: c ->
           exists a' b' c',
             first_occurrences tokens = a' ++ s :: b' ++ t :: c').
Proof.
  intros E tokens. rewrite string_build_stoplist_unfold in E.
  cbv zeta in E. fold tokens in E. injection E as <-.
  set (items := StringStoplist.Counter tokens).
  unfold StringStoplist.most_common.
  set (K := Z.to_nat size).
  set (R := Py.sorted_rev snd Nat.ltb items).
  split; intros ->.
  - apply StronglySorted_filter, sorted_by_word.
    rewrite <- firstn_map. apply NoDup_firstn.
    eapply Permutation_NoDup;
      [apply Permutation_sym, Permutation_map, sorted_rev_perm|].
    apply counter_NoDup.
  - split.
    + apply StronglySorted_filter, StronglySorted_firstn, ranking_sorted.
    + intros a s b t c n H.
      apply filter_before_inv in H. destruct H as (a1 & b1 & c1 & H).
      assert (HR : R = a1 ++ (s, n) :: b1 ++ (t, n) :: c1 ++ skipn K R).
      { rewrite <- (firstn_skipn K R) at 1. rewrite H.
        rewrite <- !app_assoc. cbn [app]. rewrite <- !app_assoc.
        reflexivity. }
      set (p := fun item : string * nat => snd item =? n).
      assert (Hf : filter p R = filter p items).
      { apply sorted_rev_filter. intros x y Hx Hy.
        apply Nat.eqb_eq in Hx, Hy. apply Nat.ltb_ge. lia. }
      rewrite HR in Hf. rewrite filter_app in Hf. cbn [filter] in Hf.
      assert (Hp : p (s, n) = true) by apply Nat.eqb_refl.
      assert (Hp' : p (t, n) = true) by apply Nat.eqb_refl.
      rewrite Hp, filter_app in Hf. cbn [filter] in Hf. rewrite Hp' in Hf.
      symmetry in Hf. apply filter_before_inv in Hf.
      destruct Hf as (a2 & b2 & c2 & Hitems).
      exists (map fst a2), (map fst b2), (map fst c2).
      rewrite <- counter_keys. fold items. rewrite Hitems.
      unfold Py.dict_keys. rewrite !map_app. cbn [map fst].
      rewrite !map_app. reflexivity.
Qed.



(** ** The further properties at work *)

(** X4 on the counts of the small corpus. *)
Lemma probabilities_spec_witness :
  List.length Demo.dtm = List.length [6; 4]
  /\ nth_error (_get_probabilities Demo.dtm (_get_length_array [6; 4])) 1
     = Some (map (fun c => Fin (Np.Qc_of_nat c / Np.Qc_of_nat 4)%Qc)
               [0; 2; 2]).
Proof.
  assert (H : List.length Demo.dtm = List.length [6; 4]) by reflexivity.
  split; [exact H|].
  apply (proj2 (proj2 (probabilities_spec Demo.dtm [6; 4] H)) 1 [0; 2; 2] 4);
    [reflexivity|reflexivity|lia].
Defined.

(** X5 on the counts of the small corpus: ["bb"] occurs 1 + 2 times. *)
Lemma frequency_measure_spec_witness :
  Demo.dtm <> [] /\ rectangular 3 Demo.dtm /\ 1 < 3
  /\ nth 1 (frequency_measure Demo.dtm) NonFinite
     = Np.of_nat (list_sum (nat_column 1 Demo.dtm)).
Proof.
  assert (H1 : Demo.dtm <> []) by discriminate.
  assert (H2 : rectangular 3 Demo.dtm) by (repeat constructor).
  assert (H3 : 1 < 3) by lia.
  split; [exact H1|]. split; [exact H2|]. split; [exact H3|].
  exact (proj2 (frequency_measure_spec 3 1 Demo.dtm H1 H2 H3)).
Defined.

(** X6 on two documents in which the term has probability 1/2. *)
Lemma mean_probabilities_spec_witness :
  let P := [[Fin (Demo.q 1 2)]; [Fin (Demo.q 1 2)]] in
  P <> [] /\ rectangular 1 P /\ 0 < 1
  /\ nth 0 (_get_mean_probabilities P 2) NonFinite
     = Np.div (num_sum (column 0 P)) (Np.of_nat 2).
Proof.
  intro P.
  assert (H1 : P <> []) by discriminate.
  assert (H2 : rectangular 1 P) by (repeat constructor).
  assert (H3 : 0 < 1) by lia.
  split; [exact H1|]. split; [exact H2|]. split; [exact H3|].
  exact (proj2 (mean_probabilities_spec P 1 2 0 H1 H2 H3)).
Defined.

(** X7 on the same two documents, against a background of 1/4. *)
Lemma variance_probabilities_spec_witness :
  let P := [[Fin (Demo.q 1 2)]; [Fin (Demo.q 1 2)]] in
  let bP := [[Fin (Demo.q 1 4)]; [Fin (Demo.q 1 4)]] in
  P <> [] /\ rectangular 1 P /\ rectangular 1 bP
  /\ List.length P = List.length bP /\ 0 < 1
  /\ List.length (_get_variance_probabilities bP P 2) = 1.
Proof.
  intros P bP.
  assert (H1 : P <> []) by discriminate.
  assert (H2 : rectangular 1 P) by (repeat constructor).
  assert (H3 : rectangular 1 bP) by (repeat constructor).
  assert (H4 : List.length P = List.length bP) by reflexivity.
  assert (H5 : 0 < 1) by lia.
  repeat (split; [assumption|]).
  exact (proj1 (variance_probabilities_spec bP P 1 2 0 H1 H2 H3 H4 H5)).
Defined.

(** X9 on the frequencies of the small corpus. *)
Lemma combine_vocabulary_stable_witness :
  List.length Demo.vocab = List.length (frequency_measure Demo.dtm)
  /\ Permutation (_combine_vocabulary Demo.vocab (frequency_measure Demo.dtm))
       Demo.vocab.
Proof.
  assert (H : List.length Demo.vocab
              = List.length (frequency_measure Demo.dtm)) by reflexivity.
  split; [exact H|].
  exact (proj1 (combine_vocabulary_stable Demo.vocab
                  (frequency_measure Demo.dtm) H)).
Defined.

(** X10 on three copies of one ranking. *)
Lemma borda_sort_unanimous_witness :
  let l := ["cc"; "bb"; "aa"] in
  [l; l; l] <> [] /\ Forall (eq l) [l; l; l] /\ NoDup l
  /\ _borda_sort [l; l; l] = l.
Proof.
  intro l.
  assert (H1 : [l; l; l] <> []) by discriminate.
  assert (H2 : Forall (eq l) [l; l; l]) by (repeat constructor).
  assert (H3 : NoDup l).
  { repeat constructor; simpl; intuition discriminate. }
  split; [exact H1|]. split; [exact H2|]. split; [exact H3|].
  exact (borda_sort_unanimous l [l; l; l] H1 H2 H3).
Defined.

(** X11 on two rankings that both put ["aa"] above ["bb"]. *)
Lemma borda_sort_pareto_witness :
  let lists := [["aa"; "bb"; "cc"]; ["cc"; "aa"; "bb"]] in
  lists <> []
  /\ (forall l, In l lists -> NoDup l /\ ranks_above l "aa" "bb")
  /\ ranks_above (_borda_sort lists) "aa" "bb".
Proof.
  intro lists.
  assert (H1 : lists <> []) by discriminate.
  assert (H2 : forall l, In l lists -> NoDup l /\ ranks_above l "aa" "bb").
  { intros l [<-|[<-|[]]]; split;
      try (repeat constructor; simpl; intuition discriminate).
    - exists 0, 1. repeat split. lia.
    - exists 1, 2. repeat split. lia. }
  split; [exact H1|]. split; [exact H2|].
  exact (borda_sort_pareto lists "aa" "bb" H1 H2).
Defined.

(** X12 on a call that includes a word the corpus does not hold. *)
Lemma build_stoplist_includes_witness :
  Demo.build Demo.corpus "frequency" 1%Z true false true true true ["zz"] []
    Demo.self
  = (inr (Py.PyList ["cc"; "zz"]), Demo.fitted_self Demo.vocab)
  /\ forall t, In t ["zz"] -> In t (Py.elements (Py.PyList ["cc"; "zz"])).
Proof.
  assert (E : Demo.build Demo.corpus "frequency" 1%Z true false true true
                true ["zz"] [] Demo.self
              = (inr (Py.PyList ["cc"; "zz"]), Demo.fitted_self Demo.vocab))
    by (vm_compute; reflexivity).
  split; [exact E|].
  exact (proj1 (build_stoplist_includes Demo.log10_table
                  Demo.insertion_order Demo.sk_count Demo.sk_tfidf
                  Demo.corpus "frequency" 1%Z true false true true true
                  ["zz"] [] Demo.self (Py.PyList ["cc"; "zz"])
                  (Demo.fitted_self Demo.vocab) E)).
Defined.

(** X13 on the small corpus. *)
Lemma build_stoplist_entropy_include_witness :
  language Demo.self = Some "latin"
  /\ Demo.sk_count (preprocess true true true Demo.corpus)
     = inr (Demo.dtm, Demo.vocab)
  /\ Demo.sk_tfidf (preprocess true true true Demo.corpus)
     = inr (Demo.tfidf, Demo.vocab)
  /\ ["zz"] <> []
  /\ Demo.build Demo.corpus "entropy" 2%Z true false true true true ["zz"] []
       Demo.self
     = (inl no_extend, fitted Demo.self Demo.vocab Demo.vocab).
Proof.
  assert (H1 : language Demo.self = Some "latin") by reflexivity.
  assert (H2 : Demo.sk_count (preprocess true true true Demo.corpus)
               = inr (Demo.dtm, Demo.vocab)) by (vm_compute; reflexivity).
  assert (H3 : Demo.sk_tfidf (preprocess true true true Demo.corpus)
               = inr (Demo.tfidf, Demo.vocab)) by (vm_compute; reflexivity).
  assert (H4 : ["zz"] <> []) by discriminate.
  repeat (split; [assumption|]).
  exact (build_stoplist_entropy_include Demo.log10_table
           Demo.insertion_order Demo.sk_count Demo.sk_tfidf Demo.corpus 2%Z
           true false true true true ["zz"] Demo.self "latin" Demo.dtm
           Demo.vocab Demo.tfidf Demo.vocab H1 H2 H3 H4).
Defined.

(** X14 on the small corpus, with the zou basis and room for five terms. *)
Lemma build_stoplist_whole_vocabulary_witness :
  language Demo.self = Some "latin"
  /\ Demo.sk_count (preprocess true true true Demo.corpus)
     = inr (Demo.dtm, Demo.vocab)
  /\ Demo.sk_tfidf (preprocess true true true Demo.corpus)
     = inr (Demo.tfidf, Demo.vocab)
  /\ In "zou" supported_bases
  /\ NoDup Demo.vocab
  /\ Demo.corpus <> []
  /\ List.length Demo.dtm = List.length Demo.corpus
  /\ rectangular (List.length Demo.vocab) Demo.dtm
  /\ List.length Demo.tfidf = List.length Demo.corpus
  /\ rectangular (List.length Demo.vocab) Demo.tfidf
  /\ (Z.of_nat (List.length Demo.vocab) <= 5)%Z
  /\ exists result,
       Demo.build Demo.corpus "zou" 5%Z false false true true true [] []
         Demo.self
       = (inr result, fitted Demo.self Demo.vocab Demo.vocab)
       /\ Permutation (Py.elements result) Demo.vocab.
Proof.
  assert (H1 : language Demo.self = Some "latin") by reflexivity.
  assert (H2 : Demo.sk_count (preprocess true true true Demo.corpus)
               = inr (Demo.dtm, Demo.vocab)) by (vm_compute; reflexivity).
  assert (H3 : Demo.sk_tfidf (preprocess true true true Demo.corpus)
               = inr (Demo.tfidf, Demo.vocab)) by (vm_compute; reflexivity).
  assert (H4 : In "zou" supported_bases) by (simpl; tauto).
  assert (H5 : NoDup Demo.vocab).
  { repeat constructor; simpl; intuition discriminate. }
  assert (H6 : Demo.corpus <> []) by discriminate.
  assert (H7 : List.length Demo.dtm = List.length Demo.corpus)
    by reflexivity.
  assert (H8 : rectangular (List.length Demo.vocab) Demo.dtm)
    by (repeat constructor).
  assert (H9 : List.length Demo.tfidf = List.length Demo.corpus)
    by reflexivity.
  assert (H10 : rectangular (List.length Demo.vocab) Demo.tfidf)
    by (repeat constructor).
  assert (H11 : (Z.of_nat (List.length Demo.vocab) <= 5)%Z)
    by (vm_compute; discriminate).
  repeat (split; [assumption|]).
  exact (build_stoplist_whole_vocabulary Demo.log10_table
           Demo.insertion_order Demo.sk_count Demo.sk_tfidf Demo.corpus "zou"
           5%Z false false true true true Demo.self "latin" Demo.dtm
           Demo.vocab Demo.tfidf Demo.vocab H1 H2 H3 H4 H5 H6 H7 H8 H9 H10
           H11).
Defined.

(** X16 on the two most frequent terms of the small corpus. *)
Lemma build_stoplist_sort_words_witness :
  Demo.build Demo.corpus "frequency" 2%Z false false true true true [] []
    Demo.self
  = (inr (Py.PyList ["cc"; "bb"]), Demo.fitted_self Demo.vocab)
  /\ Demo.build Demo.corpus "frequency" 2%Z true false true true true [] []
       Demo.self
     = (inr (Py.PyList (Py.sorted_str ["cc"; "bb"])),
        Demo.fitted_self Demo.vocab).
Proof.
  assert (E : Demo.build Demo.corpus "frequency" 2%Z false false true true
                true [] [] Demo.self
              = (inr (Py.PyList ["cc"; "bb"]), Demo.fitted_self Demo.vocab))
    by (vm_compute; reflexivity).
  split; [exact E|].
  exact (proj1 (build_stoplist_sort_words Demo.log10_table
                  Demo.insertion_order Demo.sk_count Demo.sk_tfidf
                  Demo.corpus "frequency" 2%Z false true true true [] []
                  Demo.self (Py.PyList ["cc"; "bb"])
                  (Demo.fitted_self Demo.vocab) E)).
Defined.

Lemma demo_text_top3 :
  StringStoplist.build_stoplist DemoText.text 3%Z false true true true true
    [] []
  = inr (StringStoplist.Counts DemoText.top3).
Proof. vm_compute. reflexivity. Qed.

(** X20 on the text of [DemoText]. *)
Lemma string_stoplist_counts_witness :
  StringStoplist.build_stoplist DemoText.text 3%Z false true true true true
    [] []
  = inr (StringStoplist.Counts DemoText.top3)
  /\ NoDup (map fst DemoText.top3).
Proof.
  split; [exact demo_text_top3|].
  exact (proj1 (proj2 (string_stoplist_counts DemoText.text 3%Z false true
                         true true [] DemoText.top3 demo_text_top3))).
Defined.

(** X21 on the text of [DemoText]: ["bird"] is left out, and occurs no more
    often than ["dog"]. *)
Lemma string_stoplist_most_common_witness :
  StringStoplist.build_stoplist DemoText.text 3%Z false true true true true
    [] []
  = inr (StringStoplist.Counts DemoText.top3)
  /\ occurrences "bird" (tokens_of true true true DemoText.text) <= 1.
Proof.
  split; [exact demo_text_top3|].
  apply (string_stoplist_most_common DemoText.text 3%Z false true true true
           [] DemoText.top3 demo_text_top3 "bird" "dog" 1).
  - vm_compute. tauto.
  - vm_compute. intuition discriminate.
  - intros [].
  - vm_compute. tauto.
Defined.

(** X22 on the text of [DemoText]. *)
Lemma string_stoplist_order_witness :
  StringStoplist.build_stoplist DemoText.text 3%Z false true true true true
    [] []
  = inr (StringStoplist.Counts DemoText.top3)
  /\ StronglySorted (fun a b => snd b <= snd a) DemoText.top3.
Proof.
  split; [exact demo_text_top3|].
  exact (proj1 (proj2 (string_stoplist_order DemoText.text 3%Z false true
                         true true [] DemoText.top3 demo_text_top3)
                  eq_refl)).
Defined.

